(** * Arbitrage-cycle analysis: a shallow embedding of [lib/analysis.py]

    The development follows the Python source function by function:
    - [count_complete_cycles]: the index-driven scan over two boolean series;
    - [analyze_pair_fast]: the as-of join, the deviation column, its
      aggregates, the zero-crossing count, the per-threshold statistics and
      the returned dictionary.

    Numbers are the ones the code computes with: Python [float] and Polars
    [Float64] are IEEE binary64 ([PrimFloat.float]), Python [int] is [Z],
    a Polars value may be null ([option]).  A Python exception is a value of
    the error type [Py.exc]; the [try ... except Exception: return None] of
    [analyze_pair_fast] turns every one of them into [None]. *)

From Stdlib Require Import String Ascii.
From Stdlib Require Import ZArith List Bool Lia Sorted Permutation.
From Stdlib Require Import Floats Uint63.
Import ListNotations.

Set Warnings "-inexact-float".

Local Open Scope Z_scope.

(* ================================================================== *)
(** ** Python values, exceptions and dictionaries *)

Module Py.

(** The exceptions the modelled code can raise. *)
Inductive exc : Type :=
| TypeError
| IndexError
| ZeroDivisionError.

(** A computation that returns or raises. *)
Inductive result (A : Type) : Type :=
| Ok (a : A)
| Raise (e : exc).
Arguments Ok {A} a.
Arguments Raise {A} e.

Definition bind {A B : Type} (m : result A) (k : A -> result B) : result B :=
  match m with
  | Ok a => k a
  | Raise e => Raise e
  end.

(** The values stored in the metric dictionary. *)
Inductive value : Type :=
| VInt (z : Z)
| VFloat (f : float)
| VBool (b : bool).

(** A dictionary in insertion order. *)
Definition dict : Type := list (string * value).

Fixpoint get (d : dict) (k : string) : option value :=
  match d with
  | [] => None
  | (k', v) :: d' => if String.eqb k k' then Some v else get d' k
  end.

Definition keys (d : dict) : list string := map fst d.

(** [float(n)] for a Python [int], and the cast of a row count to a float:
    the conversion of the machine integer, exact below [2^53] and rounded to
    nearest above.  The integers converted here are counts of rows and of
    microseconds, below [2^63]. *)
Definition float_of_int (z : Z) : float :=
  match z with
  | Z0 => 0%float
  | Zpos _ => PrimFloat.of_uint63 (Uint63.of_Z z)
  | Zneg _ => PrimFloat.opp (PrimFloat.of_uint63 (Uint63.of_Z (- z)))
  end.

(** [float(x)] on what a Polars aggregate returns: [None] is a
    [TypeError]. *)
Definition float_ (x : option float) : result float :=
  match x with
  | Some f => Ok f
  | None => Raise TypeError
  end.

(** [a / b] on Python floats: a zero divisor raises. *)
Definition truediv (a b : float) : result float :=
  if PrimFloat.is_zero b then Raise ZeroDivisionError else Ok (a / b)%float.

(** [timedelta.total_seconds()]: the number of microseconds of the duration
    over [10**6], as a float. *)
Definition total_seconds (microseconds : Z) : float :=
  (float_of_int microseconds / 1000000)%float.

(** [l[i]] on a Python list, for [i >= 0]. *)
Definition getitem {A : Type} (l : list A) (i : nat) : result A :=
  match nth_error l i with
  | Some a => Ok a
  | None => Raise IndexError
  end.

(** Truth value of an element of a numpy array obtained from a boolean
    series: [None] (a null) is falsy. *)
Definition truthy (o : option bool) : bool :=
  match o with
  | Some b => b
  | None => false
  end.

(** [for i in range(n): st = body(i, st)], stopping at the first raise. *)
Fixpoint for_range {S : Type} (body : nat -> S -> result S)
         (indices : list nat) (st : S) : result S :=
  match indices with
  | [] => Ok st
  | i :: rest => bind (body i st) (for_range body rest)
  end.

End Py.

Import Py.

Notation "x <- m ;; k" := (Py.bind m (fun x => k))
  (at level 61, m at next level, right associativity).

(* ================================================================== *)
(** ** [count_complete_cycles] *)

(** A boolean Polars series; [to_numpy()] keeps a null as [None]. *)
Definition bool_series : Type := list (option bool).

(** The loop variables [cycles] and [was_above]. *)
Record scan_state : Type := mkScan { cycles : Z; was_above : bool }.

(** One iteration of the loop body at index [i]:
<<
    if above[i]:
        was_above = True
    elif neutral[i] and was_above:
        cycles += 1
        was_above = False
>>
    [neutral[i]] is only read when [above[i]] is falsy. *)
Definition cycle_body (above neutral : bool_series) (i : nat) (st : scan_state)
  : result scan_state :=
  a <- getitem above i ;;
  if truthy a then Ok (mkScan (cycles st) true)
  else
    n <- getitem neutral i ;;
    if truthy n && was_above st
    then Ok (mkScan (cycles st + 1) false)
    else Ok st.

Definition count_complete_cycles (above_threshold_series in_neutral_series : bool_series)
  : result Z :=
  let above := above_threshold_series in
  let neutral := in_neutral_series in
  st <- for_range (cycle_body above neutral) (seq 0 (length above)) (mkScan 0 false) ;;
  Ok (cycles st).

(* ================================================================== *)
(** ** The Polars operations the analysis calls

    A series is a list of possibly-null values.  Arithmetic and comparisons
    propagate nulls element-wise; aggregates skip nulls; [max], [min] and
    [mean] return null on a series without a non-null value, and the [sum]
    of a boolean series counts its true values (0 when there is none);
    float [max]/[min] ignore NaN unless every value is NaN; a float division
    by zero is not an error but an infinity or a NaN; a comparison of floats
    orders NaN above every number and equal to itself.  The float sum is
    taken from the first row to the last. *)

Module Polars.

Definition series (A : Type) : Type := list (option A).

Definition lift2 {A B C : Type} (f : A -> B -> C) (x : option A) (y : option B)
  : option C :=
  match x, y with
  | Some a, Some b => Some (f a b)
  | _, _ => None
  end.

(** A binary expression on two columns of one frame. *)
Definition zip_with {A B C : Type} (f : A -> B -> C) (s : series A) (t : series B)
  : series C :=
  map (fun p => lift2 f (fst p) (snd p)) (combine s t).

(** A unary expression on a column. *)
Definition map_values {A B : Type} (f : A -> B) (s : series A) : series B :=
  map (option_map f) s.

Fixpoint drop_nulls {A : Type} (s : series A) : list A :=
  match s with
  | [] => []
  | Some a :: s' => a :: drop_nulls s'
  | None :: s' => drop_nulls s'
  end.

(** [shift(1)]: every value moves one row down, the first row is null. *)
Definition shift1 {A : Type} (s : series A) : series A :=
  match s with
  | [] => []
  | _ :: _ => None :: removelast s
  end.

(** [sign()] on a float: a zero (of either sign) and NaN are kept, any
    other value gives [1.0] or [-1.0]. *)
Definition sign (v : float) : float :=
  if PrimFloat.is_zero v then v
  else if PrimFloat.is_nan v then nan
  else if (v <? 0)%float then (-1)%float else 1%float.

Definition max_ignore_nan (a b : float) : float :=
  if PrimFloat.is_nan a then b
  else if PrimFloat.is_nan b then a
  else if (a <? b)%float then b else a.

Definition min_ignore_nan (a b : float) : float :=
  if PrimFloat.is_nan a then b
  else if PrimFloat.is_nan b then a
  else if (b <? a)%float then b else a.

(** [a > b] and [a < b] on the floats of a column: the order of the
    numbers, with NaN above every number and equal to NaN.  Against the
    number 0 on the right, [lt] is the comparison [<?] of the floats. *)
Definition gt (a b : float) : bool :=
  if PrimFloat.is_nan a then negb (PrimFloat.is_nan b) else (b <? a)%float.

Definition lt (a b : float) : bool := gt b a.

Definition reduce {A : Type} (f : A -> A -> A) (l : list A) : option A :=
  match l with
  | [] => None
  | x :: l' => Some (fold_left f l' x)
  end.

Definition max (s : series float) : option float :=
  reduce max_ignore_nan (drop_nulls s).

Definition min (s : series float) : option float :=
  reduce min_ignore_nan (drop_nulls s).

(** Sum of the non-null values, accumulated from the first to the last. *)
Definition sum (s : series float) : float :=
  fold_left PrimFloat.add (drop_nulls s) 0%float.

(** [mean()]: the sum over the number of non-null values. *)
Definition mean (s : series float) : option float :=
  match drop_nulls s with
  | [] => None
  | vs => Some (sum s / float_of_int (Z.of_nat (length vs)))%float
  end.

(** [sum()] of a boolean column: the number of [true] values. *)
Definition sum_bool (s : series bool) : Z :=
  Z.of_nat (length (filter (fun b => b) (drop_nulls s))).

(** [mean()] of a boolean column: the fraction of [true] among the
    non-null values. *)
Definition mean_bool (s : series bool) : option float :=
  match drop_nulls s with
  | [] => None
  | vs => Some (float_of_int (sum_bool s) / float_of_int (Z.of_nat (length vs)))%float
  end.

(** [min()] and [max()] of the timestamp column. *)
Definition min_time (l : list Z) : option Z := reduce Z.min l.
Definition max_time (l : list Z) : option Z := reduce Z.max l.

End Polars.

(* ================================================================== *)
(** ** Frames *)

(** A row of an input frame: columns [timestamp], [bestBid], [bestAsk].
    A timestamp is a number of microseconds. *)
Module Tick.
Record t : Type := mk { timestamp : Z; bestBid : option float; bestAsk : option float }.
End Tick.

(** A row of the joined frame. *)
Module Joined.
Record t : Type := mk {
  timestamp : Z;
  bid_ex1 : option float;
  ask_ex1 : option float;
  bid_ex2 : option float;
  ask_ex2 : option float
}.
End Joined.

(** The backward as-of search over a right frame sorted by timestamp: walk
    the right rows while their key is at most [key] and keep the last one
    passed. *)
Fixpoint asof_backward (key : Z) (right : list Tick.t) (found : option Tick.t)
  : option Tick.t :=
  match right with
  | [] => found
  | r :: rest =>
      if Tick.timestamp r <=? key then asof_backward key rest (Some r) else found
  end.

(** [data1.rename({bestBid: bid_ex1, bestAsk: ask_ex1}).join_asof(
      data2.rename({bestBid: bid_ex2, bestAsk: ask_ex2}), on='timestamp')]
    with the default backward strategy, on frames sorted by timestamp: one
    row per row of [data1], in the same order, with the columns of the
    matched row of [data2], or nulls when there is no match.  On a frame
    that is not sorted the join raises; [analyze_pair_fast] below makes that
    check before it calls this function. *)
Definition join_asof (data1 data2 : list Tick.t) : list Joined.t :=
  map (fun l =>
         let m := asof_backward (Tick.timestamp l) data2 None in
         Joined.mk (Tick.timestamp l) (Tick.bestBid l) (Tick.bestAsk l)
                   (match m with Some r => Tick.bestBid r | None => None end)
                   (match m with Some r => Tick.bestAsk r | None => None end))
      data1.

(* ================================================================== *)
(** ** [analyze_pair_fast] *)

Definition default_thresholds : list float := [0.3; 0.5; 0.4]%float.
Definition default_zero_threshold : float := 0.05%float.

(** The columns [ratio] and [deviation]. *)
Definition ratio_column (joined : list Joined.t) : Polars.series float :=
  map (fun r => Polars.lift2 PrimFloat.div (Joined.bid_ex1 r) (Joined.bid_ex2 r)) joined.

Definition deviation_column (joined : list Joined.t) : Polars.series float :=
  Polars.map_values (fun ratio => (ratio - 1.0) / 1.0 * 100)%float (ratio_column joined).

(** The column [crossed]: [deviation_sign * deviation_sign.shift(1) < 0]. *)
Definition crossed_column (deviation : Polars.series float) : Polars.series bool :=
  let deviation_sign := Polars.map_values Polars.sign deviation in
  Polars.map_values (fun p => (p <? 0)%float)
    (Polars.zip_with PrimFloat.mul deviation_sign (Polars.shift1 deviation_sign)).

(** The flag columns [above_XXXbp] and [in_neutral]. *)
Definition above_column (deviation : Polars.series float) (threshold : float)
  : Polars.series bool :=
  Polars.map_values (fun d => Polars.gt (abs d) threshold) deviation.

Definition neutral_column (deviation : Polars.series float) (zero_threshold : float)
  : Polars.series bool :=
  Polars.map_values (fun d => Polars.lt (abs d) zero_threshold) deviation.

(** [max_timestamp - min_timestamp] on what [min()]/[max()] return. *)
Definition sub_time (a b : option Z) : result Z :=
  match a, b with
  | Some x, Some y => Ok (x - y)
  | _, _ => Raise TypeError
  end.

(** [count / duration_hours if duration_hours > 0 else 0]. *)
Definition per_hour (count : Z) (duration_hours : float) : result value :=
  if (0 <? duration_hours)%float
  then f <- truediv (float_of_int count) duration_hours ;; Ok (VFloat f)
  else Ok (VInt 0).

(** [per_hour / 60 if duration_hours > 0 else 0]. *)
Definition per_minute (per_hour : value) (duration_hours : float) : result value :=
  if (0 <? duration_hours)%float
  then match per_hour with
       | VFloat h => f <- truediv h 60 ;; Ok (VFloat f)
       | VInt n => f <- truediv (float_of_int n) 60 ;; Ok (VFloat f)
       | VBool _ => Raise TypeError
       end
  else Ok (VInt 0).

(** The five entries of [threshold_stats] for one threshold; [suffix] is the
    literal in the key names of the source. *)
Definition threshold_entries (suffix : string) (cycles_n : Z) (cycles_per_hour : value)
           (pct : float) (avg_duration : value) (pattern_break : bool) : dict :=
  [ (("opportunity_cycles_" ++ suffix)%string, VInt cycles_n);
    (("cycles_" ++ suffix ++ "_per_hour")%string, cycles_per_hour);
    (("pct_time_above_" ++ suffix)%string, VFloat pct);
    (("avg_cycle_duration_" ++ suffix ++ "_sec")%string, avg_duration);
    (("pattern_break_" ++ suffix)%string, VBool pattern_break) ].

(** [float(metrics['pct_XXXbp'])], the column being [above.mean() * 100]. *)
Definition pct_time_above (above : Polars.series bool) : result float :=
  float_ (option_map (fun m => m * 100)%float (Polars.mean_bool above)).

(** [(duration_hours * pct / 100 * 3600) / cycles if cycles > 0 else 0]. *)
Definition avg_duration_sec (duration_hours pct : float) (cycles_n : Z) : result value :=
  if 0 <? cycles_n
  then f <- truediv (duration_hours * pct / 100 * 3600)%float (float_of_int cycles_n) ;;
       Ok (VFloat f)
  else Ok (VInt 0).

(** The body of the [try] block, after the join.  The three per-hour cycle
    rates, which the source computes inside the dictionary literal, are
    bound just before it. *)
Definition analyze_joined (joined : list Joined.t) (thresholds : option (list float))
           (zero_threshold : float) : result (option dict) :=
  if match joined with [] => true | _ => false end then Ok None
  else
    let deviation := deviation_column joined in
    max_deviation_pct <- float_ (Polars.max deviation) ;;
    min_deviation_pct <- float_ (Polars.min deviation) ;;
    mean_deviation_pct <- float_ (Polars.mean deviation) ;;
    let asymmetry := mean_deviation_pct in
    let zero_crossings := Polars.sum_bool (crossed_column deviation) in
    let min_timestamp := Polars.min_time (map Joined.timestamp joined) in
    let max_timestamp := Polars.max_time (map Joined.timestamp joined) in
    delta <- sub_time max_timestamp min_timestamp ;;
    duration_hours <- truediv (total_seconds delta) 3600 ;;
    zero_crossings_per_hour <- per_hour zero_crossings duration_hours ;;
    zero_crossings_per_minute <- per_minute zero_crossings_per_hour duration_hours ;;
    let thresholds := match thresholds with
                      | None => default_thresholds
                      | Some l => l
                      end in
    th0 <- getitem thresholds 0 ;;
    th1 <- getitem thresholds 1 ;;
    th2 <- getitem thresholds 2 ;;
    let above_030bp := above_column deviation th0 in
    let above_050bp := above_column deviation th1 in
    let above_040bp := above_column deviation th2 in
    let in_neutral := neutral_column deviation zero_threshold in
    cycles_030bp <- count_complete_cycles above_030bp in_neutral ;;
    cycles_050bp <- count_complete_cycles above_050bp in_neutral ;;
    cycles_040bp <- count_complete_cycles above_040bp in_neutral ;;
    pct_030bp <- pct_time_above above_030bp ;;
    pct_050bp <- pct_time_above above_050bp ;;
    pct_040bp <- pct_time_above above_040bp ;;
    avg_duration_030bp_sec <- avg_duration_sec duration_hours pct_030bp cycles_030bp ;;
    avg_duration_050bp_sec <- avg_duration_sec duration_hours pct_050bp cycles_050bp ;;
    avg_duration_040bp_sec <- avg_duration_sec duration_hours pct_040bp cycles_040bp ;;
    last_deviation <- float_ (last deviation None) ;;
    let pattern_break_030bp := (th0 <? abs last_deviation)%float in
    let pattern_break_050bp := (th1 <? abs last_deviation)%float in
    let pattern_break_040bp := (th2 <? abs last_deviation)%float in
    per_hour_030bp <- per_hour cycles_030bp duration_hours ;;
    per_hour_050bp <- per_hour cycles_050bp duration_hours ;;
    per_hour_040bp <- per_hour cycles_040bp duration_hours ;;
    let stats_030bp := threshold_entries "030bp" cycles_030bp per_hour_030bp pct_030bp
                         avg_duration_030bp_sec pattern_break_030bp in
    let stats_050bp := threshold_entries "050bp" cycles_050bp per_hour_050bp pct_050bp
                         avg_duration_050bp_sec pattern_break_050bp in
    let stats_040bp := threshold_entries "040bp" cycles_040bp per_hour_040bp pct_040bp
                         avg_duration_040bp_sec pattern_break_040bp in
    let threshold_stats := stats_030bp ++ stats_050bp ++ stats_040bp in
    Ok (Some ([ ("max_deviation_pct"%string, VFloat max_deviation_pct);
                ("min_deviation_pct"%string, VFloat min_deviation_pct);
                ("deviation_asymmetry"%string, VFloat asymmetry);
                ("zero_crossings"%string, VInt zero_crossings);
                ("zero_crossings_per_hour"%string, zero_crossings_per_hour);
                ("zero_crossings_per_minute"%string, zero_crossings_per_minute) ]
              ++ threshold_stats
              ++ [ ("data_points"%string, VInt (Z.of_nat (length joined)));
                   ("duration_hours"%string, VFloat duration_hours) ])).

(** The check [join_asof] makes on the key column of either frame: the
    timestamps ascend, equal ones allowed. *)
Fixpoint is_sorted (data : list Tick.t) : bool :=
  match data with
  | a :: (b :: _) as rest => (Tick.timestamp a <=? Tick.timestamp b) && is_sorted rest
  | _ => true
  end.

(** The function itself: the join, which raises on a frame that is not
    sorted by timestamp, then the body; any exception is caught and gives
    [None]. *)
Definition analyze_pair_fast (symbol ex1 ex2 : string) (data1 data2 : list Tick.t)
           (thresholds : option (list float)) (zero_threshold : float) : option dict :=
  if is_sorted data1 && is_sorted data2
  then match analyze_joined (join_asof data1 data2) thresholds zero_threshold with
       | Ok r => r
       | Raise _ => None
       end
  else None.

(* ================================================================== *)
(** ** The cycle counter as the specification words it *)

Inductive machine_state : Type := IDLE | ARMED.

(** One row of the two-state machine: [above] arms it from any state;
    otherwise [neutral] in state [ARMED] disarms it and counts one cycle;
    every other row leaves state and counter as they are. *)
Definition machine_step (st : machine_state * Z) (row : bool * bool)
  : machine_state * Z :=
  let '(s, c) := st in
  let '(above_i, neutral_i) := row in
  if above_i then (ARMED, c)
  else match s with
       | ARMED => if neutral_i then (IDLE, c + 1) else (ARMED, c)
       | IDLE => (IDLE, c)
       end.

Definition machine_run (rows : list (bool * bool)) : Z :=
  snd (fold_left machine_step rows (IDLE, 0)).

(** Number of maximal runs of consecutive [true] in a stream; [prev] is the
    value of the element before the stream. *)
Fixpoint true_runs_from (prev : bool) (l : list bool) : Z :=
  match l with
  | [] => 0
  | b :: l' => (if b && negb prev then 1 else 0) + true_runs_from b l'
  end.

Definition true_runs (l : list bool) : Z := true_runs_from false l.

(** The rows of two co-indexed boolean series, as the scan reads them. *)
Definition rows_of (s : list (option bool * option bool)) : list (bool * bool) :=
  map (fun r => (truthy (fst r), truthy (snd r))) s.

(** The loop of [count_complete_cycles] read over the zipped rows: what the
    index-driven scan computes when both series have the rows of [rows]. *)
Definition scan_row (st : scan_state) (row : bool * bool) : scan_state :=
  if fst row then mkScan (cycles st) true
  else if snd row && was_above st then mkScan (cycles st + 1) false
  else st.

Definition scan_rows (rows : list (bool * bool)) (st : scan_state) : scan_state :=
  fold_left scan_row rows st.

Definition armed (s : machine_state) : bool :=
  match s with ARMED => true | IDLE => false end.

(* ================================================================== *)
(** ** Vocabulary of the statements *)

(** The deviation of one joined row. *)
Definition row_deviation (r : Joined.t) : option float :=
  option_map (fun ratio => (ratio - 1.0) / 1.0 * 100)%float
             (Polars.lift2 PrimFloat.div (Joined.bid_ex1 r) (Joined.bid_ex2 r)).

(** The deviation from parity as the specification writes it. *)
Definition parity_deviation (bid_ex1 bid_ex2 : float) : float :=
  ((bid_ex1 / bid_ex2 - 1.0) * 100)%float.

(** A price: a finite float other than zero. *)
Definition finite_nonzero (x : float) : bool :=
  PrimFloat.is_finite x && negb (PrimFloat.is_zero x).

(** A row on which both exchanges quote the same price. *)
Definition at_parity (r : Joined.t) : Prop :=
  exists x : float,
    Joined.bid_ex1 r = Some x /\ Joined.bid_ex2 r = Some x /\ finite_nonzero x = true.

(** A true sign flip: one value above zero, the other below. *)
Definition sign_flip (x y : float) : bool :=
  ((0 <? x) && (y <? 0) || (x <? 0) && (0 <? y))%float.

(** Row [i] is a crossing: it has a predecessor, both deviations are defined
    and the product of their signs is negative. *)
Definition crossing_at (deviation : Polars.series float) (i : nat) : bool :=
  match i with
  | O => false
  | S j =>
      match nth_error deviation i, nth_error deviation j with
      | Some (Some cur), Some (Some prev) =>
          (Polars.sign cur * Polars.sign prev <? 0)%float
      | _, _ => false
      end
  end.

Definition count_crossings (deviation : Polars.series float) : Z :=
  Z.of_nat (length (filter (crossing_at deviation) (seq 0 (length deviation)))).

(** The column [crossed], built row after row; [prev] is the sign of the
    row before. *)
Fixpoint crossed_from (prev : option float) (signs : Polars.series float)
  : Polars.series bool :=
  match signs with
  | [] => []
  | c :: rest =>
      option_map (fun p => (p <? 0)%float) (Polars.lift2 PrimFloat.mul c prev)
        :: crossed_from c rest
  end.

(** The five shapes of a float, as [sign] and the comparisons with zero see
    them. *)
Inductive float_shape (x : float) : Prop :=
| shape_pzero : x = 0%float -> float_shape x
| shape_nzero : x = (-0)%float -> float_shape x
| shape_nan : x = nan -> float_shape x
| shape_pos :
    PrimFloat.is_zero x = false -> PrimFloat.is_nan x = false ->
    (x <? 0)%float = false -> (0 <? x)%float = true -> float_shape x
| shape_neg :
    PrimFloat.is_zero x = false -> PrimFloat.is_nan x = false ->
    (x <? 0)%float = true -> (0 <? x)%float = false -> float_shape x.

(** A float above zero, in the specification of binary64. *)
Definition strictly_positive (x : spec_float) : Prop :=
  (exists m e, x = S754_finite false m e) \/ x = S754_infinity false.

(** Input frames sorted by timestamp, as [join_asof] requires. *)
Definition time_le (a b : Tick.t) : Prop := Tick.timestamp a <= Tick.timestamp b.

(** The keys of the returned dictionary, in insertion order. *)
Definition metric_keys : list string :=
  [ "max_deviation_pct"; "min_deviation_pct"; "deviation_asymmetry";
    "zero_crossings"; "zero_crossings_per_hour"; "zero_crossings_per_minute";
    "opportunity_cycles_030bp"; "cycles_030bp_per_hour"; "pct_time_above_030bp";
    "avg_cycle_duration_030bp_sec"; "pattern_break_030bp";
    "opportunity_cycles_050bp"; "cycles_050bp_per_hour"; "pct_time_above_050bp";
    "avg_cycle_duration_050bp_sec"; "pattern_break_050bp";
    "opportunity_cycles_040bp"; "cycles_040bp_per_hour"; "pct_time_above_040bp";
    "avg_cycle_duration_040bp_sec"; "pattern_break_040bp";
    "data_points"; "duration_hours" ]%string.

(** The values bound by the statements of the body, in the order of the
    source. *)
Record trace : Type := mkTrace {
  t_max : float;
  t_min : float;
  t_mean : float;
  t_delta : Z;
  t_duration : float;
  t_zc_per_hour : value;
  t_zc_per_minute : value;
  t_th0 : float;
  t_th1 : float;
  t_th2 : float;
  t_cycles0 : Z;
  t_cycles1 : Z;
  t_cycles2 : Z;
  t_pct0 : float;
  t_pct1 : float;
  t_pct2 : float;
  t_avg0 : value;
  t_avg1 : value;
  t_avg2 : value;
  t_last : float;
  t_per_hour0 : value;
  t_per_hour1 : value;
  t_per_hour2 : value
}.

(** The dictionary returned when the statements bound the values of [t]. *)
Definition dict_of (joined : list Joined.t) (t : trace) : dict :=
  let deviation := deviation_column joined in
  [ ("max_deviation_pct"%string, VFloat (t_max t));
    ("min_deviation_pct"%string, VFloat (t_min t));
    ("deviation_asymmetry"%string, VFloat (t_mean t));
    ("zero_crossings"%string, VInt (Polars.sum_bool (crossed_column deviation)));
    ("zero_crossings_per_hour"%string, t_zc_per_hour t);
    ("zero_crossings_per_minute"%string, t_zc_per_minute t) ]
  ++ (threshold_entries "030bp" (t_cycles0 t) (t_per_hour0 t) (t_pct0 t) (t_avg0 t)
        (t_th0 t <? abs (t_last t))%float
      ++ threshold_entries "050bp" (t_cycles1 t) (t_per_hour1 t) (t_pct1 t) (t_avg1 t)
           (t_th1 t <? abs (t_last t))%float
      ++ threshold_entries "040bp" (t_cycles2 t) (t_per_hour2 t) (t_pct2 t) (t_avg2 t)
           (t_th2 t <? abs (t_last t))%float)
  ++ [ ("data_points"%string, VInt (Z.of_nat (length joined)));
       ("duration_hours"%string, VFloat (t_duration t)) ].

(** Every statement of the body returned, with the values of [t]. *)
Definition runs_with (joined : list Joined.t) (thresholds : option (list float))
           (zero_threshold : float) (t : trace) : Prop :=
  let deviation := deviation_column joined in
  let ths := match thresholds with None => default_thresholds | Some l => l end in
  let in_neutral := neutral_column deviation zero_threshold in
  Polars.max deviation = Some (t_max t)
  /\ Polars.min deviation = Some (t_min t)
  /\ Polars.mean deviation = Some (t_mean t)
  /\ sub_time (Polars.max_time (map Joined.timestamp joined))
              (Polars.min_time (map Joined.timestamp joined)) = Ok (t_delta t)
  /\ truediv (total_seconds (t_delta t)) 3600 = Ok (t_duration t)
  /\ per_hour (Polars.sum_bool (crossed_column deviation)) (t_duration t)
     = Ok (t_zc_per_hour t)
  /\ per_minute (t_zc_per_hour t) (t_duration t) = Ok (t_zc_per_minute t)
  /\ (nth_error ths 0 = Some (t_th0 t)
      /\ nth_error ths 1 = Some (t_th1 t)
      /\ nth_error ths 2 = Some (t_th2 t))
  /\ (count_complete_cycles (above_column deviation (t_th0 t)) in_neutral = Ok (t_cycles0 t)
      /\ count_complete_cycles (above_column deviation (t_th1 t)) in_neutral = Ok (t_cycles1 t)
      /\ count_complete_cycles (above_column deviation (t_th2 t)) in_neutral = Ok (t_cycles2 t))
  /\ (pct_time_above (above_column deviation (t_th0 t)) = Ok (t_pct0 t)
      /\ pct_time_above (above_column deviation (t_th1 t)) = Ok (t_pct1 t)
      /\ pct_time_above (above_column deviation (t_th2 t)) = Ok (t_pct2 t))
  /\ (avg_duration_sec (t_duration t) (t_pct0 t) (t_cycles0 t) = Ok (t_avg0 t)
      /\ avg_duration_sec (t_duration t) (t_pct1 t) (t_cycles1 t) = Ok (t_avg1 t)
      /\ avg_duration_sec (t_duration t) (t_pct2 t) (t_cycles2 t) = Ok (t_avg2 t))
  /\ last deviation None = Some (t_last t)
  /\ (per_hour (t_cycles0 t) (t_duration t) = Ok (t_per_hour0 t)
      /\ per_hour (t_cycles1 t) (t_duration t) = Ok (t_per_hour1 t)
      /\ per_hour (t_cycles2 t) (t_duration t) = Ok (t_per_hour2 t)).

(* ================================================================== *)
(** ** Sample frames *)

Definition minute : Z := 60000000.

(** One tick per minute from time 0, with the given bids and asks one cent
    above them. *)
Definition frame_of (bids : list float) : list Tick.t :=
  map (fun p => Tick.mk (minute * Z.of_nat (fst p)) (Some (snd p))
                        (Some (snd p + 0.01)%float))
      (combine (seq 0 (length bids)) bids).

Definition swing_frame : list Tick.t := frame_of [100.5; 99.5; 100.5; 100]%float.
Definition flat_frame : list Tick.t := frame_of [100; 100; 100; 100]%float.
Definition trend_frame : list Tick.t := frame_of [100; 250.5; 7000; 0.001]%float.

(** A secondary frame whose second bid is zero. *)
Definition zero_bid_frame : list Tick.t :=
  [ Tick.mk 0 (Some 100%float) (Some 100.01%float);
    Tick.mk minute (Some 0%float) (Some 100.01%float);
    Tick.mk (2 * minute) (Some 100%float) (Some 100.01%float) ].
Definition three_flat_frame : list Tick.t := frame_of [100; 100; 100]%float.

(** The two input frames projected on the columns the metrics may read. *)
Definition bids_of (data : list Tick.t) : list (Z * option float) :=
  map (fun t => (Tick.timestamp t, Tick.bestBid t)) data.

(** The same ticks with every ask replaced. *)
Definition with_asks (ask : option float) (data : list Tick.t) : list Tick.t :=
  map (fun t => Tick.mk (Tick.timestamp t) (Tick.bestBid t) ask) data.

(** The columns of the joined frame that the body reads. *)
Definition metric_columns (joined : list Joined.t) : list (Z * option float * option float) :=
  map (fun j => (Joined.timestamp j, Joined.bid_ex1 j, Joined.bid_ex2 j)) joined.

Definition bid_of (found : option Tick.t) : option float :=
  match found with
  | Some r => Tick.bestBid r
  | None => None
  end.

(** The thresholds in force: the argument, or the defaults for [None]. *)
Definition effective_thresholds (thresholds : option (list float)) : list float :=
  match thresholds with
  | None => default_thresholds
  | Some l => l
  end.

(* ================================================================== *)
(** ** [run_all_ultra.py]: one symbol, all its pairs *)

(** [sorted(l)] on strings: the ascending arrangement of [l] for the order
    of Python strings (code point by code point, which on UTF-8 bytes is the
    byte order). *)
Fixpoint insert_sorted (x : string) (l : list string) : list string :=
  match l with
  | [] => [x]
  | y :: l' => if String.leb x y then x :: l else y :: insert_sorted x l'
  end.

Definition sorted (l : list string) : list string := fold_right insert_sorted [] l.

(** [itertools.combinations(l, 2)]: the pairs of positions [i < j], in
    lexicographic order of the positions. *)
Fixpoint combinations2 {A : Type} (l : list A) : list (A * A) :=
  match l with
  | [] => []
  | x :: rest => map (pair x) rest ++ combinations2 rest
  end.

(** A Python dictionary with string keys: [d[k] = v] replaces the value of a
    key already present and appends a new key. *)
Fixpoint dict_set {V : Type} (d : list (string * V)) (k : string) (v : V)
  : list (string * V) :=
  match d with
  | [] => [(k, v)]
  | (k', v') :: d' =>
      if String.eqb k k' then (k, v) :: d' else (k', v') :: dict_set d' k v
  end.

Fixpoint dict_get {V : Type} (d : list (string * V)) (k : string) : option V :=
  match d with
  | [] => None
  | (k', v) :: d' => if String.eqb k k' then Some v else dict_get d' k
  end.

Inductive status : Type := SUCCESS | SKIPPED.

(** An element of the list returned by [analyze_symbol_batch]. *)
Module PairResult.
Record t : Type := mk {
  symbol : string;
  ex1 : string;
  ex2 : string;
  status_ : status;
  stats : option dict
}.
End PairResult.

(** [ThreadPoolExecutor(max_workers=0)] raises. *)
Inductive pool_error : Type := ValueError.

(** The argument tuple of [analyze_symbol_batch]. *)
Definition batch_args : Type :=
  (string * list string * string * option string * option string
   * option (list float) * float)%type.

Section SymbolBatch.

(** [load_exchange_symbol_data(data_path, exchange, symbol, start_date,
    end_date)] on the data directory at hand: a frame, [None], or an
    exception. *)
Variable load_exchange_symbol_data :
  string -> string -> string -> option string -> option string
  -> result (option (list Tick.t)).

(** What the collecting loop stores for one completed load: the frame when
    the load returned one that is not empty. *)
Definition store_loaded (data_path symbol : string) (start_date end_date : option string)
           (exchange_data : list (string * list Tick.t)) (exchange : string)
  : list (string * list Tick.t) :=
  match load_exchange_symbol_data data_path exchange symbol start_date end_date with
  | Ok (Some data) =>
      match data with
      | [] => exchange_data
      | _ :: _ => dict_set exchange_data exchange data
      end
  | Ok None => exchange_data
  | Raise _ => exchange_data
  end.

(** One pair of the loop over [exchange_pairs]. *)
Definition analyze_pair_of_batch (symbol : string)
           (exchange_data : list (string * list Tick.t))
           (thresholds : option (list float)) (zero_threshold : float)
           (pair : string * string) : PairResult.t :=
  let '(ex1, ex2) := pair in
  match dict_get exchange_data ex1, dict_get exchange_data ex2 with
  | Some data1, Some data2 =>
      match analyze_pair_fast symbol ex1 ex2 data1 data2 thresholds zero_threshold with
      | Some stats => PairResult.mk symbol ex1 ex2 SUCCESS (Some stats)
      | None => PairResult.mk symbol ex1 ex2 SKIPPED None
      end
  | _, _ => PairResult.mk symbol ex1 ex2 SKIPPED None
  end.

(** [analyze_symbol_batch(args)].  [completion] is the order in which the
    loads submitted to the thread pool complete, one per element of
    [exchanges]. *)
Definition analyze_symbol_batch (completion : list string) (args : batch_args)
  : pool_error + list PairResult.t :=
  let '(symbol, exchanges, data_path, start_date, end_date, thresholds, zero_threshold) :=
    args in
  match exchanges with
  | [] => inl ValueError
  | _ :: _ =>
      let exchange_data :=
        fold_left (store_loaded data_path symbol start_date end_date) completion [] in
      let exchange_pairs := combinations2 (sorted exchanges) in
      inr (map (analyze_pair_of_batch symbol exchange_data thresholds zero_threshold)
               exchange_pairs)
  end.

(** The frame kept for an exchange, if any. *)
Definition loaded (data_path symbol : string) (start_date end_date : option string)
           (exchange : string) : option (list Tick.t) :=
  match load_exchange_symbol_data data_path exchange symbol start_date end_date with
  | Ok (Some (row :: rows)) => Some (row :: rows)
  | _ => None
  end.

End SymbolBatch.

(** The tallies of [run_ultra_fast_analysis] and the rows collected for the
    summary; a row is the three identifying fields followed by the metrics. *)
Record tally : Type := mkTally {
  successful : Z;
  skipped : Z;
  errors : Z;
  processed_pairs : Z;
  all_stats : list (string * string * string * dict)
}.

(** The body of the loop over the results of one batch:
<<
    processed_pairs += 1
    if status == "SUCCESS":
        successful += 1
        if result['stats']:
            all_stats.append({...})
    else:
        skipped += 1
>>
    A dictionary is truthy when it is not empty. *)
Definition tally_result (t : tally) (result : PairResult.t) : tally :=
  let processed := processed_pairs t + 1 in
  match PairResult.status_ result with
  | SUCCESS =>
      let rows :=
        match PairResult.stats result with
        | Some (entry :: entries) =>
            all_stats t ++ [ (PairResult.symbol result, PairResult.ex1 result,
                              PairResult.ex2 result, entry :: entries) ]
        | _ => all_stats t
        end in
      mkTally (successful t + 1) (skipped t) (errors t) processed rows
  | SKIPPED =>
      mkTally (successful t) (skipped t + 1) (errors t) processed (all_stats t)
  end.

(** The two nested loops, over the batches in the order the pool yields
    them. *)
Definition tally_batches (batches : list (list PairResult.t)) : tally :=
  fold_left (fun t batch => fold_left tally_result batch t) batches
            (mkTally 0 0 0 0 []).

(** [total_pairs], as the task loop adds it up. *)
Definition total_pairs_of (symbols_to_analyze : list (string * list string)) : Z :=
  fold_left (fun total entry =>
               total + Z.of_nat (length (combinations2 (snd entry))))
            symbols_to_analyze 0.

(** A data directory with frames for three exchanges, one of them empty,
    and a fourth whose load fails. *)
Definition sample_load (data_path exchange symbol : string)
           (start_date end_date : option string) : result (option (list Tick.t)) :=
  if String.eqb exchange "Binance" then Ok (Some swing_frame)
  else if String.eqb exchange "Bybit" then Ok (Some flat_frame)
  else if String.eqb exchange "OKX" then Ok (Some [])
  else if String.eqb exchange "Gate" then Raise TypeError
  else Ok None.

Definition sample_args (exchanges : list string) : batch_args :=
  ("SYM/USDT"%string, exchanges, "data"%string, None, None, None, default_zero_threshold).

(** A result whose [stats], when its status is [SUCCESS], is a dictionary
    with at least one entry (a truthy one). *)
Definition has_rows (r : PairResult.t) : Prop :=
  PairResult.status_ r = SUCCESS ->
  exists entry entries, PairResult.stats r = Some (entry :: entries).

(** One task of [run_ultra_fast_analysis] ran to the batch [batch]. *)
Definition batch_of (load : string -> string -> string -> option string -> option string
                            -> result (option (list Tick.t)))
           (data_path : string) (start_date end_date : option string)
           (thresholds : option (list float)) (zero_threshold : float)
           (entry : string * list string) (batch : list PairResult.t) : Prop :=
  exists completion,
    Permutation completion (snd entry)
    /\ analyze_symbol_batch load completion
         (fst entry, snd entry, data_path, start_date, end_date, thresholds,
          zero_threshold) = inr batch.

(* ================================================================== *)
(** ** Python strings *)

(** [s.startswith(p)]. *)
Definition startswith (p s : string) : bool := String.prefix p s.

(** [sub in s], for strings. *)
Fixpoint contains (sub s : string) : bool :=
  String.prefix sub s
  || match s with
     | EmptyString => false
     | String _ rest => contains sub rest
     end.

(** [s.replace(old, new)] for a non-empty [old]: the occurrences of [old]
    are replaced from left to right, the search resuming after each
    occurrence replaced.  [skip] counts the characters of such an occurrence
    still to pass over. *)
Fixpoint replace_from (old new : string) (skip : nat) (s : string) : string :=
  match s with
  | EmptyString => EmptyString
  | String c rest =>
      match skip with
      | S k => replace_from old new k rest
      | O =>
          if String.prefix old s
          then new ++ replace_from old new (String.length old - 1) rest
          else String c (replace_from old new 0 rest)
      end
  end.

Definition replace (old new s : string) : string := replace_from old new 0 s.

(** [s.split(sep)] for a separator of one character. *)
Fixpoint split (sep : ascii) (s : string) : list string :=
  match s with
  | EmptyString => [EmptyString]
  | String c rest =>
      if Ascii.eqb c sep then EmptyString :: split sep rest
      else match split sep rest with
           | piece :: pieces => String c piece :: pieces
           | [] => [String c EmptyString]
           end
  end.

(* ================================================================== *)
(** ** [lib/discovery.py] and the directory search of [lib/data_loader.py] *)

(** The symbol that [discover_data] derives from the part of a directory
    name after [symbol=]. *)
Definition symbol_name_of (raw_symbol : string) : string :=
  if contains "_USDT" raw_symbol then replace "_USDT" "/USDT" raw_symbol
  else if contains "_USDC" raw_symbol then replace "_USDC" "/USDC" raw_symbol
  else replace "#" "/" raw_symbol.

(** The directory names [load_exchange_symbol_data] tries for a symbol, in
    this order. *)
Definition symbol_formats (symbol : string) : list string :=
  [ replace "/" "_" symbol;
    replace "/" "#" symbol;
    replace "_" "" (replace "/" "" symbol) ].

(** The search for [symbol_path] among the entries of the exchange
    directory, given by their names: the first candidate that exists. *)
Definition find_symbol_path (entries : list string) (symbol : string) : option string :=
  find (fun candidate => existsb (String.eqb candidate) entries)
       (map (fun fmt => "symbol=" ++ fmt)%string (symbol_formats symbol)).

(** An entry of a directory, as [os.scandir] yields it. *)
Module DirEntry.
Record t : Type := mk { name : string; is_dir : bool }.
End DirEntry.

(** The data directory: its entries in the order [os.scandir] yields them,
    each with the entries of the directory below it. *)
Definition data_tree : Type := list (DirEntry.t * list DirEntry.t).

(** [for x in items: st = body(x, st)], stopping at the first raise. *)
Fixpoint for_each {A S : Type} (body : A -> S -> result S) (items : list A) (st : S)
  : result S :=
  match items with
  | [] => Ok st
  | x :: rest => bind (body x st) (for_each body rest)
  end.

(** [s.add(x)] on a set of strings, kept as a list without repetition. *)
Definition set_add (x : string) (s : list string) : list string :=
  if existsb (String.eqb x) s then s else s ++ [x].

(** [symbol_map[symbol_name].add(exchange_name)] on the
    [defaultdict(set)]. *)
Definition symbol_map_add (symbol_name exchange_name : string)
           (symbol_map : list (string * list string)) : list (string * list string) :=
  let exchanges :=
    match dict_get symbol_map symbol_name with
    | Some e => e
    | None => []
    end in
  dict_set symbol_map symbol_name (set_add exchange_name exchanges).

(** The body of the inner loop of [discover_data]. *)
Definition scan_symbol_item (exchange_name : string) (symbol_item : DirEntry.t)
           (symbol_map : list (string * list string))
  : result (list (string * list string)) :=
  if DirEntry.is_dir symbol_item && startswith "symbol=" (DirEntry.name symbol_item)
  then
    raw_symbol <- getitem (split "=" (DirEntry.name symbol_item)) 1 ;;
    Ok (symbol_map_add (symbol_name_of raw_symbol) exchange_name symbol_map)
  else Ok symbol_map.

(** The body of the outer loop. *)
Definition scan_item (item : DirEntry.t * list DirEntry.t)
           (symbol_map : list (string * list string))
  : result (list (string * list string)) :=
  if DirEntry.is_dir (fst item) && startswith "exchange=" (DirEntry.name (fst item))
  then
    exchange_name <- getitem (split "=" (DirEntry.name (fst item))) 1 ;;
    for_each (scan_symbol_item exchange_name) (snd item) symbol_map
  else Ok symbol_map.

(** [discover_data(data_path)]; [None] is a path that does not exist. *)
Definition discover_data (data_path : option data_tree)
  : result (list (string * list string)) :=
  match data_path with
  | None => Ok []
  | Some items =>
      symbol_map <- for_each scan_item items [] ;;
      Ok (filter (fun entry => (2 <=? length (snd entry))%nat) symbol_map)
  end.

(** The part after the first [=] of the name of a directory whose name
    starts with [prefix]. *)
Definition entry_label (prefix : string) (e : DirEntry.t) : option string :=
  if DirEntry.is_dir e && startswith prefix (DirEntry.name e)
  then nth_error (split "=" (DirEntry.name e)) 1
  else None.

(** The data directory holds a directory for [symbol] below a directory
    for [exchange]. *)
Definition seen (items : data_tree) (symbol exchange : string) : Prop :=
  exists item children symbol_item raw_symbol,
    In (item, children) items
    /\ entry_label "exchange=" item = Some exchange
    /\ In symbol_item children
    /\ entry_label "symbol=" symbol_item = Some raw_symbol
    /\ symbol = symbol_name_of raw_symbol.

(** The pairs (symbol, exchange) in the order the two loops meet them. *)
Definition scanned_pairs (items : data_tree) : list (string * string) :=
  flat_map (fun item =>
              match entry_label "exchange=" (fst item) with
              | Some exchange =>
                  flat_map (fun symbol_item =>
                              match entry_label "symbol=" symbol_item with
                              | Some raw_symbol => [(symbol_name_of raw_symbol, exchange)]
                              | None => []
                              end) (snd item)
              | None => []
              end) items.

(** ** [run_ultra_fast_analysis]: from the discovered symbols to the tasks *)

(** The loop that keeps, for each symbol, the exchanges named in
    [exchanges_filter], and the symbol when at least two are left. *)
Definition filter_exchanges (exchanges_filter : list string)
           (symbols_to_analyze : list (string * list string))
  : list (string * list string) :=
  fold_left
    (fun filtered_symbols entry =>
       let filtered_exchanges :=
         filter (fun exchange => existsb (String.eqb exchange) exchanges_filter)
                (snd entry) in
       if (2 <=? length filtered_exchanges)%nat
       then dict_set filtered_symbols (fst entry) filtered_exchanges
       else filtered_symbols)
    symbols_to_analyze [].

(** The tasks and [total_pairs] prepared from a dictionary of symbols. *)
Definition prepare_batches (data_path : string) (start_date end_date : option string)
           (thresholds : option (list float)) (zero_threshold : float)
           (symbols_to_analyze : list (string * list string)) : list batch_args * Z :=
  (map (fun entry =>
          (fst entry, snd entry, data_path, start_date, end_date, thresholds,
           zero_threshold))
       symbols_to_analyze,
   total_pairs_of symbols_to_analyze).

(** [run_ultra_fast_analysis] up to the start of the pool, on the
    dictionary [discover_data] returned: [None] where the function returns
    early, the tasks and [total_pairs] otherwise. *)
Definition plan_batches (symbols_to_analyze : list (string * list string))
           (exchanges_filter : option (list string))
           (data_path : string) (start_date end_date : option string)
           (thresholds : option (list float)) (zero_threshold : float)
  : option (list batch_args * Z) :=
  match symbols_to_analyze with
  | [] => None
  | _ :: _ =>
      match exchanges_filter with
      | Some (name :: names) =>
          match filter_exchanges (name :: names) symbols_to_analyze with
          | [] => None
          | entry :: entries =>
              Some (prepare_batches data_path start_date end_date thresholds
                                    zero_threshold (entry :: entries))
          end
      | _ =>
          Some (prepare_batches data_path start_date end_date thresholds zero_threshold
                                symbols_to_analyze)
      end
  end.

(** An exchange passes the filter: no filter is in force for [None] and for
    the empty list. *)
Definition allowed (exchanges_filter : option (list string)) (exchange : string) : Prop :=
  match exchanges_filter with
  | Some (name :: names) => In exchange (name :: names)
  | _ => True
  end.

(** The symbol of a task. *)
Definition task_symbol (task : batch_args) : string :=
  let '(symbol, _, _, _, _, _, _) := task in symbol.

(** The exchanges of a task. *)
Definition task_exchanges (task : batch_args) : list string :=
  let '(_, exchanges, _, _, _, _, _) := task in exchanges.

(** A data directory with three exchanges, a file among the directories
    and the two spellings of a symbol directory. *)
Definition sample_tree : data_tree :=
  [ (DirEntry.mk "exchange=Binance" true,
     [ DirEntry.mk "symbol=BTC_USDT" true;
       DirEntry.mk "symbol=ETH#USDT" true;
       DirEntry.mk "symbol=DOGE_USDT" false ]);
    (DirEntry.mk "exchange=Bybit" true,
     [ DirEntry.mk "symbol=BTC_USDT" true;
       DirEntry.mk "symbol=ETH_USDT" true;
       DirEntry.mk "symbol=SOL_USDC" true ]);
    (DirEntry.mk "exchange=Kraken" false, []);
    (DirEntry.mk "logs" true, [ DirEntry.mk "symbol=BTC_USDT" true ]);
    (DirEntry.mk "exchange=OKX" true,
     [ DirEntry.mk "symbol=BTC#USDT" true;
       DirEntry.mk "notes.txt" false ]) ]%string.

(* ================================================================== *)
(** ** [lib/data_loader.py]: the dates and the frame *)

(** The truth value of an optional string: [None] and the empty string are
    falsy. *)
Definition str_truthy (s : option string) : bool :=
  match s with
  | None => false
  | Some EmptyString => false
  | Some (String _ _) => true
  end.

(** [(not start_date or date_str >= start_date) and
     (not end_date or date_str <= end_date)]. *)
Definition date_selected (start_date end_date : option string) (date_str : string) : bool :=
  (negb (str_truthy start_date)
   || match start_date with
      | Some s => String.leb s date_str
      | None => false
      end)
  && (negb (str_truthy end_date)
      || match end_date with
         | Some e => String.leb date_str e
         | None => false
         end).

(** The loop that fills [available_dates] from the entries of the symbol
    directory, when a date filter is given. *)
Definition available_dates (entries : list DirEntry.t) (start_date end_date : option string)
  : result (list string) :=
  for_each
    (fun item dates =>
       if DirEntry.is_dir item && startswith "date=" (DirEntry.name item)
       then
         date_str <- getitem (split "=" (DirEntry.name item)) 1 ;;
         if date_selected start_date end_date date_str
         then Ok (dates ++ [date_str])
         else Ok dates
       else Ok dates)
    entries [].

(** The dates that [run_all_ultra.py] passes on: [--today] before [--date],
    [--date] before [--start-date] and [--end-date], the command line before
    the configuration.  [today_str] is the date of the day. *)
Definition select_dates (today : bool) (today_str : string)
           (date start_date end_date config_start config_end : option string)
  : option string * option string :=
  if today then (Some today_str, Some today_str)
  else if str_truthy date then (date, date)
  else (if str_truthy start_date then start_date else config_start,
        if str_truthy end_date then end_date else config_end).

(** [bestBid.is_not_null() & bestAsk.is_not_null()] on a row. *)
Definition prices_not_null (r : Tick.t) : bool :=
  match Tick.bestBid r, Tick.bestAsk r with
  | Some _, Some _ => true
  | _, _ => false
  end.

(** The frame returned for the rows of the scanned files, after the cast of
    the prices: the rows without a null price, sorted by timestamp, or [None]
    when no row is left.  [sort_by_timestamp] is the [sort('timestamp')] of
    Polars, which leaves open how rows of equal timestamp are arranged. *)
Definition collect_frame (sort_by_timestamp : list Tick.t -> list Tick.t)
           (scanned : list Tick.t) : option (list Tick.t) :=
  let df := sort_by_timestamp (filter prices_not_null scanned) in
  match df with
  | [] => None
  | _ :: _ => Some df
  end.

(** What [sort('timestamp')] guarantees. *)
Definition sorts_by_timestamp (sort : list Tick.t -> list Tick.t) : Prop :=
  forall l, Permutation (sort l) l /\ StronglySorted time_le (sort l).

(** A sort by timestamp: insertion from the right. *)
Fixpoint insert_by_timestamp (r : Tick.t) (l : list Tick.t) : list Tick.t :=
  match l with
  | [] => [r]
  | x :: l' =>
      if Tick.timestamp r <=? Tick.timestamp x then r :: l
      else x :: insert_by_timestamp r l'
  end.

Definition insertion_sort (l : list Tick.t) : list Tick.t :=
  fold_right insert_by_timestamp [] l.

(** Rows as scanned: out of order, some without a price. *)
Definition scanned_rows (bid : float) : list Tick.t :=
  [ Tick.mk (2 * minute) (Some bid) (Some bid);
    Tick.mk 0 (Some bid) None;
    Tick.mk minute (Some bid) (Some bid);
    Tick.mk (3 * minute) None None ].

(** The entries of a symbol directory. *)
Definition sample_dates : list DirEntry.t :=
  [ DirEntry.mk "date=2025-11-03" true;
    DirEntry.mk "date=2025-11-01" true;
    DirEntry.mk "date=2025-11-02" false;
    DirEntry.mk "date=2025-11-04" true;
    DirEntry.mk "_SUCCESS" false ]%string.

(** The bound [start'] admits every date that the bound [start] admits:
    it is no bound at all, or a string at or before [start], itself a
    bound. *)
Definition looser_start (start' start : option string) : Prop :=
  str_truthy start' = false
  \/ exists a b, start' = Some a /\ start = Some b
                 /\ str_truthy start = true /\ String.leb a b = true.

Definition looser_end (end' end_ : option string) : Prop :=
  str_truthy end' = false
  \/ exists a b, end' = Some a /\ end_ = Some b
                 /\ str_truthy end_ = true /\ String.leb b a = true.

(** An anchor frame that stays one percent above [flat_frame]. *)
Definition premium_frame : list Tick.t := frame_of [101; 101; 101; 101]%float.

(** An anchor frame that falls from above [flat_frame] to below it. *)
Definition falling_frame : list Tick.t := frame_of [101; 100; 99]%float.

(** Secondary frames with a null bid, in the middle and at the end. *)
Definition null_mid_frame : list Tick.t :=
  [ Tick.mk 0 (Some 100%float) (Some 100.01%float);
    Tick.mk minute None (Some 100.01%float);
    Tick.mk (2 * minute) (Some 100%float) (Some 100.01%float) ].

Definition null_last_frame : list Tick.t :=
  [ Tick.mk 0 (Some 100%float) (Some 100.01%float);
    Tick.mk minute (Some 100%float) (Some 100.01%float);
    Tick.mk (2 * minute) None (Some 100.01%float) ].

(* ================================================================== *)
(** * Properties *)

(** ** Binary64 facts the analysis relies on *)

Section FloatFacts.

Lemma SFcompare_refl_finite (s : bool) (m : positive) (e : Z) :
  SFcompare (S754_finite s m e) (S754_finite s m e) = Some Eq.
Proof.
  cbn. rewrite Z.compare_refl, Pos.compare_cont_refl. destruct s; reflexivity.
Qed.

Lemma float_shape_total (x : float) : float_shape x.
Proof.
  pose proof (SF2Prim_Prim2SF x) as Hx.
  assert (Hz : PrimFloat.is_zero x = SFeqb (Prim2SF x) (S754_zero false))
    by (unfold PrimFloat.is_zero; rewrite FloatAxioms.eqb_spec; reflexivity).
  assert (Hn : PrimFloat.is_nan x = negb (SFeqb (Prim2SF x) (Prim2SF x)))
    by (unfold PrimFloat.is_nan; rewrite FloatAxioms.eqb_spec; reflexivity).
  assert (Hl : (x <? 0)%float = SFltb (Prim2SF x) (S754_zero false))
    by (rewrite FloatAxioms.ltb_spec; reflexivity).
  assert (Hg : (0 <? x)%float = SFltb (S754_zero false) (Prim2SF x))
    by (rewrite FloatAxioms.ltb_spec; reflexivity).
  destruct (Prim2SF x) as [s | s | | s m e].
  - destruct s; [apply shape_nzero | apply shape_pzero]; rewrite <- Hx; reflexivity.
  - destruct s; [apply shape_neg | apply shape_pos];
      rewrite ?Hz, ?Hn, ?Hl, ?Hg; reflexivity.
  - apply shape_nan. rewrite <- Hx. reflexivity.
  - unfold SFeqb in Hn. rewrite SFcompare_refl_finite in Hn.
    destruct s; [apply shape_neg | apply shape_pos];
      rewrite ?Hz, ?Hn, ?Hl, ?Hg; reflexivity.
Qed.

(** The product of two signs is negative exactly on a true sign flip. *)
Lemma sign_mul_neg (c p : float) :
  (Polars.sign c * Polars.sign p <? 0)%float = sign_flip c p.
Proof.
  unfold sign_flip.
  destruct (float_shape_total c) as [-> | -> | -> | Hz Hn Hl Hg | Hz Hn Hl Hg];
    destruct (float_shape_total p) as [-> | -> | -> | Hz' Hn' Hl' Hg' | Hz' Hn' Hl' Hg'];
    unfold Polars.sign;
    rewrite ?Hz, ?Hn, ?Hl, ?Hg, ?Hz', ?Hn', ?Hl', ?Hg';
    vm_compute; reflexivity.
Qed.

Lemma is_zero_cases (x : float) :
  PrimFloat.is_zero x = true -> x = 0%float \/ x = (-0)%float.
Proof.
  intros H.
  destruct (float_shape_total x) as [-> | -> | -> | Hz _ _ _ | Hz _ _ _];
    auto; try congruence.
  vm_compute in H. discriminate.
Qed.

Lemma positive_not_zero (x : float) :
  (0 <? x)%float = true -> PrimFloat.is_zero x = false.
Proof.
  intros H.
  destruct (float_shape_total x) as [-> | -> | -> | Hz _ _ _ | _ _ _ Hg];
    try (vm_compute in H; discriminate); congruence.
Qed.

Lemma div_eucl_mul (a b : Z) : 0 < b -> Z.div_eucl (a * b) b = (a, 0).
Proof.
  intros Hb.
  pose proof (Z.div_mul a b ltac:(lia)) as Hq.
  pose proof (Z.mod_mul a b ltac:(lia)) as Hr.
  unfold Z.div, Z.modulo in Hq, Hr.
  destruct (Z.div_eucl (a * b) b) as [q r]. congruence.
Qed.

Lemma new_location_zero (n : Z) : new_location n 0 = loc_Exact.
Proof. unfold new_location. destruct (Z.even n); reflexivity. Qed.

Lemma fexp_eq (k : Z) : fexp prec emax k = Z.max (k - 53) (-1074).
Proof. reflexivity. Qed.

(** *** [x / x] *)

Lemma SFdiv_self (s : bool) (m : positive) (e : Z) :
  SFdiv prec emax (S754_finite s m e) (S754_finite s m e) = Prim2SF 1.
Proof.
  unfold SFdiv, SFdiv_core_binary.
  rewrite !Z.sub_diag.
  change (Z.min (fexp prec emax 0) 0) with (-53).
  change (0 - -53) with 53.
  cbv beta iota zeta.
  rewrite Z.shiftl_mul_pow2 by lia.
  rewrite Z.mul_comm, div_eucl_mul by lia.
  rewrite new_location_zero, xorb_nilpotent.
  vm_compute. reflexivity.
Qed.

Lemma finite_nonzero_shape (x : float) :
  finite_nonzero x = true -> exists s m e, Prim2SF x = S754_finite s m e.
Proof.
  unfold finite_nonzero, PrimFloat.is_finite, PrimFloat.is_nan,
    PrimFloat.is_infinity, PrimFloat.is_zero.
  rewrite !FloatAxioms.eqb_spec, FloatAxioms.abs_spec.
  destruct (Prim2SF x) as [s | s | | s m e].
  - destruct s; vm_compute; discriminate.
  - destruct s; vm_compute; discriminate.
  - vm_compute; discriminate.
  - intros _. eauto.
Qed.

(** A finite nonzero float divided by itself is exactly one. *)
Lemma div_self (x : float) : finite_nonzero x = true -> (x / x)%float = 1%float.
Proof.
  intros H. destruct (finite_nonzero_shape x H) as (s & m & e & Hx).
  apply Prim2SF_inj. rewrite FloatAxioms.div_spec, Hx. apply SFdiv_self.
Qed.

(** *** [x / 1.0] *)

(** Rounding a mantissa that is already canonical leaves it alone. *)
Lemma binary_round_aux_canonical (sx : bool) (m : positive) (e : Z) :
  fexp prec emax (Zpos (digits2_pos m) + e) = e ->
  e <= 971 ->
  binary_round_aux prec emax sx (Zpos m) e loc_Exact = S754_finite sx m e.
Proof.
  intros Hc He.
  unfold binary_round_aux, shr_fexp. cbn [Zdigits2 shr_record_of_loc].
  rewrite Hc, Z.sub_diag. cbn [shr shr_m loc_of_shr_record round_nearest_even Zdigits2].
  rewrite Hc, Z.sub_diag. cbn [shr shr_m shr_record_of_loc].
  change (emax - prec) with 971.
  destruct (Z.leb_spec e 971); [reflexivity | lia].
Qed.

(** The same for twice a canonical mantissa, one exponent lower. *)
Lemma binary_round_aux_double (sx : bool) (m : positive) (e : Z) :
  fexp prec emax (Zpos (digits2_pos m) + e) = e ->
  e <= 971 ->
  binary_round_aux prec emax sx (Zpos m~0) (e - 1) loc_Exact = S754_finite sx m e.
Proof.
  intros Hc He.
  unfold binary_round_aux, shr_fexp at 1. cbn [Zdigits2 digits2_pos shr_record_of_loc].
  replace (Zpos (Pos.succ (digits2_pos m)) + (e - 1)) with (Zpos (digits2_pos m) + e) by lia.
  rewrite Hc. replace (e - (e - 1)) with 1 by lia.
  cbn [shr iter_pos shr_1 orb shr_m loc_of_shr_record round_nearest_even].
  replace (e - 1 + 1) with e by lia.
  unfold shr_fexp. cbn [Zdigits2 shr_record_of_loc].
  rewrite Hc, Z.sub_diag. cbn [shr shr_m].
  change (emax - prec) with 971.
  destruct (Z.leb_spec e 971); [reflexivity | lia].
Qed.

Lemma SFdiv_one (s : bool) (m : positive) (e : Z) :
  valid_binary (S754_finite s m e) = true ->
  SFdiv prec emax (S754_finite s m e) (Prim2SF 1) = S754_finite s m e.
Proof.
  intros Hv. cbn [SpecFloat.valid_binary] in Hv. unfold bounded, canonical_mantissa in Hv.
  apply andb_true_iff in Hv. destruct Hv as [Hc He].
  apply Z.eqb_eq in Hc. apply Z.leb_le in He. change (emax - prec) with 971 in He.
  change (Prim2SF 1) with (S754_finite false 4503599627370496 (-52)).
  unfold SFdiv, SFdiv_core_binary. cbn [Zdigits2].
  change (Zpos (digits2_pos 4503599627370496)) with 53.
  rewrite xorb_false_r.
  pose proof Hc as Hc'. rewrite fexp_eq in Hc'.
  destruct (Z.eq_dec e (-1074)) as [Hmin | Hmin].
  - replace (Z.min (fexp prec emax (Zpos (digits2_pos m) + e - (53 + -52))) (e - -52))
      with e by (rewrite fexp_eq; lia).
    replace (e - -52 - e) with 52 by lia.
    cbv beta iota zeta.
    rewrite Z.shiftl_mul_pow2 by lia.
    rewrite div_eucl_mul by lia.
    rewrite new_location_zero.
    apply binary_round_aux_canonical; assumption.
  - replace (Z.min (fexp prec emax (Zpos (digits2_pos m) + e - (53 + -52))) (e - -52))
      with (e - 1) by (rewrite fexp_eq; lia).
    replace (e - -52 - (e - 1)) with 53 by lia.
    cbv beta iota zeta.
    rewrite Z.shiftl_mul_pow2 by lia.
    replace (Zpos m * 2 ^ 53) with (Zpos m~0 * 4503599627370496) by lia.
    rewrite div_eucl_mul by lia.
    rewrite new_location_zero.
    apply binary_round_aux_double; assumption.
Qed.

(** Dividing by [1.0] changes nothing, whatever the float. *)
Lemma div_one (x : float) : (x / 1)%float = x.
Proof.
  apply Prim2SF_inj. rewrite FloatAxioms.div_spec. unfold SF64div.
  pose proof (Prim2SF_valid x) as Hv.
  destruct (Prim2SF x) as [s | s | | s m e].
  - change (Prim2SF 1) with (S754_finite false 4503599627370496 (-52)).
    cbn. rewrite xorb_false_r. reflexivity.
  - change (Prim2SF 1) with (S754_finite false 4503599627370496 (-52)).
    cbn. rewrite xorb_false_r. reflexivity.
  - reflexivity.
  - apply SFdiv_one. exact Hv.
Qed.

(** *** [float(n)] for a positive count *)

Lemma iter_pos_nat {A : Type} (f : A -> A) (n : positive) (x : A) :
  iter_pos f n x = Nat.iter (Pos.to_nat n) f x.
Proof.
  revert x. induction n as [n IH | n IH |]; intros x; cbn [iter_pos].
  - rewrite !IH, Pos2Nat.inj_xI, <- Nat.iter_add, <- Nat.iter_succ_r.
    f_equal. lia.
  - rewrite !IH, Pos2Nat.inj_xO, <- Nat.iter_add. f_equal. lia.
  - reflexivity.
Qed.

(** Fewer right shifts than the mantissa has digits leave it positive. *)
Lemma shr_1_iter_pos :
  forall (k : nat) (m : positive) (r s : bool),
    (k < Pos.to_nat (digits2_pos m))%nat ->
    exists m' r' s',
      Nat.iter k shr_1 (Build_shr_record (Zpos m) r s) = Build_shr_record (Zpos m') r' s'.
Proof.
  induction k as [| k IH]; intros m r s Hk; [cbn; eauto |].
  rewrite Nat.iter_succ_r.
  destruct m as [m | m |]; cbn [shr_1 digits2_pos] in *.
  - apply IH. rewrite Pos2Nat.inj_succ in Hk. lia.
  - apply IH. rewrite Pos2Nat.inj_succ in Hk. lia.
  - change (Pos.to_nat 1) with 1%nat in Hk. lia.
Qed.

Lemma shr_fexp_pos (m : positive) (e : Z) (l : location) :
  -1074 <= e ->
  exists m' r' s' e',
    shr_fexp prec emax (Zpos m) e l = (Build_shr_record (Zpos m') r' s', e')
    /\ -1074 <= e'.
Proof.
  intros He. unfold shr_fexp. cbn [Zdigits2].
  assert (Hrec : exists r s, shr_record_of_loc (Zpos m) l = Build_shr_record (Zpos m) r s)
    by (destruct l as [| []]; cbn; eauto).
  destruct Hrec as (r & s & ->).
  rewrite fexp_eq.
  destruct (Z.max (Zpos (digits2_pos m) + e - 53) (-1074) - e) as [| p | p] eqn:Hn;
    cbn [shr]; eauto 8.
  rewrite iter_pos_nat.
  destruct (shr_1_iter_pos (Pos.to_nat p) m r s) as (m' & r' & s' & ->).
  - apply Pos2Nat.inj_lt. lia.
  - exists m', r', s', (e + Zpos p). split; [reflexivity | lia].
Qed.

Lemma round_nearest_even_pos (m : positive) (l : location) :
  exists m', round_nearest_even (Zpos m) l = Zpos m'.
Proof.
  destruct l as [| []]; cbn [round_nearest_even];
    try destruct (Z.even (Zpos m)); cbn; eauto.
Qed.

(** Away from the underflow range, rounding a positive mantissa gives a
    nonzero number of the sign asked for. *)
Lemma binary_round_aux_pos (sx : bool) (m : positive) (e : Z) (l : location) :
  -1074 <= e ->
  (exists m' e', binary_round_aux prec emax sx (Zpos m) e l = S754_finite sx m' e')
  \/ binary_round_aux prec emax sx (Zpos m) e l = S754_infinity sx.
Proof.
  intros He. unfold binary_round_aux.
  destruct (shr_fexp_pos m e l He) as (m1 & r1 & s1 & e1 & -> & He1).
  cbn [shr_m].
  destruct (round_nearest_even_pos m1 (loc_of_shr_record (Build_shr_record (Zpos m1) r1 s1)))
    as (m2 & ->).
  destruct (shr_fexp_pos m2 e1 loc_Exact He1) as (m3 & r3 & s3 & e3 & -> & _).
  cbn [shr_m]. destruct (e3 <=? emax - prec); eauto.
Qed.

Lemma float_of_int_pos (z : Z) :
  0 < z < 2 ^ 63 -> strictly_positive (Prim2SF (float_of_int z)).
Proof.
  intros Hz. destruct z as [| p | p]; try lia.
  unfold float_of_int. rewrite of_uint63_spec, Uint63.of_Z_spec.
  rewrite Z.mod_small by (change wB with (2 ^ 63); lia).
  unfold binary_normalize, binary_round, shl_align.
  rewrite fexp_eq.
  destruct (Z.max (Zpos (digits2_pos p) + 0 - 53) (-1074) - 0) as [| d | d] eqn:Hd;
    apply binary_round_aux_pos; lia.
Qed.

Lemma zero_div_pos (y : float) :
  strictly_positive (Prim2SF y) -> (0 / y)%float = 0%float.
Proof.
  intros Hy. apply Prim2SF_inj. rewrite FloatAxioms.div_spec.
  change (Prim2SF 0) with (S754_zero false).
  destruct Hy as [(m & e & ->) | ->]; reflexivity.
Qed.

Lemma strictly_positive_not_zero (y : float) :
  strictly_positive (Prim2SF y) -> PrimFloat.is_zero y = false.
Proof.
  intros Hy. unfold PrimFloat.is_zero. rewrite FloatAxioms.eqb_spec.
  destruct Hy as [(m & e & ->) | ->]; reflexivity.
Qed.

(** A float with a smaller one below it is not NaN. *)
Lemma ltb_not_nan (a b : float) :
  (a <? b)%float = true -> PrimFloat.is_nan b = false.
Proof.
  intros H. unfold PrimFloat.is_nan.
  rewrite FloatAxioms.ltb_spec in H. rewrite FloatAxioms.eqb_spec.
  unfold SFltb in H. unfold SFeqb.
  destruct (Prim2SF b) as [sb | sb | | sb mb eb].
  - reflexivity.
  - destruct sb; reflexivity.
  - destruct (Prim2SF a); discriminate H.
  - rewrite SFcompare_refl_finite. reflexivity.
Qed.

(** On a number above the threshold the column comparison and the
    comparison of the floats agree. *)
Lemma gt_of_ltb (threshold x : float) :
  (threshold <? x)%float = true -> Polars.gt x threshold = true.
Proof.
  intros H. unfold Polars.gt. rewrite (ltb_not_nan threshold x H). exact H.
Qed.

End FloatFacts.

(** ** The scan of [count_complete_cycles] *)

Section CycleScan.

Lemma getitem_app_here {A : Type} (pre : list A) (x : A) (post : list A) :
  getitem (pre ++ x :: post) (length pre) = Ok x.
Proof.
  unfold getitem. rewrite nth_error_app2 by lia.
  rewrite Nat.sub_diag. reflexivity.
Qed.

(** The index-driven loop, started in the middle of the two arrays, is the
    fold over the remaining rows. *)
Lemma for_range_scan_rows :
  forall (s : list (option bool * option bool)) (pa pn : bool_series) (st : scan_state),
    length pa = length pn ->
    for_range (cycle_body (pa ++ map fst s) (pn ++ map snd s))
              (seq (length pa) (length s)) st
    = Ok (scan_rows (rows_of s) st).
Proof.
  induction s as [| [a n] s IH]; intros pa pn st Hlen; [reflexivity |].
  cbn [length seq for_range map fst snd].
  unfold cycle_body at 1. rewrite getitem_app_here. cbn [bind].
  assert (Hshift : forall (x : option bool) (p q : bool_series),
             p ++ x :: q = (p ++ [x]) ++ q)
    by (intros; rewrite <- app_assoc; reflexivity).
  assert (Hnext : forall st',
             for_range (cycle_body (pa ++ a :: map fst s) (pn ++ n :: map snd s))
                       (seq (S (length pa)) (length s)) st'
             = Ok (scan_rows (rows_of s) st')).
  { intros st'. rewrite (Hshift a pa), (Hshift n pn).
    replace (S (length pa)) with (length (pa ++ [a]))
      by (rewrite length_app; simpl; lia).
    apply IH. rewrite !length_app. simpl. lia. }
  unfold scan_rows, rows_of in *. cbn [map fold_left fst snd].
  unfold scan_row at 2. cbn [fst snd].
  destruct (truthy a) eqn:Ha.
  - cbn [bind]. apply Hnext.
  - assert (Hn : getitem (pn ++ n :: map snd s) (length pa) = Ok n)
      by (rewrite Hlen; apply getitem_app_here).
    rewrite Hn. cbn [bind].
    destruct (truthy n && was_above st); cbn [bind]; apply Hnext.
Qed.

Lemma count_complete_cycles_rows (s : list (option bool * option bool)) :
  count_complete_cycles (map fst s) (map snd s)
  = Ok (cycles (scan_rows (rows_of s) (mkScan 0 false))).
Proof.
  unfold count_complete_cycles.
  rewrite length_map.
  pose proof (for_range_scan_rows s [] [] (mkScan 0 false) eq_refl) as H.
  cbn [app length] in H. cbv zeta. rewrite H. reflexivity.
Qed.

(** The loop variables are the machine: [was_above] is [ARMED]. *)
Lemma scan_rows_machine :
  forall (rows : list (bool * bool)) (s : machine_state) (c : Z),
    let st := scan_rows rows (mkScan c (armed s)) in
    let m := fold_left machine_step rows (s, c) in
    cycles st = snd m /\ was_above st = armed (fst m).
Proof.
  induction rows as [| [a n] rows IH]; intros s c; [split; reflexivity |].
  cbn zeta in *. unfold scan_rows in *. cbn [fold_left].
  unfold scan_row at 2 4, machine_step at 2 4. cbn [fst snd cycles was_above].
  destruct a.
  - apply (IH ARMED c).
  - destruct s; cbn [armed].
    + rewrite andb_false_r. apply (IH IDLE c).
    + rewrite andb_true_r. destruct n.
      * apply (IH IDLE (c + 1)).
      * apply (IH ARMED c).
Qed.

Lemma scan_rows_app (r1 r2 : list (bool * bool)) (st : scan_state) :
  scan_rows (r1 ++ r2) st = scan_rows r2 (scan_rows r1 st).
Proof. unfold scan_rows. apply fold_left_app. Qed.

(** Rows without a neutral flag never count. *)
Lemma scan_rows_no_neutral :
  forall (rows : list (bool * bool)) (st : scan_state),
    Forall (fun r => snd r = false) rows ->
    cycles (scan_rows rows st) = cycles st.
Proof.
  induction rows as [| [a n] rows IH]; intros st Hall; [reflexivity |].
  inversion Hall as [| ? ? Hn Hrest]; subst. cbn [snd] in Hn. subst n.
  unfold scan_rows in *. cbn [fold_left]. rewrite IH by assumption.
  unfold scan_row. cbn [fst snd]. destruct a; reflexivity.
Qed.

Lemma scan_rows_cycles_mono :
  forall (rows : list (bool * bool)) (st : scan_state),
    cycles st <= cycles (scan_rows rows st).
Proof.
  induction rows as [| [a n] rows IH]; intros st; [cbn; lia |].
  unfold scan_rows in *. cbn [fold_left].
  etransitivity; [| apply IH].
  unfold scan_row. cbn [fst snd].
  destruct a; [cbn; lia |]. destruct (n && was_above st); cbn; lia.
Qed.

(** Every counted cycle is paid for by a run of [above] that started
    before it: with [prev] the flag of the row before [rows], and an armed
    machine whenever that row was above. *)
Lemma scan_rows_runs_bound :
  forall (rows : list (bool * bool)) (prev : bool) (st : scan_state),
    (prev = true -> was_above st = true) ->
    cycles (scan_rows rows st)
    <= cycles st + true_runs_from prev (map fst rows)
       + (if was_above st then 1 else 0).
Proof.
  induction rows as [| [a n] rows IH]; intros prev st Hinv.
  - cbn. destruct (was_above st); lia.
  - unfold scan_rows in *. cbn [fold_left map fst true_runs_from].
    unfold scan_row at 2. cbn [fst snd].
    destruct a.
    + specialize (IH true (mkScan (cycles st) true) (fun _ => eq_refl)).
      cbn [cycles was_above] in IH.
      destruct prev; cbn [andb negb].
      * rewrite (Hinv eq_refl). lia.
      * destruct (was_above st); lia.
    + cbn [andb]. destruct (n && was_above st) eqn:Hc.
      * apply andb_true_iff in Hc. destruct Hc as [_ Hw]. rewrite Hw.
        specialize (IH false (mkScan (cycles st + 1) false)
                       (fun H => False_ind _ (diff_false_true H))).
        cbn [cycles was_above] in IH. lia.
      * specialize (IH false st (fun H => False_ind _ (diff_false_true H))).
        lia.
Qed.

End CycleScan.

(** C2: [count_complete_cycles] is the two-state machine, run row by row
    from [IDLE] with the counter at 0: a row with [above] set arms the
    machine whatever its state, a row with [neutral] set (and [above] unset)
    met in [ARMED] returns to [IDLE] and adds one to the counter, and no
    other row changes anything.  The four scenarios of the specification
    evaluate to 1, 2, 0 and 0. *)
Theorem C2_count_complete_cycles_state_machine :
  (forall s : list (option bool * option bool),
      count_complete_cycles (map fst s) (map snd s) = Ok (machine_run (rows_of s)))
  /\ (forall (c : Z) (st : machine_state) (n : bool),
         machine_step (st, c) (true, n) = (ARMED, c))
  /\ (forall c : Z, machine_step (ARMED, c) (false, true) = (IDLE, c + 1))
  /\ (forall (c : Z) (n : bool), machine_step (IDLE, c) (false, n) = (IDLE, c))
  /\ (forall c : Z, machine_step (ARMED, c) (false, false) = (ARMED, c))
  /\ count_complete_cycles [Some false; Some true; Some true; Some false]
                           [Some true; Some false; Some false; Some true] = Ok 1
  /\ count_complete_cycles [Some false; Some true; Some false; Some true; Some false]
                           [Some true; Some false; Some true; Some false; Some true] = Ok 2
  /\ count_complete_cycles [Some true; Some true; Some true]
                           [Some false; Some false; Some false] = Ok 0
  /\ count_complete_cycles [Some false; Some false; Some false]
                           [Some true; Some true; Some true] = Ok 0.
Proof.
  split.
  - intros s. rewrite count_complete_cycles_rows. unfold machine_run.
    destruct (scan_rows_machine (rows_of s) IDLE 0) as [Hc _].
    cbn [armed] in Hc. rewrite Hc. reflexivity.
  - repeat split; reflexivity.
Qed.

(** C8: on two co-indexed boolean streams [count_complete_cycles] returns
    one count, a function of the streams alone; that count is at most the
    number of maximal runs of consecutive true values in [above]; and a tail
    of the streams in which [neutral] is never true adds nothing to the
    count, whatever runs of [above] it holds. *)
Theorem C8_cycles_bounded_by_runs :
  forall s : list (option bool * option bool),
    exists c : Z,
      count_complete_cycles (map fst s) (map snd s) = Ok c
      /\ (forall r, count_complete_cycles (map fst s) (map snd s) = r -> r = Ok c)
      /\ 0 <= c <= true_runs (map truthy (map fst s))
      /\ (forall s1 s2 : list (option bool * option bool),
             s = s1 ++ s2 ->
             Forall (fun r => truthy (snd r) = false) s2 ->
             count_complete_cycles (map fst s1) (map snd s1) = Ok c).
Proof.
  intros s. exists (cycles (scan_rows (rows_of s) (mkScan 0 false))).
  split; [apply count_complete_cycles_rows |].
  split; [intros r <-; apply count_complete_cycles_rows |].
  split.
  - split.
    + apply (scan_rows_cycles_mono (rows_of s) (mkScan 0 false)).
    + pose proof (scan_rows_runs_bound (rows_of s) false (mkScan 0 false)
                    (fun H => False_ind _ (diff_false_true H))) as Hb.
      cbn [cycles was_above] in Hb. unfold true_runs.
      replace (map truthy (map fst s)) with (map fst (rows_of s)).
      * lia.
      * unfold rows_of. rewrite !map_map. reflexivity.
  - intros s1 s2 -> Hall.
    rewrite count_complete_cycles_rows. f_equal.
    unfold rows_of. rewrite map_app. fold (rows_of s1). fold (rows_of s2).
    rewrite scan_rows_app. symmetry. apply scan_rows_no_neutral.
    unfold rows_of. apply Forall_map.
    eapply Forall_impl; [| exact Hall]. intros r Hr. exact Hr.
Qed.

(** A stream that ends inside a run of [above]: the open run counts for
    nothing and the count is that of the rows before it. *)
Lemma C8_cycles_bounded_by_runs_witness :
  exists c : Z,
    count_complete_cycles [Some false; Some true; Some false; Some true; Some true]
                          [Some true; Some false; Some true; Some false; None] = Ok c
    /\ count_complete_cycles [Some false; Some true; Some false]
                             [Some true; Some false; Some true] = Ok c.
Proof.
  destruct (C8_cycles_bounded_by_runs
              [(Some false, Some true); (Some true, Some false); (Some false, Some true);
               (Some true, Some false); (Some true, None)])
    as [c [Hc [_ [_ Htail]]]].
  exists c. split; [exact Hc |].
  apply (Htail [(Some false, Some true); (Some true, Some false); (Some false, Some true)]
               [(Some true, Some false); (Some true, None)]).
  - reflexivity.
  - repeat constructor.
Defined.

(** ** Columns of the joined frame *)

Section Columns.

Lemma deviation_column_rows (joined : list Joined.t) :
  deviation_column joined = map row_deviation joined.
Proof.
  unfold deviation_column, ratio_column, Polars.map_values, row_deviation.
  rewrite map_map. reflexivity.
Qed.

Lemma combine_removelast {A B : Type} (c : A) (rest : list A) (l : list B) :
  length l = length rest ->
  combine l (removelast (c :: rest)) = combine l (c :: removelast rest).
Proof.
  destruct rest as [| r rest']; [| reflexivity].
  destruct l; [reflexivity | discriminate].
Qed.

Lemma crossed_shift (signs : Polars.series float) (p : option float) :
  map (fun q => option_map (fun v => (v <? 0)%float)
                  (Polars.lift2 PrimFloat.mul (fst q) (snd q)))
      (combine signs (p :: removelast signs))
  = crossed_from p signs.
Proof.
  revert p. induction signs as [| c rest IH]; intros p; [reflexivity |].
  cbn [combine map fst snd crossed_from]. f_equal.
  rewrite combine_removelast by reflexivity. apply IH.
Qed.

(** The column [crossed] of the source is the row-after-row one. *)
Lemma crossed_column_from (deviation : Polars.series float) :
  crossed_column deviation
  = crossed_from None (Polars.map_values Polars.sign deviation).
Proof.
  unfold crossed_column, Polars.zip_with. cbv zeta.
  unfold Polars.map_values at 1. rewrite map_map.
  unfold Polars.shift1.
  destruct (Polars.map_values Polars.sign deviation) as [| c rest] eqn:E;
    [reflexivity |].
  apply crossed_shift.
Qed.

(** Counting the true rows of [crossed] is counting the indices at which
    [crossing_at] holds. *)
Lemma crossed_from_count :
  forall (l pre : Polars.series float) (prev : option float),
    match length pre with
    | O => prev = None
    | S j => nth_error pre j = Some prev
    end ->
    length (filter (fun b : bool => b)
              (Polars.drop_nulls
                 (crossed_from (option_map Polars.sign prev)
                               (Polars.map_values Polars.sign l))))
    = length (filter (crossing_at (pre ++ l)) (seq (length pre) (length l))).
Proof.
  induction l as [| c rest IH]; intros pre prev Hprev; [reflexivity |].
  cbn [Polars.map_values map crossed_from length seq filter].
  assert (Hnext :
            length (filter (fun b : bool => b)
                      (Polars.drop_nulls
                         (crossed_from (option_map Polars.sign c)
                                       (Polars.map_values Polars.sign rest))))
            = length (filter (crossing_at (pre ++ c :: rest))
                        (seq (S (length pre)) (length rest)))).
  { replace (pre ++ c :: rest) with ((pre ++ [c]) ++ rest)
      by (rewrite <- app_assoc; reflexivity).
    replace (S (length pre)) with (length (pre ++ [c]))
      by (rewrite length_app; simpl; lia).
    apply IH. rewrite length_app. cbn [length]. rewrite Nat.add_1_r.
    rewrite nth_error_app2 by lia. rewrite Nat.sub_diag. reflexivity. }
  assert (Hhead :
            option_map (fun v => (v <? 0)%float)
              (Polars.lift2 PrimFloat.mul (option_map Polars.sign c)
                 (option_map Polars.sign prev))
            = if crossing_at (pre ++ c :: rest) (length pre)
              then match c, prev with
                   | Some _, Some _ => Some true
                   | _, _ => None
                   end
              else match c, prev with
                   | Some _, Some _ => Some false
                   | _, _ => None
                   end).
  { unfold crossing_at. destruct (length pre) as [| j] eqn:Hlen.
    - subst prev. destruct c; reflexivity.
    - rewrite <- Hlen. rewrite nth_error_app2 by lia. rewrite Nat.sub_diag.
      cbn [nth_error]. rewrite nth_error_app1 by lia. rewrite Hprev.
      destruct c as [cur |], prev as [pv |]; cbn; try reflexivity.
      destruct (Polars.sign cur * Polars.sign pv <? 0)%float; reflexivity. }
  rewrite Hhead.
  assert (Hnull : crossing_at (pre ++ c :: rest) (length pre) = true ->
                  exists cur pv, c = Some cur /\ prev = Some pv).
  { unfold crossing_at. destruct (length pre) as [| j] eqn:Hlen; [discriminate |].
    rewrite <- Hlen. rewrite nth_error_app2 by lia. rewrite Nat.sub_diag.
    cbn [nth_error]. rewrite nth_error_app1 by lia. rewrite Hprev.
    destruct c, prev; try discriminate. eauto. }
  destruct (crossing_at (pre ++ c :: rest) (length pre)) eqn:Hc.
  - destruct (Hnull eq_refl) as (cur & pv & -> & ->).
    cbn [Polars.drop_nulls filter length]. f_equal. exact Hnext.
  - destruct c, prev; cbn [Polars.drop_nulls filter]; exact Hnext.
Qed.

Lemma sum_bool_crossed (deviation : Polars.series float) :
  Polars.sum_bool (crossed_column deviation) = count_crossings deviation.
Proof.
  unfold Polars.sum_bool, count_crossings. f_equal.
  rewrite crossed_column_from.
  apply (crossed_from_count deviation [] None). reflexivity.
Qed.

(** The comparison of [crossed] with 0 is the same under the order of the
    column comparisons. *)
Lemma lt_zero (p : float) : Polars.lt p 0 = (p <? 0)%float.
Proof. reflexivity. Qed.

End Columns.

(** ** The body of [analyze_pair_fast] *)

(** Name the result of every statement of the body that returned. *)
Ltac bind_ok H :=
  repeat match type of H with
    | Py.bind ?m _ = Ok _ =>
        let E := fresh "E" in
        destruct m eqn:E; cbn [Py.bind] in H; [| discriminate H]
    end.

Section Body.

Lemma float_ok (x : option float) (f : float) : float_ x = Ok f <-> x = Some f.
Proof. destruct x; cbn; split; congruence. Qed.

Lemma getitem_ok {A : Type} (l : list A) (i : nat) (a : A) :
  getitem l i = Ok a <-> nth_error l i = Some a.
Proof. unfold getitem. destruct (nth_error l i); split; congruence. Qed.

(** The body returns a dictionary exactly when every statement returns,
    and the dictionary is then the one built from the values bound. *)
Lemma analyze_joined_inv (joined : list Joined.t) (thresholds : option (list float))
      (zero_threshold : float) (r : dict) :
  analyze_joined joined thresholds zero_threshold = Ok (Some r) ->
  joined <> [] /\
  exists t : trace, runs_with joined thresholds zero_threshold t /\ r = dict_of joined t.
Proof.
  intros H. unfold analyze_joined in H.
  destruct joined as [| j0 js]; [discriminate |].
  split; [discriminate |].
  cbv beta iota zeta in H.
  bind_ok H.
  injection H as <-.
  match goal with
  | E1 : float_ _ = Ok ?vmax, E2 : float_ _ = Ok ?vmin, E3 : float_ _ = Ok ?vmean,
    E4 : sub_time _ _ = Ok ?vdelta, E5 : truediv _ 3600 = Ok ?vdur,
    E6 : per_hour (Polars.sum_bool _) _ = Ok ?vzh, E7 : per_minute _ _ = Ok ?vzm,
    G0 : getitem _ 0 = Ok ?v0, G1 : getitem _ 1 = Ok ?v1, G2 : getitem _ 2 = Ok ?v2,
    C0 : count_complete_cycles (above_column _ ?v0) _ = Ok ?c0,
    C1 : count_complete_cycles (above_column _ ?v1) _ = Ok ?c1,
    C2 : count_complete_cycles (above_column _ ?v2) _ = Ok ?c2,
    P0 : pct_time_above (above_column _ ?v0) = Ok ?p0,
    P1 : pct_time_above (above_column _ ?v1) = Ok ?p1,
    P2 : pct_time_above (above_column _ ?v2) = Ok ?p2,
    A0 : avg_duration_sec _ ?p0 ?c0 = Ok ?a0,
    A1 : avg_duration_sec _ ?p1 ?c1 = Ok ?a1,
    A2 : avg_duration_sec _ ?p2 ?c2 = Ok ?a2,
    L : float_ (last _ None) = Ok ?vlast,
    H0 : per_hour ?c0 _ = Ok ?h0, H1 : per_hour ?c1 _ = Ok ?h1,
    H2 : per_hour ?c2 _ = Ok ?h2 |- _ =>
      exists (mkTrace vmax vmin vmean vdelta vdur vzh vzm v0 v1 v2 c0 c1 c2
                      p0 p1 p2 a0 a1 a2 vlast h0 h1 h2)
  end.
  split; [| reflexivity].
  unfold runs_with. cbn [t_max t_min t_mean t_delta t_duration t_zc_per_hour
    t_zc_per_minute t_th0 t_th1 t_th2 t_cycles0 t_cycles1 t_cycles2 t_pct0 t_pct1
    t_pct2 t_avg0 t_avg1 t_avg2 t_last t_per_hour0 t_per_hour1 t_per_hour2].
  repeat match goal with
         | E : float_ _ = Ok _ |- _ => apply float_ok in E
         | E : getitem _ _ = Ok _ |- _ => apply getitem_ok in E
         end.
  repeat split; assumption.
Qed.

Lemma analyze_joined_intro (joined : list Joined.t) (thresholds : option (list float))
      (zero_threshold : float) (t : trace) :
  joined <> [] ->
  runs_with joined thresholds zero_threshold t ->
  analyze_joined joined thresholds zero_threshold = Ok (Some (dict_of joined t)).
Proof.
  intros Hne H. unfold runs_with in H. cbv zeta in H.
  destruct H as (Hmax & Hmin & Hmean & Hdelta & Hdur & Hzh & Hzm & (G0 & G1 & G2)
                 & (C0 & C1 & C2) & (P0 & P1 & P2) & (A0 & A1 & A2) & L
                 & (H0 & H1 & H2)).
  apply getitem_ok in G0, G1, G2.
  unfold analyze_joined.
  destruct joined as [| j0 js]; [contradiction |].
  cbv beta iota zeta.
  rewrite Hmax, Hmin, Hmean. cbn [float_ Py.bind].
  rewrite Hdelta. cbn [Py.bind]. rewrite Hdur. cbn [Py.bind].
  rewrite Hzh. cbn [Py.bind]. rewrite Hzm. cbn [Py.bind].
  rewrite G0. cbn [Py.bind]. rewrite G1. cbn [Py.bind]. rewrite G2. cbn [Py.bind].
  rewrite C0. cbn [Py.bind]. rewrite C1. cbn [Py.bind]. rewrite C2. cbn [Py.bind].
  rewrite P0. cbn [Py.bind]. rewrite P1. cbn [Py.bind]. rewrite P2. cbn [Py.bind].
  rewrite A0. cbn [Py.bind]. rewrite A1. cbn [Py.bind]. rewrite A2. cbn [Py.bind].
  rewrite L. cbn [float_ Py.bind].
  rewrite H0. cbn [Py.bind]. rewrite H1. cbn [Py.bind]. rewrite H2. cbn [Py.bind].
  reflexivity.
Qed.

End Body.

(** ** What [analyze_pair_fast] returns *)

Section Analysis.

Lemma analyze_pair_fast_inv (symbol ex1 ex2 : string) (data1 data2 : list Tick.t)
      (thresholds : option (list float)) (zero_threshold : float) (r : dict) :
  analyze_pair_fast symbol ex1 ex2 data1 data2 thresholds zero_threshold = Some r ->
  join_asof data1 data2 <> [] /\
  exists t : trace,
    runs_with (join_asof data1 data2) thresholds zero_threshold t
    /\ r = dict_of (join_asof data1 data2) t.
Proof.
  unfold analyze_pair_fast. intros H.
  destruct (is_sorted data1 && is_sorted data2); [| discriminate].
  destruct (analyze_joined (join_asof data1 data2) thresholds zero_threshold)
    as [[d |] | e] eqn:E; try discriminate.
  injection H as ->. apply analyze_joined_inv. exact E.
Qed.

Lemma is_sorted_cons (a b : Tick.t) (rest : list Tick.t) :
  is_sorted (a :: b :: rest)
  = (Tick.timestamp a <=? Tick.timestamp b) && is_sorted (b :: rest).
Proof. reflexivity. Qed.

(** The check of the join is sortedness by timestamp. *)
Lemma is_sorted_iff (data : list Tick.t) :
  is_sorted data = true <-> StronglySorted time_le data.
Proof.
  split.
  - intros H. apply Sorted_StronglySorted.
    + intros x y z Hxy Hyz. unfold time_le in *. lia.
    + induction data as [| a rest IH]; [constructor |].
      destruct rest as [| b rest'].
      * constructor; constructor.
      * rewrite is_sorted_cons in H. apply andb_prop in H. destruct H as [Hab Hrest].
        constructor; [exact (IH Hrest) |].
        constructor. unfold time_le. apply Z.leb_le. exact Hab.
  - intros H. apply StronglySorted_Sorted in H.
    induction H as [| a rest Hrest IH Hhd]; [reflexivity |].
    destruct rest as [| b rest']; [reflexivity |].
    rewrite is_sorted_cons. apply andb_true_intro. split; [| exact IH].
    inversion Hhd as [| ? ? Hab]; subst. apply Z.leb_le. exact Hab.
Qed.

(** The check reads the timestamps only. *)
Lemma is_sorted_timestamps (data data' : list Tick.t) :
  map Tick.timestamp data = map Tick.timestamp data' ->
  is_sorted data = is_sorted data'.
Proof.
  revert data'. induction data as [| a rest IH]; intros data' H.
  - destruct data'; [reflexivity | discriminate H].
  - destruct data' as [| a' rest']; [discriminate H |].
    cbn [map] in H. injection H as Ha Hrest.
    destruct rest as [| b rest2], rest' as [| b' rest2']; try discriminate Hrest;
      [reflexivity |].
    rewrite !is_sorted_cons, (IH (b' :: rest2') Hrest).
    cbn [map] in Hrest. injection Hrest as Hb _. rewrite Ha, Hb. reflexivity.
Qed.

(** On sorted frames the function is the join followed by the body. *)
Lemma analyze_pair_fast_joined (symbol ex1 ex2 : string) (data1 data2 : list Tick.t)
      (thresholds : option (list float)) (zero_threshold : float) :
  StronglySorted time_le data1 ->
  StronglySorted time_le data2 ->
  analyze_pair_fast symbol ex1 ex2 data1 data2 thresholds zero_threshold
  = match analyze_joined (join_asof data1 data2) thresholds zero_threshold with
    | Ok r => r
    | Raise _ => None
    end.
Proof.
  intros H1 H2. unfold analyze_pair_fast.
  rewrite (proj2 (is_sorted_iff data1) H1), (proj2 (is_sorted_iff data2) H2). reflexivity.
Qed.

(** A record is returned for sorted frames only. *)
Lemma analyze_pair_fast_sorted (symbol ex1 ex2 : string) (data1 data2 : list Tick.t)
      (thresholds : option (list float)) (zero_threshold : float) (r : dict) :
  analyze_pair_fast symbol ex1 ex2 data1 data2 thresholds zero_threshold = Some r ->
  StronglySorted time_le data1 /\ StronglySorted time_le data2.
Proof.
  unfold analyze_pair_fast. intros H.
  destruct (is_sorted data1) eqn:E1; [| discriminate H].
  destruct (is_sorted data2) eqn:E2; [| discriminate H].
  split; apply is_sorted_iff; assumption.
Qed.

(** Whatever the frames, the function returns what the body gives on the
    joined frame, or [None]. *)
Lemma analyze_pair_fast_body (symbol ex1 ex2 : string) (data1 data2 : list Tick.t)
      (thresholds : option (list float)) (zero_threshold : float) :
  analyze_joined (join_asof data1 data2) thresholds zero_threshold = Ok None
  \/ (exists e, analyze_joined (join_asof data1 data2) thresholds zero_threshold = Raise e) ->
  analyze_pair_fast symbol ex1 ex2 data1 data2 thresholds zero_threshold = None.
Proof.
  intros H. unfold analyze_pair_fast.
  destruct (is_sorted data1 && is_sorted data2); [| reflexivity].
  destruct H as [-> | [e ->]]; reflexivity.
Qed.

Lemma crossing_at_flip (deviation : Polars.series float) (i : nat) (cur prev : float) :
  nth_error deviation (S i) = Some (Some cur) ->
  nth_error deviation i = Some (Some prev) ->
  crossing_at deviation (S i) = sign_flip cur prev.
Proof.
  intros Hc Hp. unfold crossing_at. rewrite Hc, Hp. apply sign_mul_neg.
Qed.

Lemma sign_flip_zero_l (z y : float) :
  PrimFloat.is_zero z = true -> sign_flip z y = false.
Proof.
  intros Hz. unfold sign_flip.
  destruct (is_zero_cases z Hz) as [-> | ->]; reflexivity.
Qed.

Lemma sign_flip_zero_r (x z : float) :
  PrimFloat.is_zero z = true -> sign_flip x z = false.
Proof.
  intros Hz. unfold sign_flip.
  destruct (is_zero_cases z Hz) as [-> | ->];
    change (0 <? 0)%float with false; change (0 <? -0)%float with false;
    change (0 <? 0)%float with false; change (-0 <? 0)%float with false;
    rewrite !andb_false_r; reflexivity.
Qed.

(** A row whose deviation is zero is no crossing, and neither is the row
    after it. *)
Lemma crossing_at_zero (deviation : Polars.series float) (i : nat) (z : float) :
  nth_error deviation i = Some (Some z) ->
  PrimFloat.is_zero z = true ->
  crossing_at deviation i = false /\ crossing_at deviation (S i) = false.
Proof.
  intros Hi Hz. split.
  - unfold crossing_at. destruct i as [| j]; [reflexivity |].
    rewrite Hi. destruct (nth_error deviation j) as [[prev |] |]; try reflexivity.
    rewrite sign_mul_neg. apply sign_flip_zero_l. exact Hz.
  - unfold crossing_at. rewrite Hi.
    destruct (nth_error deviation (S i)) as [[cur |] |]; try reflexivity.
    rewrite sign_mul_neg. apply sign_flip_zero_r. exact Hz.
Qed.

End Analysis.

(** C3: the metric [zero_crossings] is the number of rows [i >= 1] for which
    the product of the signs of [deviation[i]] and [deviation[i-1]] is
    negative, which is a true sign flip (one strictly above zero, the other
    strictly below); row 0 is never a crossing; and a row whose deviation is
    exactly zero is not a crossing and does not make the next row one, so a
    pass through zero is never counted twice. *)
Theorem C3_zero_crossings_count_sign_flips :
  forall (symbol ex1 ex2 : string) (data1 data2 : list Tick.t)
         (thresholds : option (list float)) (zero_threshold : float) (r : dict),
    analyze_pair_fast symbol ex1 ex2 data1 data2 thresholds zero_threshold = Some r ->
    let deviation := deviation_column (join_asof data1 data2) in
    get r "zero_crossings" = Some (VInt (count_crossings deviation))
    /\ crossing_at deviation 0 = false
    /\ (forall (i : nat) (cur prev : float),
           nth_error deviation (S i) = Some (Some cur) ->
           nth_error deviation i = Some (Some prev) ->
           crossing_at deviation (S i) = sign_flip cur prev)
    /\ (forall (i : nat) (z : float),
           nth_error deviation i = Some (Some z) ->
           PrimFloat.is_zero z = true ->
           crossing_at deviation i = false /\ crossing_at deviation (S i) = false).
Proof.
  intros symbol ex1 ex2 data1 data2 thresholds zero_threshold r H deviation.
  destruct (analyze_pair_fast_inv _ _ _ _ _ _ _ _ H) as (_ & t & _ & ->).
  split; [| split; [reflexivity | split]].
  - unfold dict_of. cbv zeta. rewrite sum_bool_crossed. reflexivity.
  - apply crossing_at_flip.
  - apply crossing_at_zero.
Qed.

(** ** The as-of join *)

Section Join.

Lemma join_asof_length (data1 data2 : list Tick.t) :
  length (join_asof data1 data2) = length data1.
Proof. unfold join_asof. apply length_map. Qed.

Lemma join_asof_timestamps (data1 data2 : list Tick.t) :
  map Joined.timestamp (join_asof data1 data2) = map Tick.timestamp data1.
Proof. unfold join_asof. rewrite map_map. reflexivity. Qed.

Lemma join_asof_nil_iff (data1 data2 : list Tick.t) :
  join_asof data1 data2 = [] <-> data1 = [].
Proof.
  unfold join_asof. split.
  - apply map_eq_nil.
  - intros ->. reflexivity.
Qed.

(** On a sorted right frame the search returns the last row at or before
    the key: every row up to it is at or before the key, every row after
    it is strictly later. *)
Lemma asof_backward_sorted (key : Z) :
  forall (right : list Tick.t) (found : option Tick.t),
    StronglySorted time_le right ->
    (asof_backward key right found = found
     /\ Forall (fun r => key < Tick.timestamp r) right)
    \/ (exists pre b post,
           right = pre ++ b :: post
           /\ Forall (fun r => Tick.timestamp r <= key) pre
           /\ Tick.timestamp b <= key
           /\ Forall (fun r => key < Tick.timestamp r) post
           /\ asof_backward key right found = Some b).
Proof.
  induction right as [| r rest IH]; intros found Hs.
  - left. split; [reflexivity | constructor].
  - apply StronglySorted_inv in Hs. destruct Hs as [Hrest Hall].
    cbn [asof_backward]. destruct (Z.leb_spec (Tick.timestamp r) key) as [Hle | Hgt].
    + right. destruct (IH (Some r) Hrest) as [[Hres Hlater] | Hsplit].
      * exists [], r, rest. repeat split; auto.
      * destruct Hsplit as (pre & b & post & -> & Hpre & Hb & Hpost & Hres).
        exists (r :: pre), b, post. repeat split; auto.
    + left. split; [reflexivity |].
      constructor; [exact Hgt |].
      eapply Forall_impl; [| exact Hall].
      intros x Hx. unfold time_le in Hx. lia.
Qed.

End Join.

(** C4: the joined frame has one row per row of the anchor frame, in the
    anchor's order and with the anchor's timestamps and prices; on a
    secondary frame sorted by timestamp, the secondary prices of a row are
    those of the last secondary row whose timestamp is at or before the
    anchor's (every secondary row after it is strictly later), or nulls when
    every secondary row is strictly later: no row is paired with a later
    observation. *)
Theorem C4_join_asof_backward :
  forall data1 data2 : list Tick.t,
    StronglySorted time_le data2 ->
    let joined := join_asof data1 data2 in
    length joined = length data1
    /\ (length joined <= length data1)%nat
    /\ map Joined.timestamp joined = map Tick.timestamp data1
    /\ forall (i : nat) (a : Tick.t),
        nth_error data1 i = Some a ->
        exists j : Joined.t,
          nth_error joined i = Some j
          /\ Joined.timestamp j = Tick.timestamp a
          /\ Joined.bid_ex1 j = Tick.bestBid a
          /\ Joined.ask_ex1 j = Tick.bestAsk a
          /\ ((Joined.bid_ex2 j = None /\ Joined.ask_ex2 j = None
               /\ Forall (fun b => Tick.timestamp a < Tick.timestamp b) data2)
              \/ exists pre b post,
                  data2 = pre ++ b :: post
                  /\ Forall (fun b' => Tick.timestamp b' <= Tick.timestamp a) pre
                  /\ Tick.timestamp b <= Tick.timestamp a
                  /\ Forall (fun b' => Tick.timestamp a < Tick.timestamp b') post
                  /\ Joined.bid_ex2 j = Tick.bestBid b
                  /\ Joined.ask_ex2 j = Tick.bestAsk b).
Proof.
  intros data1 data2 Hs joined. subst joined.
  split; [apply join_asof_length |].
  split; [rewrite join_asof_length; lia |].
  split; [apply join_asof_timestamps |].
  intros i a Ha. unfold join_asof.
  rewrite nth_error_map, Ha. cbn [option_map].
  eexists. split; [reflexivity |]. cbn [Joined.timestamp Joined.bid_ex1 Joined.ask_ex1
                                         Joined.bid_ex2 Joined.ask_ex2].
  repeat (split; [reflexivity |]).
  destruct (asof_backward_sorted (Tick.timestamp a) data2 None Hs)
    as [[-> Hlater] | (pre & b & post & Hd & Hpre & Hb & Hpost & ->)].
  - left. auto.
  - right. exists pre, b, post. auto 10.
Qed.

(** The swing frame against the flat one: the deviation goes up, down, up
    and lands on zero; the two flips are counted, the landing is not. *)
Lemma C3_zero_crossings_count_sign_flips_witness :
  exists r : dict,
    analyze_pair_fast "SYM" "A" "B" swing_frame flat_frame None default_zero_threshold
    = Some r
    /\ get r "zero_crossings" = Some (VInt 2).
Proof.
  destruct (analyze_pair_fast "SYM" "A" "B" swing_frame flat_frame None
              default_zero_threshold) as [r |] eqn:E;
    [| vm_compute in E; discriminate E].
  exists r. split; [reflexivity |].
  destruct (C3_zero_crossings_count_sign_flips _ _ _ _ _ _ _ r E) as [Hzc _].
  rewrite Hzc. vm_compute. reflexivity.
Defined.

(** Two anchor ticks against a secondary frame that starts later: the first
    anchor row finds nothing, the second finds the tick of its own minute. *)
Lemma C4_join_asof_backward_witness :
  length (join_asof (frame_of [100; 101]%float)
                    [Tick.mk minute (Some 99%float) None;
                     Tick.mk (2 * minute) (Some 98%float) None]) = 2%nat.
Proof.
  refine (proj1 (C4_join_asof_backward (frame_of [100; 101]%float)
                   [Tick.mk minute (Some 99%float) None;
                    Tick.mk (2 * minute) (Some 98%float) None] _)).
  repeat (apply SSorted_cons || apply SSorted_nil
          || apply Forall_cons || apply Forall_nil);
    unfold time_le, minute; simpl; lia.
Defined.

(** ** Empty inputs *)

Section Empty.

Lemma asof_backward_nil (key : Z) (found : option Tick.t) :
  asof_backward key [] found = found.
Proof. reflexivity. Qed.

Lemma deviation_no_secondary (data1 : list Tick.t) :
  Polars.drop_nulls (deviation_column (join_asof data1 [])) = [].
Proof.
  rewrite deviation_column_rows. unfold join_asof. rewrite map_map.
  induction data1 as [| a rest IH]; [reflexivity |].
  cbn [map asof_backward]. unfold row_deviation at 1.
  cbn [Joined.bid_ex1 Joined.bid_ex2]. unfold Polars.lift2.
  destruct (Tick.bestBid a); cbn [option_map Polars.drop_nulls]; exact IH.
Qed.

(** Without a secondary tick no deviation is defined and [float(None)]
    raises inside the [try]. *)
Lemma analyze_joined_no_secondary (data1 : list Tick.t)
      (thresholds : option (list float)) (zero_threshold : float) :
  data1 <> [] ->
  analyze_joined (join_asof data1 []) thresholds zero_threshold = Raise TypeError.
Proof.
  intros Hne. unfold analyze_joined.
  destruct (join_asof data1 []) as [| j0 js] eqn:Ej.
  - apply join_asof_nil_iff in Ej. contradiction.
  - rewrite <- Ej. cbv beta iota zeta.
    unfold Polars.max at 1. rewrite deviation_no_secondary. reflexivity.
Qed.

End Empty.

(** C6: when either input frame is empty, and whenever the joined frame is
    empty, [analyze_pair_fast] returns [None]: an empty anchor frame gives an
    empty join and the early [return None]; an empty secondary frame leaves
    every deviation null, the conversion of the null maximum raises
    [TypeError] inside the [try], and the handler returns [None].  The
    function returns on every input: nothing escapes the handler. *)
Theorem C6_empty_input_returns_none :
  forall (symbol ex1 ex2 : string) (data1 data2 : list Tick.t)
         (thresholds : option (list float)) (zero_threshold : float),
    (join_asof data1 data2 = [] <-> data1 = [])
    /\ (data1 = [] ->
        analyze_joined (join_asof data1 data2) thresholds zero_threshold = Ok None)
    /\ (data2 = [] -> data1 <> [] ->
        analyze_joined (join_asof data1 data2) thresholds zero_threshold = Raise TypeError)
    /\ (data1 = [] \/ data2 = [] \/ join_asof data1 data2 = [] ->
        analyze_pair_fast symbol ex1 ex2 data1 data2 thresholds zero_threshold = None).
Proof.
  intros symbol ex1 ex2 data1 data2 thresholds zero_threshold.
  split; [apply join_asof_nil_iff |].
  split; [intros ->; reflexivity |].
  split; [intros -> Hne; apply analyze_joined_no_secondary; exact Hne |].
  intros H. apply analyze_pair_fast_body.
  assert (Hcases : data1 = [] \/ (data1 <> [] /\ data2 = [])).
  { destruct data1 as [| a rest]; [left; reflexivity |].
    destruct H as [H | [H | H]]; [discriminate | | discriminate].
    right. split; [discriminate | exact H]. }
  destruct Hcases as [-> | [Hne ->]].
  - left. reflexivity.
  - right. exists TypeError. apply analyze_joined_no_secondary. exact Hne.
Qed.

(** An empty frame on either side, against the swing frame. *)
Lemma C6_empty_input_returns_none_witness :
  analyze_pair_fast "SYM" "A" "B" [] swing_frame None default_zero_threshold = None
  /\ analyze_pair_fast "SYM" "A" "B" swing_frame [] None default_zero_threshold = None.
Proof.
  split.
  - apply (C6_empty_input_returns_none "SYM" "A" "B" [] swing_frame None
             default_zero_threshold).
    left. reflexivity.
  - apply (C6_empty_input_returns_none "SYM" "A" "B" swing_frame [] None
             default_zero_threshold).
    right. left. reflexivity.
Defined.

(** ** Independence from the ask columns *)

Section Asks.

Lemma asof_backward_bid_ext (key : Z) :
  forall (right right' : list Tick.t) (found found' : option Tick.t),
    bids_of right = bids_of right' ->
    bid_of found = bid_of found' ->
    bid_of (asof_backward key right found) = bid_of (asof_backward key right' found').
Proof.
  induction right as [| r rest IH]; intros right' found found' Hb Hf;
    destruct right' as [| r' rest']; try discriminate; [exact Hf |].
  cbn [bids_of map] in Hb. injection Hb as Ht Hbid Hrest.
  cbn [asof_backward]. rewrite Ht.
  destruct (Tick.timestamp r' <=? key); [| exact Hf].
  apply IH; [exact Hrest | exact Hbid].
Qed.

Lemma join_asof_columns_ext (data1 data1' data2 data2' : list Tick.t) :
  bids_of data1 = bids_of data1' ->
  bids_of data2 = bids_of data2' ->
  metric_columns (join_asof data1 data2) = metric_columns (join_asof data1' data2').
Proof.
  intros H1 H2. unfold metric_columns, join_asof. rewrite !map_map.
  cbn [Joined.timestamp Joined.bid_ex1 Joined.bid_ex2].
  revert data1' H1. induction data1 as [| a rest IH]; intros data1' H1;
    destruct data1' as [| a' rest']; try discriminate; [reflexivity |].
  cbn [bids_of map] in H1. injection H1 as Ht Hbid Hrest.
  cbn [map]. rewrite (IH rest' Hrest). f_equal.
  rewrite Ht, Hbid. f_equal.
  apply (asof_backward_bid_ext (Tick.timestamp a') data2 data2' None None H2 eq_refl).
Qed.

(** The body reads the joined frame through [metric_columns] only. *)
Lemma analyze_joined_ext (j1 j2 : list Joined.t) (thresholds : option (list float))
      (zero_threshold : float) :
  metric_columns j1 = metric_columns j2 ->
  analyze_joined j1 thresholds zero_threshold = analyze_joined j2 thresholds zero_threshold.
Proof.
  intros H.
  assert (Hd : deviation_column j1 = deviation_column j2).
  { rewrite !deviation_column_rows.
    assert (Hr : forall j, map row_deviation j
                           = map (fun c : Z * option float * option float =>
                                    option_map (fun ratio => (ratio - 1.0) / 1.0 * 100)%float
                                      (Polars.lift2 PrimFloat.div (snd (fst c)) (snd c)))
                                 (metric_columns j))
      by (intros j; unfold metric_columns; rewrite map_map; reflexivity).
    rewrite !Hr, H. reflexivity. }
  assert (Ht : map Joined.timestamp j1 = map Joined.timestamp j2).
  { assert (Hr : forall j, map Joined.timestamp j
                           = map (fun c : Z * option float * option float => fst (fst c))
                                 (metric_columns j))
      by (intros j; unfold metric_columns; rewrite map_map; reflexivity).
    rewrite !Hr, H. reflexivity. }
  assert (Hl : length j1 = length j2).
  { rewrite <- (length_map Joined.timestamp j1), Ht. apply length_map. }
  unfold analyze_joined. rewrite Hd, Ht, Hl.
  destruct j1, j2; try discriminate; reflexivity.
Qed.

End Asks.

Lemma bids_of_timestamps (data data' : list Tick.t) :
  bids_of data = bids_of data' -> map Tick.timestamp data = map Tick.timestamp data'.
Proof.
  intros H. apply (f_equal (map fst)) in H. unfold bids_of in H.
  rewrite !map_map in H. exact H.
Qed.

(** C9: two calls whose frames agree on the timestamps and the bids return
    the same result, whatever the asks: the asks travel through the join and
    no metric reads them. *)
Theorem C9_result_independent_of_asks :
  forall (symbol ex1 ex2 : string) (data1 data1' data2 data2' : list Tick.t)
         (thresholds : option (list float)) (zero_threshold : float),
    bids_of data1 = bids_of data1' ->
    bids_of data2 = bids_of data2' ->
    analyze_pair_fast symbol ex1 ex2 data1 data2 thresholds zero_threshold
    = analyze_pair_fast symbol ex1 ex2 data1' data2' thresholds zero_threshold.
Proof.
  intros symbol ex1 ex2 data1 data1' data2 data2' thresholds zero_threshold H1 H2.
  unfold analyze_pair_fast.
  rewrite (analyze_joined_ext (join_asof data1 data2) (join_asof data1' data2')
             thresholds zero_threshold (join_asof_columns_ext _ _ _ _ H1 H2)).
  rewrite (is_sorted_timestamps data1 data1' (bids_of_timestamps _ _ H1)).
  rewrite (is_sorted_timestamps data2 data2' (bids_of_timestamps _ _ H2)).
  reflexivity.
Qed.

(** The sample frames with their asks erased on one side and zeroed on the
    other. *)
Lemma C9_result_independent_of_asks_witness :
  analyze_pair_fast "SYM" "A" "B" swing_frame flat_frame None default_zero_threshold
  = analyze_pair_fast "SYM" "A" "B" (with_asks None swing_frame)
      (with_asks (Some 0%float) flat_frame) None default_zero_threshold.
Proof.
  apply (C9_result_independent_of_asks "SYM" "A" "B" swing_frame
           (with_asks None swing_frame) flat_frame (with_asks (Some 0%float) flat_frame)
           None default_zero_threshold).
  - vm_compute. reflexivity.
  - vm_compute. reflexivity.
Defined.

(** ** The shape of the returned dictionary *)

Section Shape.

Lemma keys_dict_of (joined : list Joined.t) (t : trace) :
  keys (dict_of joined t) = metric_keys.
Proof. reflexivity. Qed.

Lemma get_threshold_fields (joined : list Joined.t) (t : trace) :
  let r := dict_of joined t in
  (get r "opportunity_cycles_030bp" = Some (VInt (t_cycles0 t))
   /\ get r "cycles_030bp_per_hour" = Some (t_per_hour0 t)
   /\ get r "pct_time_above_030bp" = Some (VFloat (t_pct0 t))
   /\ get r "avg_cycle_duration_030bp_sec" = Some (t_avg0 t)
   /\ get r "pattern_break_030bp" = Some (VBool (t_th0 t <? abs (t_last t))%float))
  /\ (get r "opportunity_cycles_050bp" = Some (VInt (t_cycles1 t))
      /\ get r "cycles_050bp_per_hour" = Some (t_per_hour1 t)
      /\ get r "pct_time_above_050bp" = Some (VFloat (t_pct1 t))
      /\ get r "avg_cycle_duration_050bp_sec" = Some (t_avg1 t)
      /\ get r "pattern_break_050bp" = Some (VBool (t_th1 t <? abs (t_last t))%float))
  /\ (get r "opportunity_cycles_040bp" = Some (VInt (t_cycles2 t))
      /\ get r "cycles_040bp_per_hour" = Some (t_per_hour2 t)
      /\ get r "pct_time_above_040bp" = Some (VFloat (t_pct2 t))
      /\ get r "avg_cycle_duration_040bp_sec" = Some (t_avg2 t)
      /\ get r "pattern_break_040bp" = Some (VBool (t_th2 t <? abs (t_last t))%float)).
Proof. cbv zeta. repeat split; reflexivity. Qed.

Lemma get_global_fields (joined : list Joined.t) (t : trace) :
  let r := dict_of joined t in
  get r "max_deviation_pct" = Some (VFloat (t_max t))
  /\ get r "min_deviation_pct" = Some (VFloat (t_min t))
  /\ get r "deviation_asymmetry" = Some (VFloat (t_mean t))
  /\ get r "zero_crossings"
     = Some (VInt (Polars.sum_bool (crossed_column (deviation_column joined))))
  /\ get r "zero_crossings_per_hour" = Some (t_zc_per_hour t)
  /\ get r "zero_crossings_per_minute" = Some (t_zc_per_minute t)
  /\ get r "data_points" = Some (VInt (Z.of_nat (length joined)))
  /\ get r "duration_hours" = Some (VFloat (t_duration t)).
Proof. cbv zeta. repeat split; reflexivity. Qed.

End Shape.



(** ** When the body returns a dictionary *)

Section Success.

Lemma drop_nulls_map_values {A B : Type} (f : A -> B) (s : Polars.series A) :
  Polars.drop_nulls (Polars.map_values f s) = map f (Polars.drop_nulls s).
Proof.
  induction s as [| [a |] s IH]; cbn; [reflexivity | f_equal; exact IH | exact IH].
Qed.

Lemma drop_nulls_app {A : Type} (s1 s2 : Polars.series A) :
  Polars.drop_nulls (s1 ++ s2) = Polars.drop_nulls s1 ++ Polars.drop_nulls s2.
Proof.
  induction s1 as [| [a |] s1 IH]; cbn; [reflexivity | f_equal; exact IH | exact IH].
Qed.

Lemma drop_nulls_last {A : Type} (s : Polars.series A) (d : A) :
  last s None = Some d -> Polars.drop_nulls s <> [].
Proof.
  intros H.
  destruct (exists_last (l := s)) as (s' & x & ->).
  - intros ->. discriminate H.
  - rewrite last_last in H. subst x. rewrite drop_nulls_app. cbn.
    intros E. apply app_eq_nil in E. destruct E as [_ E]. discriminate E.
Qed.

Lemma reduce_some {A : Type} (f : A -> A -> A) (l : list A) :
  l <> [] -> exists v, Polars.reduce f l = Some v.
Proof. destruct l; [contradiction | cbn; eauto]. Qed.

Lemma mean_some (s : Polars.series float) :
  Polars.drop_nulls s <> [] -> exists v, Polars.mean s = Some v.
Proof.
  intros H. unfold Polars.mean. destruct (Polars.drop_nulls s); [contradiction | eauto].
Qed.

Lemma mean_bool_some (s : Polars.series bool) :
  Polars.drop_nulls s <> [] -> exists v, Polars.mean_bool s = Some v.
Proof.
  intros H. unfold Polars.mean_bool.
  destruct (Polars.drop_nulls s); [contradiction | eauto].
Qed.

Lemma truediv_ok (a b : float) :
  PrimFloat.is_zero b = false -> truediv a b = Ok (a / b)%float.
Proof. intros H. unfold truediv. rewrite H. reflexivity. Qed.

Lemma per_hour_ok (count : Z) (duration_hours : float) :
  exists v, per_hour count duration_hours = Ok v
            /\ (v = VInt 0 \/ exists f, v = VFloat f).
Proof.
  unfold per_hour. destruct (0 <? duration_hours)%float eqn:Hd; [| eauto].
  rewrite truediv_ok by (apply positive_not_zero; exact Hd). cbn [Py.bind]. eauto.
Qed.

Lemma per_minute_ok (h : value) (duration_hours : float) :
  (h = VInt 0 \/ exists f, h = VFloat f) ->
  exists v, per_minute h duration_hours = Ok v.
Proof.
  intros Hh. unfold per_minute. destruct (0 <? duration_hours)%float; [| eauto].
  destruct Hh as [-> | [f ->]]; rewrite truediv_ok by reflexivity; cbn [Py.bind]; eauto.
Qed.

Lemma scan_rows_cycles_le_length :
  forall (rows : list (bool * bool)) (st : scan_state),
    cycles (scan_rows rows st) <= cycles st + Z.of_nat (length rows).
Proof.
  induction rows as [| [a n] rows IH]; intros st; [cbn; lia |].
  unfold scan_rows in *. cbn [fold_left length].
  etransitivity; [apply IH |].
  unfold scan_row. cbn [fst snd].
  destruct a; [cbn; lia |]. destruct (n && was_above st); cbn; lia.
Qed.

(** The two flag columns are the two sides of one column of row pairs. *)
Lemma flag_columns_rows (deviation : Polars.series float) (threshold zero_threshold : float) :
  let flags := map (fun d => (option_map (fun x => Polars.gt (abs x) threshold) d,
                              option_map (fun x => Polars.lt (abs x) zero_threshold) d))
                   deviation in
  above_column deviation threshold = map fst flags
  /\ neutral_column deviation zero_threshold = map snd flags.
Proof.
  cbv zeta. unfold above_column, neutral_column, Polars.map_values.
  rewrite !map_map. split; reflexivity.
Qed.

(** On the flag columns of a frame the scan returns, with a count between 0
    and the number of rows. *)
Lemma count_complete_cycles_columns (deviation : Polars.series float)
      (threshold zero_threshold : float) :
  exists c : Z,
    count_complete_cycles (above_column deviation threshold)
                          (neutral_column deviation zero_threshold) = Ok c
    /\ 0 <= c <= Z.of_nat (length deviation).
Proof.
  destruct (flag_columns_rows deviation threshold zero_threshold) as [-> ->].
  rewrite count_complete_cycles_rows. eexists. split; [reflexivity |].
  split.
  - apply (scan_rows_cycles_mono _ (mkScan 0 false)).
  - etransitivity; [apply scan_rows_cycles_le_length |].
    unfold rows_of. rewrite !length_map. cbn [cycles]. lia.
Qed.

Lemma pct_time_above_ok (deviation : Polars.series float) (threshold : float) :
  Polars.drop_nulls deviation <> [] ->
  exists p, pct_time_above (above_column deviation threshold) = Ok p.
Proof.
  intros H. unfold pct_time_above.
  destruct (mean_bool_some (above_column deviation threshold)) as [v ->].
  - unfold above_column. rewrite drop_nulls_map_values.
    intros E. apply map_eq_nil in E. contradiction.
  - cbn. eauto.
Qed.

Lemma avg_duration_sec_ok (duration_hours pct : float) (c : Z) :
  c < 2 ^ 63 -> exists v, avg_duration_sec duration_hours pct c = Ok v.
Proof.
  intros Hc. unfold avg_duration_sec. destruct (Z.ltb_spec 0 c) as [Hpos | _]; [| eauto].
  rewrite truediv_ok; [cbn [Py.bind]; eauto |].
  apply strictly_positive_not_zero, float_of_int_pos. lia.
Qed.

Lemma nth_error_some_of_length {A : Type} (l : list A) (i : nat) :
  (i < length l)%nat -> exists a, nth_error l i = Some a.
Proof.
  intros H. destruct (nth_error l i) eqn:E; [eauto |].
  apply nth_error_None in E. lia.
Qed.

(** The body returns a dictionary on a non-empty joined frame whose last
    deviation is defined, given three thresholds. *)
Lemma analyze_joined_succeeds (joined : list Joined.t) (thresholds : option (list float))
      (zero_threshold : float) (d : float) :
  last (deviation_column joined) None = Some d ->
  (3 <= length (effective_thresholds thresholds))%nat ->
  Z.of_nat (length joined) < 2 ^ 63 ->
  exists t : trace,
    runs_with joined thresholds zero_threshold t
    /\ analyze_joined joined thresholds zero_threshold = Ok (Some (dict_of joined t)).
Proof.
  intros Hlast Hth Hlen.
  assert (Hne : joined <> []) by (intros ->; discriminate Hlast).
  pose proof (drop_nulls_last _ _ Hlast) as Hdev.
  assert (Hlen' : length (deviation_column joined) = length joined)
    by (rewrite deviation_column_rows; apply length_map).
  destruct (reduce_some Polars.max_ignore_nan _ Hdev) as [vmax Hmax].
  destruct (reduce_some Polars.min_ignore_nan _ Hdev) as [vmin Hmin].
  destruct (mean_some _ Hdev) as [vmean Hmean].
  assert (Hts : map Joined.timestamp joined <> [])
    by (intros E; apply map_eq_nil in E; contradiction).
  destruct (reduce_some Z.max _ Hts) as [tmax Htmax].
  destruct (reduce_some Z.min _ Hts) as [tmin Htmin].
  set (dur := (total_seconds (tmax - tmin) / 3600)%float).
  destruct (per_hour_ok (Polars.sum_bool (crossed_column (deviation_column joined))) dur)
    as (zh & Hzh & Hzh').
  destruct (per_minute_ok zh dur Hzh') as (zm & Hzm).
  destruct (nth_error_some_of_length (effective_thresholds thresholds) 0 ltac:(lia))
    as [th0 G0].
  destruct (nth_error_some_of_length (effective_thresholds thresholds) 1 ltac:(lia))
    as [th1 G1].
  destruct (nth_error_some_of_length (effective_thresholds thresholds) 2 ltac:(lia))
    as [th2 G2].
  destruct (count_complete_cycles_columns (deviation_column joined) th0 zero_threshold)
    as (c0 & C0 & B0).
  destruct (count_complete_cycles_columns (deviation_column joined) th1 zero_threshold)
    as (c1 & C1 & B1).
  destruct (count_complete_cycles_columns (deviation_column joined) th2 zero_threshold)
    as (c2 & C2 & B2).
  destruct (pct_time_above_ok (deviation_column joined) th0 Hdev) as [p0 P0].
  destruct (pct_time_above_ok (deviation_column joined) th1 Hdev) as [p1 P1].
  destruct (pct_time_above_ok (deviation_column joined) th2 Hdev) as [p2 P2].
  destruct (avg_duration_sec_ok dur p0 c0 ltac:(lia)) as [a0 A0].
  destruct (avg_duration_sec_ok dur p1 c1 ltac:(lia)) as [a1 A1].
  destruct (avg_duration_sec_ok dur p2 c2 ltac:(lia)) as [a2 A2].
  destruct (per_hour_ok c0 dur) as (h0 & H0 & _).
  destruct (per_hour_ok c1 dur) as (h1 & H1 & _).
  destruct (per_hour_ok c2 dur) as (h2 & H2 & _).
  exists (mkTrace vmax vmin vmean (tmax - tmin) dur zh zm th0 th1 th2 c0 c1 c2
                  p0 p1 p2 a0 a1 a2 d h0 h1 h2).
  assert (Hrun : runs_with joined thresholds zero_threshold
                   (mkTrace vmax vmin vmean (tmax - tmin) dur zh zm th0 th1 th2 c0 c1 c2
                            p0 p1 p2 a0 a1 a2 d h0 h1 h2)).
  { unfold runs_with. cbn [t_max t_min t_mean t_delta t_duration t_zc_per_hour
      t_zc_per_minute t_th0 t_th1 t_th2 t_cycles0 t_cycles1 t_cycles2 t_pct0 t_pct1
      t_pct2 t_avg0 t_avg1 t_avg2 t_last t_per_hour0 t_per_hour1 t_per_hour2].
    fold (effective_thresholds thresholds).
    unfold Polars.max_time, Polars.min_time. rewrite Htmax, Htmin.
    repeat split; assumption || reflexivity. }
  split; [exact Hrun |].
  apply analyze_joined_intro; assumption.
Qed.

End Success.

(** ** Rates on a frame of zero duration *)

Section Rates.

Lemma sub_time_same (a : option Z) (delta : Z) :
  sub_time a a = Ok delta -> delta = 0.
Proof.
  destruct a as [x |]; cbn [sub_time]; [| discriminate].
  intros H. injection H as <-. lia.
Qed.

Lemma duration_of_zero (duration_hours : float) :
  truediv (total_seconds 0) 3600 = Ok duration_hours -> duration_hours = 0%float.
Proof. intros H. vm_compute in H. injection H as <-. reflexivity. Qed.

Lemma per_hour_zero_duration (count : Z) (v : value) :
  per_hour count 0 = Ok v -> v = VInt 0.
Proof.
  unfold per_hour. change (0 <? 0)%float with false. intros H. injection H as <-.
  reflexivity.
Qed.

Lemma per_minute_zero_duration (h v : value) :
  per_minute h 0 = Ok v -> v = VInt 0.
Proof.
  unfold per_minute. change (0 <? 0)%float with false. intros H. injection H as <-.
  reflexivity.
Qed.

Lemma avg_duration_no_cycle (duration_hours pct : float) (v : value) :
  avg_duration_sec duration_hours pct 0 = Ok v -> v = VInt 0.
Proof. unfold avg_duration_sec. cbn. intros H. injection H as <-. reflexivity. Qed.

(** The guards of the source keep every Python division away from a zero
    divisor: the body raises nothing but [TypeError] (a null where a number
    is expected) and [IndexError] (fewer than three thresholds). *)
Lemma analyze_joined_raises (joined : list Joined.t) (thresholds : option (list float))
      (zero_threshold : float) (e : exc) :
  Z.of_nat (length joined) < 2 ^ 63 ->
  analyze_joined joined thresholds zero_threshold = Raise e ->
  e <> ZeroDivisionError.
Proof.
  intros Hlen H. unfold analyze_joined in H.
  destruct joined as [| j0 js]; [discriminate H |].
  remember (j0 :: js) as joined eqn:Ej.
  assert (Hdl : length (deviation_column joined) = length joined)
    by (rewrite deviation_column_rows; apply length_map).
  rewrite Ej in H at 1. cbv beta iota zeta in H.
  repeat match type of H with
    | Py.bind ?m _ = Raise _ =>
        let E := fresh "E" in
        destruct m eqn:E; cbn [Py.bind] in H;
        [| injection H as <-;
           first
             [ (* a conversion of a possibly-null value *)
               match type of E with
               | float_ ?x = _ => destruct x; cbn in E; inversion E; discriminate
               | pct_time_above ?x = _ =>
                   unfold pct_time_above in E;
                   destruct (option_map _ _); cbn in E; inversion E; discriminate
               | sub_time ?x ?y = _ =>
                   destruct x, y; cbn in E; inversion E; discriminate
               | getitem ?l ?i = _ =>
                   unfold getitem in E; destruct (nth_error l i); inversion E; discriminate
               end
             | (* a statement that always returns *)
               exfalso;
               match type of E with
               | truediv _ 3600 = _ => vm_compute in E; discriminate E
               | per_hour ?c ?d = _ =>
                   destruct (per_hour_ok c d) as (? & Hok & _); congruence
               | per_minute ?h ?d = _ =>
                   match goal with
                   | Eh : per_hour ?c d = Ok h |- _ =>
                       destruct (per_hour_ok c d) as (? & Hok & Hshape);
                       assert (Hsh : h = VInt 0 \/ exists f, h = VFloat f)
                         by (rewrite Hok in Eh; injection Eh as <-; exact Hshape);
                       destruct (per_minute_ok h d Hsh) as (? & Hm); congruence
                   end
               | count_complete_cycles (above_column ?dv ?th) (neutral_column _ ?zt) = _ =>
                   destruct (count_complete_cycles_columns dv th zt) as (? & Hok & _);
                   congruence
               | avg_duration_sec ?d ?p ?c = _ =>
                   match goal with
                   | Ec : count_complete_cycles (above_column ?dv ?th)
                                                (neutral_column _ ?zt) = Ok c |- _ =>
                       destruct (count_complete_cycles_columns dv th zt)
                         as (c' & Hok & Hb);
                       assert (Hc : c < 2 ^ 63)
                         by (rewrite Hok in Ec; injection Ec as <-; lia);
                       destruct (avg_duration_sec_ok d p c Hc) as (? & Ha); congruence
                   end
               end ] ]
    end.
  discriminate H.
Qed.

End Rates.

(** C7: when the smallest and the largest timestamp of the joined frame
    (those of the anchor frame) are equal, a returned dictionary has
    [duration_hours = 0.0] and the integer 0 for [zero_crossings_per_hour],
    [zero_crossings_per_minute] and the three [cycles_XXXbp_per_hour]: no
    division is attempted.  Whatever the duration, a threshold whose cycle
    count is 0 has the integer 0 as its average cycle duration.  And on no
    input does a division of the body meet a zero divisor: the body never
    raises [ZeroDivisionError] (on frames of fewer than [2^63] rows, the
    range of the counts converted to floats). *)
Theorem C7_zero_duration_rates :
  forall (symbol ex1 ex2 : string) (data1 data2 : list Tick.t)
         (thresholds : option (list float)) (zero_threshold : float),
    (Z.of_nat (length data1) < 2 ^ 63 ->
     forall e : exc,
       analyze_joined (join_asof data1 data2) thresholds zero_threshold = Raise e ->
       e <> ZeroDivisionError)
    /\ forall r : dict,
      analyze_pair_fast symbol ex1 ex2 data1 data2 thresholds zero_threshold = Some r ->
      (Polars.min_time (map Joined.timestamp (join_asof data1 data2))
       = Polars.max_time (map Joined.timestamp (join_asof data1 data2)) ->
       get r "duration_hours" = Some (VFloat 0)
       /\ get r "zero_crossings_per_hour" = Some (VInt 0)
       /\ get r "zero_crossings_per_minute" = Some (VInt 0)
       /\ get r "cycles_030bp_per_hour" = Some (VInt 0)
       /\ get r "cycles_050bp_per_hour" = Some (VInt 0)
       /\ get r "cycles_040bp_per_hour" = Some (VInt 0))
      /\ (get r "opportunity_cycles_030bp" = Some (VInt 0) ->
          get r "avg_cycle_duration_030bp_sec" = Some (VInt 0))
      /\ (get r "opportunity_cycles_050bp" = Some (VInt 0) ->
          get r "avg_cycle_duration_050bp_sec" = Some (VInt 0))
      /\ (get r "opportunity_cycles_040bp" = Some (VInt 0) ->
          get r "avg_cycle_duration_040bp_sec" = Some (VInt 0)).
Proof.
  intros symbol ex1 ex2 data1 data2 thresholds zero_threshold.
  split.
  { intros Hlen e. apply analyze_joined_raises. rewrite join_asof_length. exact Hlen. }
  intros r H.
  destruct (analyze_pair_fast_inv _ _ _ _ _ _ _ _ H) as (_ & t & Hrun & ->).
  unfold runs_with in Hrun. cbv zeta in Hrun.
  destruct Hrun as (_ & _ & _ & Hdelta & Hdur & Hzh & Hzm & _ & _ & _
                    & (A0 & A1 & A2) & _ & (H0 & H1 & H2)).
  destruct (get_threshold_fields (join_asof data1 data2) t)
    as ((F0 & F0h & _ & F0a & _) & (F1 & F1h & _ & F1a & _) & (F2 & F2h & _ & F2a & _)).
  destruct (get_global_fields (join_asof data1 data2) t)
    as (_ & _ & _ & _ & Gh & Gm & _ & Gd).
  split; [| split; [| split]].
  - intros Hsame. rewrite Hsame in Hdelta.
    apply sub_time_same in Hdelta. rewrite Hdelta in Hdur.
    apply duration_of_zero in Hdur. rewrite Hdur in *.
    apply per_hour_zero_duration in Hzh, H0, H1, H2.
    apply per_minute_zero_duration in Hzm.
    rewrite Gd, Gh, Gm, F0h, F1h, F2h, Hzh, Hzm, H0, H1, H2.
    repeat split; reflexivity.
  - rewrite F0, F0a. intros Hc. injection Hc as Hc. rewrite Hc in A0.
    apply avg_duration_no_cycle in A0. rewrite A0. reflexivity.
  - rewrite F1, F1a. intros Hc. injection Hc as Hc. rewrite Hc in A1.
    apply avg_duration_no_cycle in A1. rewrite A1. reflexivity.
  - rewrite F2, F2a. intros Hc. injection Hc as Hc. rewrite Hc in A2.
    apply avg_duration_no_cycle in A2. rewrite A2. reflexivity.
Qed.

(** One tick on each side, at the same instant, 1% apart. *)
Lemma C7_zero_duration_rates_witness :
  exists r : dict,
    analyze_pair_fast "SYM" "A" "B" (frame_of [101]%float) (frame_of [100]%float)
      None default_zero_threshold = Some r
    /\ get r "zero_crossings_per_hour" = Some (VInt 0)
    /\ get r "cycles_030bp_per_hour" = Some (VInt 0).
Proof.
  destruct (analyze_pair_fast "SYM" "A" "B" (frame_of [101]%float) (frame_of [100]%float)
              None default_zero_threshold) as [r |] eqn:E;
    [| vm_compute in E; discriminate E].
  exists r. split; [reflexivity |].
  destruct (proj2 (C7_zero_duration_rates "SYM" "A" "B" (frame_of [101]%float)
                     (frame_of [100]%float) None default_zero_threshold) r E)
    as [Hrates _].
  destruct (Hrates ltac:(vm_compute; reflexivity)) as (_ & Hh & _ & Hc & _).
  split; assumption.
Defined.

(** ** Deviation from parity *)

Section Parity.

(** The deviation of a row is the specification's formula: the division by
    [1.0] of the source changes no float. *)
Lemma row_deviation_formula (r : Joined.t) :
  row_deviation r
  = Polars.lift2 parity_deviation (Joined.bid_ex1 r) (Joined.bid_ex2 r).
Proof.
  unfold row_deviation, parity_deviation, Polars.lift2.
  destruct (Joined.bid_ex1 r), (Joined.bid_ex2 r); cbn [option_map]; try reflexivity.
  rewrite div_one. reflexivity.
Qed.

Lemma row_deviation_at_parity (r : Joined.t) :
  at_parity r -> row_deviation r = Some 0%float.
Proof.
  intros (x & H1 & H2 & Hx). unfold row_deviation. rewrite H1, H2.
  cbn [Polars.lift2 option_map]. rewrite (div_self x Hx). reflexivity.
Qed.

Lemma deviation_column_at_parity (joined : list Joined.t) :
  Forall at_parity joined ->
  deviation_column joined = repeat (Some 0%float) (length joined).
Proof.
  intros H. rewrite deviation_column_rows.
  induction H as [| r rest Hr _ IH]; [reflexivity |].
  cbn [map length repeat]. rewrite (row_deviation_at_parity r Hr), IH. reflexivity.
Qed.

Lemma drop_nulls_repeat {A : Type} (a : A) (n : nat) :
  Polars.drop_nulls (repeat (Some a) n) = repeat a n.
Proof. induction n as [| n IH]; cbn; [reflexivity | f_equal; exact IH]. Qed.

Lemma fold_left_repeat_fixed {A : Type} (f : A -> A -> A) (a : A) (n : nat) :
  f a a = a -> fold_left f (repeat a n) a = a.
Proof.
  intros Hf. induction n as [| n IH]; cbn; [reflexivity |]. rewrite Hf. exact IH.
Qed.

Lemma max_zeros (n : nat) : Polars.max (repeat (Some 0%float) (S n)) = Some 0%float.
Proof.
  unfold Polars.max. rewrite drop_nulls_repeat. cbn [repeat Polars.reduce].
  rewrite fold_left_repeat_fixed by reflexivity. reflexivity.
Qed.

Lemma min_zeros (n : nat) : Polars.min (repeat (Some 0%float) (S n)) = Some 0%float.
Proof.
  unfold Polars.min. rewrite drop_nulls_repeat. cbn [repeat Polars.reduce].
  rewrite fold_left_repeat_fixed by reflexivity. reflexivity.
Qed.

Lemma mean_zeros (n : nat) :
  Z.of_nat (S n) < 2 ^ 63 ->
  Polars.mean (repeat (Some 0%float) (S n)) = Some 0%float.
Proof.
  intros Hn. unfold Polars.mean, Polars.sum. rewrite drop_nulls_repeat.
  rewrite fold_left_repeat_fixed by reflexivity.
  change (repeat 0%float (S n)) with (0%float :: repeat 0%float n).
  cbv iota. f_equal.
  change (length (0%float :: repeat 0%float n)) with (length (repeat 0%float (S n))).
  rewrite repeat_length.
  apply zero_div_pos, float_of_int_pos. lia.
Qed.

Lemma last_repeat {A : Type} (a d : A) (n : nat) : last (repeat a (S n)) d = a.
Proof.
  induction n as [| n IH]; [reflexivity |].
  change (repeat a (S (S n))) with (a :: repeat a (S n)).
  cbn [last]. cbn [repeat] in *. exact IH.
Qed.

Lemma max_ignore_nan_same (x : float) : Polars.max_ignore_nan x x = x.
Proof.
  unfold Polars.max_ignore_nan. destruct (PrimFloat.is_nan x); [reflexivity |].
  destruct (x <? x)%float; reflexivity.
Qed.

Lemma min_ignore_nan_same (x : float) : Polars.min_ignore_nan x x = x.
Proof.
  unfold Polars.min_ignore_nan. destruct (PrimFloat.is_nan x); [reflexivity |].
  destruct (x <? x)%float; reflexivity.
Qed.

Lemma max_repeat (x : float) (n : nat) : Polars.max (repeat (Some x) (S n)) = Some x.
Proof.
  unfold Polars.max. rewrite drop_nulls_repeat. cbn [repeat Polars.reduce].
  rewrite fold_left_repeat_fixed by apply max_ignore_nan_same. reflexivity.
Qed.

Lemma min_repeat (x : float) (n : nat) : Polars.min (repeat (Some x) (S n)) = Some x.
Proof.
  unfold Polars.min. rewrite drop_nulls_repeat. cbn [repeat Polars.reduce].
  rewrite fold_left_repeat_fixed by apply min_ignore_nan_same. reflexivity.
Qed.

End Parity.

Ltac sorted_by_time :=
  repeat (apply SSorted_cons || apply SSorted_nil || apply Forall_cons || apply Forall_nil);
  unfold time_le, minute; cbn; lia.

(** C1: the deviation of every joined row is [(bid_ex1 / bid_ex2 - 1.0) * 100],
    a function of that row's two bids alone and of no mean of the series, and
    the record is built from these values: its [max_deviation_pct],
    [min_deviation_pct] and [deviation_asymmetry] are the maximum, the minimum
    and the mean of the per-row deviations from parity, and a record is
    returned for sorted frames whose last row has a deviation, given three
    thresholds.  When every row carries the same two bids [b1] and [b2],
    whose ratio is then also the mean ratio, maximum and minimum are
    [(b1 / b2 - 1.0) * 100] and not 0.  When the two bids of every row are one
    and the same price (a finite nonzero float, whatever its level from row
    to row), every deviation is exactly 0 and so are the three aggregates.
    The frame has fewer than [2^63] rows, the range of the row count that
    [mean] divides by. *)
Theorem C1_deviation_from_parity :
  forall (symbol ex1 ex2 : string) (data1 data2 : list Tick.t)
         (thresholds : option (list float)) (zero_threshold : float),
    let joined := join_asof data1 data2 in
    let parity :=
      map (fun j => Polars.lift2 parity_deviation (Joined.bid_ex1 j) (Joined.bid_ex2 j))
          joined in
    deviation_column joined = parity
    /\ (forall r : dict,
           analyze_pair_fast symbol ex1 ex2 data1 data2 thresholds zero_threshold = Some r ->
           exists vmax vmin vmean : float,
             Polars.max parity = Some vmax
             /\ Polars.min parity = Some vmin
             /\ Polars.mean parity = Some vmean
             /\ get r "max_deviation_pct" = Some (VFloat vmax)
             /\ get r "min_deviation_pct" = Some (VFloat vmin)
             /\ get r "deviation_asymmetry" = Some (VFloat vmean))
    /\ (StronglySorted time_le data1 ->
        StronglySorted time_le data2 ->
        (exists d, last parity None = Some d) ->
        (3 <= length (effective_thresholds thresholds))%nat ->
        Z.of_nat (length joined) < 2 ^ 63 ->
        exists r : dict,
          analyze_pair_fast symbol ex1 ex2 data1 data2 thresholds zero_threshold = Some r)
    /\ (forall (b1 b2 : float) (r : dict),
           Forall (fun j => Joined.bid_ex1 j = Some b1 /\ Joined.bid_ex2 j = Some b2) joined ->
           analyze_pair_fast symbol ex1 ex2 data1 data2 thresholds zero_threshold = Some r ->
           get r "max_deviation_pct" = Some (VFloat (parity_deviation b1 b2))
           /\ get r "min_deviation_pct" = Some (VFloat (parity_deviation b1 b2)))
    /\ (Forall at_parity joined ->
        Z.of_nat (length joined) < 2 ^ 63 ->
        Forall (fun d => d = Some 0%float) (deviation_column joined)
        /\ (forall r : dict,
               analyze_pair_fast symbol ex1 ex2 data1 data2 thresholds zero_threshold
               = Some r ->
               get r "max_deviation_pct" = Some (VFloat 0)
               /\ get r "min_deviation_pct" = Some (VFloat 0)
               /\ get r "deviation_asymmetry" = Some (VFloat 0))
        /\ (StronglySorted time_le data1 ->
            StronglySorted time_le data2 ->
            joined <> [] ->
            (3 <= length (effective_thresholds thresholds))%nat ->
            exists r : dict,
              analyze_pair_fast symbol ex1 ex2 data1 data2 thresholds zero_threshold
              = Some r)).
Proof.
  intros symbol ex1 ex2 data1 data2 thresholds zero_threshold joined parity.
  assert (Hformula : deviation_column joined = parity).
  { rewrite deviation_column_rows. apply map_ext. intros j. apply row_deviation_formula. }
  assert (Hfields :
            forall r : dict,
              analyze_pair_fast symbol ex1 ex2 data1 data2 thresholds zero_threshold
              = Some r ->
              exists vmax vmin vmean : float,
                Polars.max (deviation_column joined) = Some vmax
                /\ Polars.min (deviation_column joined) = Some vmin
                /\ Polars.mean (deviation_column joined) = Some vmean
                /\ get r "max_deviation_pct" = Some (VFloat vmax)
                /\ get r "min_deviation_pct" = Some (VFloat vmin)
                /\ get r "deviation_asymmetry" = Some (VFloat vmean)).
  { intros r H.
    destruct (analyze_pair_fast_inv _ _ _ _ _ _ _ _ H) as (_ & t & Hrun & ->).
    fold joined in Hrun |- *.
    unfold runs_with in Hrun. cbv zeta in Hrun.
    destruct Hrun as (Hmax & Hmin & Hmean & _).
    destruct (get_global_fields joined t) as (G1 & G2 & G3 & _).
    exists (t_max t), (t_min t), (t_mean t). repeat split; assumption. }
  assert (Hexists :
            StronglySorted time_le data1 ->
            StronglySorted time_le data2 ->
            forall d : float,
              last (deviation_column joined) None = Some d ->
              (3 <= length (effective_thresholds thresholds))%nat ->
              Z.of_nat (length joined) < 2 ^ 63 ->
              exists r : dict,
                analyze_pair_fast symbol ex1 ex2 data1 data2 thresholds zero_threshold
                = Some r).
  { intros Hs1 Hs2 d Hlast Hth Hlen.
    destruct (analyze_joined_succeeds joined thresholds zero_threshold d Hlast Hth Hlen)
      as (t & _ & Hok).
    exists (dict_of joined t).
    rewrite (analyze_pair_fast_joined _ _ _ _ _ _ _ Hs1 Hs2). fold joined. rewrite Hok.
    reflexivity. }
  split; [exact Hformula |].
  split; [rewrite <- Hformula; exact Hfields |].
  split.
  { intros Hs1 Hs2 [d Hlast] Hth Hlen. rewrite <- Hformula in Hlast. eauto. }
  split.
  { intros b1 b2 r Hall H.
    assert (Hdev : deviation_column joined
                   = repeat (Some (parity_deviation b1 b2)) (length joined)).
    { rewrite Hformula. unfold parity. clear - Hall.
      induction Hall as [| j rest [E1 E2] _ IH]; [reflexivity |].
      cbn [map length repeat]. rewrite E1, E2, IH. reflexivity. }
    destruct (analyze_pair_fast_inv _ _ _ _ _ _ _ _ H) as (Hne & _).
    fold joined in Hne.
    destruct (Hfields r H) as (vmax & vmin & _ & Hmax & Hmin & _ & G1 & G2 & _).
    rewrite Hdev in Hmax, Hmin.
    destruct (length joined) as [| n] eqn:En;
      [destruct joined; [contradiction | discriminate En] |].
    rewrite max_repeat in Hmax. rewrite min_repeat in Hmin.
    split; congruence. }
  intros Hpar Hlen.
  pose proof (deviation_column_at_parity joined Hpar) as Hdev.
  split; [| split].
  - rewrite Hdev. apply Forall_forall. intros d Hd.
    apply repeat_spec in Hd. exact Hd.
  - intros r H.
    destruct (analyze_pair_fast_inv _ _ _ _ _ _ _ _ H) as (Hne & _).
    fold joined in Hne.
    destruct (Hfields r H) as (vmax & vmin & vmean & Hmax & Hmin & Hmean & G1 & G2 & G3).
    rewrite Hdev in Hmax, Hmin, Hmean.
    destruct (length joined) as [| n] eqn:En;
      [destruct joined; [contradiction | discriminate En] |].
    rewrite max_zeros in Hmax. rewrite min_zeros in Hmin.
    rewrite mean_zeros in Hmean by exact Hlen.
    repeat split; congruence.
  - intros Hs1 Hs2 Hne Hth.
    assert (Hlast : last (deviation_column joined) None = Some 0%float).
    { rewrite Hdev. destruct (length joined) as [| n] eqn:En;
        [destruct joined; [contradiction | discriminate En] |].
      apply last_repeat. }
    eauto.
Qed.

(** An anchor that stays one percent above a flat secondary: the mean ratio
    is the ratio of every row, and maximum and minimum are the deviation
    from parity, about 1, not 0.  Both exchanges quoting the same price
    while it moves from 100 to 7000 and down to 0.001: all three aggregates
    are 0. *)
Lemma C1_deviation_from_parity_witness :
  (exists r : dict,
      analyze_pair_fast "SYM" "A" "B" premium_frame flat_frame None default_zero_threshold
      = Some r
      /\ get r "max_deviation_pct" = Some (VFloat 1.0000000000000009)
      /\ get r "min_deviation_pct" = Some (VFloat 1.0000000000000009))
  /\ (exists r : dict,
         analyze_pair_fast "SYM" "A" "B" trend_frame trend_frame None default_zero_threshold
         = Some r
         /\ get r "max_deviation_pct" = Some (VFloat 0)
         /\ get r "min_deviation_pct" = Some (VFloat 0)
         /\ get r "deviation_asymmetry" = Some (VFloat 0)).
Proof.
  split.
  - destruct (C1_deviation_from_parity "SYM" "A" "B" premium_frame flat_frame None
                default_zero_threshold) as (_ & _ & Hex & Hconst & _).
    destruct Hex as [r Hr].
    + unfold premium_frame, frame_of. cbn [length seq combine map]. sorted_by_time.
    + unfold flat_frame, frame_of. cbn [length seq combine map]. sorted_by_time.
    + eexists. vm_compute. reflexivity.
    + vm_compute. lia.
    + vm_compute. reflexivity.
    + exists r. split; [exact Hr |].
      refine (Hconst 101%float 100%float r _ Hr).
      vm_compute. repeat (apply Forall_cons || apply Forall_nil); split; reflexivity.
  - destruct (C1_deviation_from_parity "SYM" "A" "B" trend_frame trend_frame None
                default_zero_threshold) as (_ & _ & _ & _ & Hpar).
    destruct Hpar as (_ & Hfields & Hex).
    + vm_compute.
      repeat (apply Forall_cons || apply Forall_nil);
        (eexists; split; [reflexivity | split; reflexivity]).
    + vm_compute. reflexivity.
    + destruct Hex as [r Hr].
      * unfold trend_frame, frame_of. cbn [length seq combine map]. sorted_by_time.
      * unfold trend_frame, frame_of. cbn [length seq combine map]. sorted_by_time.
      * vm_compute. discriminate.
      * vm_compute. lia.
      * exists r. split; [exact Hr | exact (Hfields r Hr)].
Defined.

(** ** Null and zero denominators *)

Section Denominators.

Lemma drop_nulls_skip {A : Type} (s1 s2 : Polars.series A) :
  Polars.drop_nulls (s1 ++ None :: s2) = Polars.drop_nulls (s1 ++ s2).
Proof. rewrite !drop_nulls_app. reflexivity. Qed.

Lemma row_deviation_null (r : Joined.t) :
  Joined.bid_ex2 r = None -> row_deviation r = None.
Proof.
  intros H. unfold row_deviation. rewrite H.
  destruct (Joined.bid_ex1 r); reflexivity.
Qed.

Lemma deviation_column_split (pre post : list Joined.t) (row : Joined.t) :
  Joined.bid_ex2 row = None ->
  deviation_column (pre ++ row :: post)
  = deviation_column pre ++ None :: deviation_column post.
Proof.
  intros H. rewrite !deviation_column_rows, map_app. cbn [map].
  rewrite (row_deviation_null row H). reflexivity.
Qed.

Lemma deviation_column_app (pre post : list Joined.t) :
  deviation_column (pre ++ post) = deviation_column pre ++ deviation_column post.
Proof. rewrite !deviation_column_rows. apply map_app. Qed.

Lemma max_skip_null (s1 s2 : Polars.series float) :
  Polars.max (s1 ++ None :: s2) = Polars.max (s1 ++ s2).
Proof. unfold Polars.max. rewrite drop_nulls_skip. reflexivity. Qed.

Lemma min_skip_null (s1 s2 : Polars.series float) :
  Polars.min (s1 ++ None :: s2) = Polars.min (s1 ++ s2).
Proof. unfold Polars.min. rewrite drop_nulls_skip. reflexivity. Qed.

Lemma mean_skip_null (s1 s2 : Polars.series float) :
  Polars.mean (s1 ++ None :: s2) = Polars.mean (s1 ++ s2).
Proof. unfold Polars.mean, Polars.sum. rewrite drop_nulls_skip. reflexivity. Qed.

Lemma pct_skip_null (s1 s2 : Polars.series float) (threshold : float) :
  pct_time_above (above_column (s1 ++ None :: s2) threshold)
  = pct_time_above (above_column (s1 ++ s2) threshold).
Proof.
  unfold pct_time_above, Polars.mean_bool, Polars.sum_bool, above_column, Polars.map_values.
  rewrite !map_app. cbn [map option_map]. rewrite drop_nulls_skip. reflexivity.
Qed.

(** A row with null flags leaves the scan where it is. *)
Lemma cycles_skip_null (s1 s2 : Polars.series float) (threshold zero_threshold : float) :
  count_complete_cycles (above_column (s1 ++ None :: s2) threshold)
                        (neutral_column (s1 ++ None :: s2) zero_threshold)
  = count_complete_cycles (above_column (s1 ++ s2) threshold)
                          (neutral_column (s1 ++ s2) zero_threshold).
Proof.
  destruct (flag_columns_rows (s1 ++ None :: s2) threshold zero_threshold) as [-> ->].
  destruct (flag_columns_rows (s1 ++ s2) threshold zero_threshold) as [-> ->].
  rewrite !count_complete_cycles_rows. do 2 f_equal.
  unfold rows_of. rewrite !map_app. cbn [map option_map fst snd truthy].
  rewrite !scan_rows_app. reflexivity.
Qed.

Lemma crossing_at_null (deviation : Polars.series float) (i : nat) :
  nth_error deviation i = Some None ->
  crossing_at deviation i = false /\ crossing_at deviation (S i) = false.
Proof.
  intros H. split.
  - unfold crossing_at. destruct i; [reflexivity |]. rewrite H. reflexivity.
  - unfold crossing_at. rewrite H.
    destruct (nth_error deviation (S i)) as [[c |] |]; reflexivity.
Qed.

(** A division by a zero of either sign gives an infinity or NaN. *)
Lemma div_zero_cases (x z : float) :
  PrimFloat.is_zero z = true ->
  (x / z)%float = infinity \/ (x / z)%float = neg_infinity \/ (x / z)%float = nan.
Proof.
  intros Hz.
  assert (H : exists c, Prim2SF (x / z) = c
                        /\ (c = S754_infinity false \/ c = S754_infinity true
                            \/ c = S754_nan)).
  { rewrite FloatAxioms.div_spec.
    destruct (is_zero_cases z Hz) as [-> | ->].
    - change (Prim2SF 0) with (S754_zero false).
      destruct (Prim2SF x) as [s | [] | | [] m e]; cbn; eauto.
    - change (Prim2SF (-0)) with (S754_zero true).
      destruct (Prim2SF x) as [s | [] | | [] m e]; cbn; eauto. }
  destruct H as (c & Hc & Hcases).
  rewrite <- (SF2Prim_Prim2SF (x / z)), Hc.
  destruct Hcases as [-> | [-> | ->]]; auto.
Qed.

(** With a zero denominator the deviation is defined and is not finite. *)
Lemma row_deviation_zero_denominator (r : Joined.t) (x z : float) :
  Joined.bid_ex1 r = Some x ->
  Joined.bid_ex2 r = Some z ->
  PrimFloat.is_zero z = true ->
  exists d, row_deviation r = Some d /\ PrimFloat.is_finite d = false.
Proof.
  intros H1 H2 Hz. unfold row_deviation. rewrite H1, H2.
  cbn [Polars.lift2 option_map]. eexists. split; [reflexivity |].
  destruct (div_zero_cases x z Hz) as [-> | [-> | ->]]; reflexivity.
Qed.

Lemma filter_map_length {A B : Type} (f : B -> bool) (g : A -> B) (l : list A) :
  length (filter f (map g l)) = length (filter (fun x => f (g x)) l).
Proof.
  induction l as [| x l IH]; [reflexivity |].
  cbn [map filter]. destruct (f (g x)); cbn [length]; rewrite IH; reflexivity.
Qed.

(** A null row is no crossing and hides the one between its neighbours. *)
Lemma count_crossings_skip_null (s1 s2 : Polars.series float) :
  count_crossings (s1 ++ None :: s2)
  + (if crossing_at (s1 ++ s2) (length s1) then 1 else 0)
  = count_crossings (s1 ++ s2).
Proof.
  unfold count_crossings. rewrite !length_app. cbn [length].
  pose proof (length_app s1 s2) as HOlen.
  remember (s1 ++ None :: s2) as D eqn:ED. remember (s1 ++ s2) as O eqn:EO.
  assert (HD1 : forall i, (i < length s1)%nat -> nth_error D i = nth_error s1 i)
    by (intros i Hi; subst D; apply nth_error_app1; exact Hi).
  assert (HO1 : forall i, (i < length s1)%nat -> nth_error O i = nth_error s1 i)
    by (intros i Hi; subst O; apply nth_error_app1; exact Hi).
  assert (HDn : nth_error D (length s1) = Some None).
  { subst D. rewrite nth_error_app2 by lia. rewrite Nat.sub_diag. reflexivity. }
  assert (HD2 : forall j, (length s1 <= j)%nat -> nth_error D (S j) = nth_error O j).
  { intros j Hj. subst D O. rewrite !nth_error_app2 by lia.
    replace (S j - length s1)%nat with (S (j - length s1)) by lia. reflexivity. }
  clear ED EO.
  remember (length s1) as n1 eqn:En1. remember (length s2) as n2 eqn:En2.
  clear En1 En2.
  replace (n1 + S n2)%nat with (n1 + 1 + n2)%nat by lia.
  rewrite !seq_app, !filter_app, !length_app.
  assert (EA : filter (crossing_at D) (seq 0 n1) = filter (crossing_at O) (seq 0 n1)).
  { apply filter_ext_in. intros i Hi. apply in_seq in Hi.
    unfold crossing_at. destruct i as [| j]; [reflexivity |].
    rewrite (HD1 (S j)), (HD1 j), (HO1 (S j)), (HO1 j) by lia. reflexivity. }
  rewrite EA.
  assert (EB : filter (crossing_at D) (seq (0 + n1) 1) = []).
  { cbn [seq filter Nat.add]. rewrite (proj1 (crossing_at_null D n1 HDn)). reflexivity. }
  rewrite EB. cbn [length].
  assert (EC : Z.of_nat (length (filter (crossing_at D) (seq (0 + n1 + 1) n2)))
               + (if crossing_at O n1 then 1 else 0)
               = Z.of_nat (length (filter (crossing_at O) (seq (0 + n1) n2)))).
  { replace (0 + n1 + 1)%nat with (S n1) by lia. cbn [Nat.add].
    rewrite <- seq_shift, filter_map_length.
    destruct n2 as [| m].
    - cbn [seq filter length].
      assert (E : crossing_at O n1 = false).
      { unfold crossing_at. destruct n1 as [| k]; [reflexivity |].
        assert (Hn : nth_error O (S k) = None) by (apply nth_error_None; lia).
        rewrite Hn. reflexivity. }
      rewrite E. reflexivity.
    - cbn [seq filter].
      rewrite (proj2 (crossing_at_null D n1 HDn)).
      assert (ET : filter (fun x => crossing_at D (S x)) (seq (S n1) m)
                   = filter (crossing_at O) (seq (S n1) m)).
      { apply filter_ext_in. intros j Hj. apply in_seq in Hj.
        unfold crossing_at. destruct j as [| k]; [lia |].
        rewrite (HD2 (S k)), (HD2 k) by lia. reflexivity. }
      rewrite ET. destruct (crossing_at O n1); cbn [length]; lia. }
  replace (0 + (n1 + 1))%nat with (0 + n1 + 1)%nat by lia.
  destruct (crossing_at O n1); lia.
Qed.

End Denominators.

Section Returned.

Lemma runs_with_last (joined : list Joined.t) (thresholds : option (list float))
      (zero_threshold : float) (t : trace) :
  runs_with joined thresholds zero_threshold t ->
  last (deviation_column joined) None = Some (t_last t)
  /\ (3 <= length (effective_thresholds thresholds))%nat.
Proof.
  unfold runs_with. cbv zeta.
  intros (_ & _ & _ & _ & _ & _ & _ & (_ & _ & G2) & _ & _ & _ & L & _).
  split; [exact L |].
  fold (effective_thresholds thresholds) in G2.
  assert (H : nth_error (effective_thresholds thresholds) 2 <> None) by congruence.
  apply nth_error_Some in H. lia.
Qed.

End Returned.

(** C5, as the code has it.  A joined row whose [bid_ex2] is null has a null
    deviation.  [max], [min] and [mean] of the deviation, the cycle count and
    the share of time above each threshold are those of the series without
    that row, and so are the fields of the record computed from them.  For
    [zero_crossings] the row is not left out: it is no crossing and the row
    after it is none either, so that the count is that of the series without
    the row, less one when the rows before and after it flip sign.  A null
    row in the last position leaves no record; elsewhere the series still
    yields one whenever its last deviation is defined.  A zero [bid_ex2] is
    not guarded: the deviation of such a row is defined and is an infinity
    or NaN. *)
Theorem C5_null_denominator_excluded :
  forall (pre post : list Joined.t) (row : Joined.t)
         (thresholds : option (list float)) (zero_threshold : float),
    Joined.bid_ex2 row = None ->
    let joined := pre ++ row :: post in
    let deviation := deviation_column joined in
    let others := deviation_column (pre ++ post) in
    let hidden : Z := if crossing_at others (length pre) then 1 else 0 in
    row_deviation row = None
    /\ nth_error deviation (length pre) = Some None
    /\ (Polars.max deviation = Polars.max others
        /\ Polars.min deviation = Polars.min others
        /\ Polars.mean deviation = Polars.mean others)
    /\ (crossing_at deviation (length pre) = false
        /\ crossing_at deviation (S (length pre)) = false
        /\ count_crossings deviation + hidden = count_crossings others)
    /\ (forall th : float,
           count_complete_cycles (above_column deviation th)
                                 (neutral_column deviation zero_threshold)
           = count_complete_cycles (above_column others th)
                                   (neutral_column others zero_threshold)
           /\ pct_time_above (above_column deviation th)
              = pct_time_above (above_column others th))
    /\ (forall r r' : dict,
           analyze_joined joined thresholds zero_threshold = Ok (Some r) ->
           analyze_joined (pre ++ post) thresholds zero_threshold = Ok (Some r') ->
           Forall (fun k => get r k = get r' k)
                  [ "max_deviation_pct"; "min_deviation_pct"; "deviation_asymmetry";
                    "opportunity_cycles_030bp"; "opportunity_cycles_050bp";
                    "opportunity_cycles_040bp"; "pct_time_above_030bp";
                    "pct_time_above_050bp"; "pct_time_above_040bp" ]%string
           /\ exists z : Z,
               get r "zero_crossings" = Some (VInt z)
               /\ get r' "zero_crossings" = Some (VInt (z + hidden)))
    /\ (forall d : float,
           last deviation None = Some d ->
           (3 <= length (effective_thresholds thresholds))%nat ->
           Z.of_nat (length joined) < 2 ^ 63 ->
           exists r : dict, analyze_joined joined thresholds zero_threshold = Ok (Some r))
    /\ (post = [] ->
        forall r : dict, analyze_joined joined thresholds zero_threshold <> Ok (Some r))
    /\ (forall (zrow : Joined.t) (x z : float),
           Joined.bid_ex1 zrow = Some x ->
           Joined.bid_ex2 zrow = Some z ->
           PrimFloat.is_zero z = true ->
           exists d, row_deviation zrow = Some d /\ PrimFloat.is_finite d = false).
Proof.
  intros pre post row thresholds zero_threshold Hnull joined deviation others hidden.
  assert (Hdev : deviation = deviation_column pre ++ None :: deviation_column post)
    by (apply deviation_column_split; exact Hnull).
  assert (Hoth : others = deviation_column pre ++ deviation_column post)
    by (apply deviation_column_app).
  assert (Hl : length (deviation_column pre) = length pre)
    by (rewrite deviation_column_rows; apply length_map).
  assert (Hnth : nth_error deviation (length pre) = Some None).
  { rewrite Hdev, nth_error_app2 by lia.
    rewrite Hl, Nat.sub_diag. reflexivity. }
  assert (Hcount : count_crossings deviation + hidden = count_crossings others).
  { unfold hidden. rewrite Hdev, Hoth, <- Hl. apply count_crossings_skip_null. }
  assert (Hcols : forall th : float,
             count_complete_cycles (above_column deviation th)
                                   (neutral_column deviation zero_threshold)
             = count_complete_cycles (above_column others th)
                                     (neutral_column others zero_threshold)
             /\ pct_time_above (above_column deviation th)
                = pct_time_above (above_column others th)).
  { intros th. rewrite Hdev, Hoth. split; [apply cycles_skip_null | apply pct_skip_null]. }
  assert (Hagg : Polars.max deviation = Polars.max others
                 /\ Polars.min deviation = Polars.min others
                 /\ Polars.mean deviation = Polars.mean others).
  { rewrite Hdev, Hoth.
    split; [apply max_skip_null | split; [apply min_skip_null | apply mean_skip_null]]. }
  split; [apply row_deviation_null; exact Hnull |].
  split; [exact Hnth |].
  split; [exact Hagg |].
  split; [destruct (crossing_at_null deviation (length pre) Hnth); auto |].
  split; [exact Hcols |].
  split; [| split; [| split]].
  - intros r r' Hr Hr'.
    destruct (analyze_joined_inv _ _ _ _ Hr) as (_ & t & Hrun & ->).
    destruct (analyze_joined_inv _ _ _ _ Hr') as (_ & t' & Hrun' & ->).
    unfold runs_with in Hrun, Hrun'. cbv zeta in Hrun, Hrun'.
    fold joined in Hrun. fold deviation in Hrun. fold others in Hrun'.
    destruct Hrun as (Hmax & Hmin & Hmean & _ & _ & _ & _ & (G0 & G1 & G2)
                      & (C0 & C1 & C2) & (P0 & P1 & P2) & _).
    destruct Hrun' as (Hmax' & Hmin' & Hmean' & _ & _ & _ & _ & (G0' & G1' & G2')
                       & (C0' & C1' & C2') & (P0' & P1' & P2') & _).
    destruct Hagg as (Ea & Eb & Ec).
    rewrite Ea in Hmax. rewrite Eb in Hmin. rewrite Ec in Hmean.
    assert (E0 : t_th0 t = t_th0 t') by congruence.
    assert (E1 : t_th1 t = t_th1 t') by congruence.
    assert (E2 : t_th2 t = t_th2 t') by congruence.
    destruct (Hcols (t_th0 t)) as [Hc0 Hp0].
    destruct (Hcols (t_th1 t)) as [Hc1 Hp1].
    destruct (Hcols (t_th2 t)) as [Hc2 Hp2].
    rewrite Hc0, E0 in C0. rewrite Hc1, E1 in C1. rewrite Hc2, E2 in C2.
    rewrite Hp0, E0 in P0. rewrite Hp1, E1 in P1. rewrite Hp2, E2 in P2.
    destruct (get_global_fields joined t) as (A1 & A2 & A3 & A4 & _).
    destruct (get_global_fields (pre ++ post) t') as (A1' & A2' & A3' & A4' & _).
    destruct (get_threshold_fields joined t)
      as ((F0 & _ & F0p & _) & (F1 & _ & F1p & _) & (F2 & _ & F2p & _)).
    destruct (get_threshold_fields (pre ++ post) t')
      as ((F0' & _ & F0p' & _) & (F1' & _ & F1p' & _) & (F2' & _ & F2p' & _)).
    split.
    + repeat (apply Forall_cons || apply Forall_nil).
      * rewrite A1, A1'. congruence.
      * rewrite A2, A2'. congruence.
      * rewrite A3, A3'. congruence.
      * rewrite F0, F0'. congruence.
      * rewrite F1, F1'. congruence.
      * rewrite F2, F2'. congruence.
      * rewrite F0p, F0p'. congruence.
      * rewrite F1p, F1p'. congruence.
      * rewrite F2p, F2p'. congruence.
    + exists (count_crossings deviation). split.
      * rewrite A4. fold deviation. rewrite sum_bool_crossed. reflexivity.
      * rewrite A4'. fold others. rewrite sum_bool_crossed, Hcount. reflexivity.
  - intros d Hlast Hth Hlen.
    destruct (analyze_joined_succeeds joined thresholds zero_threshold d Hlast Hth Hlen)
      as (t & _ & Hok).
    eauto.
  - intros Hpost r Hr.
    destruct (analyze_joined_inv _ _ _ _ Hr) as (_ & t & Hrun & _).
    destruct (runs_with_last _ _ _ _ Hrun) as [L _].
    fold joined in L. fold deviation in L.
    rewrite Hdev, Hpost in L. cbn [deviation_column ratio_column Polars.map_values map] in L.
    rewrite last_last in L. discriminate L.
  - intros zrow x z. apply row_deviation_zero_denominator.
Qed.

(** An anchor row before the first secondary tick: its denominator is null
    and the maximum is that of the row after it. *)
Lemma C5_null_denominator_excluded_witness :
  Polars.max (deviation_column
                [ Joined.mk 0 (Some 100%float) None None None;
                  Joined.mk minute (Some 101%float) None (Some 100%float) None ])
  = Polars.max (deviation_column
                  [ Joined.mk minute (Some 101%float) None (Some 100%float) None ]).
Proof.
  destruct (C5_null_denominator_excluded
              [] [ Joined.mk minute (Some 101%float) None (Some 100%float) None ]
              (Joined.mk 0 (Some 100%float) None None None)
              None default_zero_threshold eq_refl)
    as (_ & _ & (Hmax & _) & _).
  exact Hmax.
Defined.

(** C5 as the specification states it fails in three ways.  A zero
    denominator: the second secondary bid is 0 while every other price is
    100; the deviation of that row is defined (it is [+infinity]) and it is
    not left out of the aggregates: the maximum and the mean are
    [+infinity], whereas the rows around it, analysed alone, give 0.  A null
    denominator in the last row: no record is returned, whereas the rows
    before it, analysed alone, give one.  A null denominator between a row
    above parity and a row below it: [zero_crossings] is 0, whereas the two
    rows around it, analysed alone, give 1. *)
Lemma C5_denominator_counterexample :
  (exists (row : Joined.t) (r r_others : dict),
      nth_error (join_asof three_flat_frame zero_bid_frame) 1 = Some row
      /\ Joined.bid_ex2 row = Some 0%float
      /\ row_deviation row = Some infinity
      /\ analyze_pair_fast "SYM" "A" "B" three_flat_frame zero_bid_frame None
           default_zero_threshold = Some r
      /\ get r "max_deviation_pct" = Some (VFloat infinity)
      /\ get r "deviation_asymmetry" = Some (VFloat infinity)
      /\ get r "pct_time_above_050bp" = Some (VFloat 33.333333333333329)
      /\ analyze_joined
           (firstn 1 (join_asof three_flat_frame zero_bid_frame)
            ++ skipn 2 (join_asof three_flat_frame zero_bid_frame))
           None default_zero_threshold = Ok (Some r_others)
      /\ get r_others "max_deviation_pct" = Some (VFloat 0)
      /\ get r_others "deviation_asymmetry" = Some (VFloat 0)
      /\ get r_others "pct_time_above_050bp" = Some (VFloat 0))
  /\ (exists (row : Joined.t) (r_others : dict),
         nth_error (join_asof three_flat_frame null_last_frame) 2 = Some row
         /\ Joined.bid_ex2 row = None
         /\ analyze_pair_fast "SYM" "A" "B" three_flat_frame null_last_frame None
              default_zero_threshold = None
         /\ analyze_joined (firstn 2 (join_asof three_flat_frame null_last_frame))
              None default_zero_threshold = Ok (Some r_others))
  /\ (exists (row : Joined.t) (r r_others : dict),
         nth_error (join_asof falling_frame null_mid_frame) 1 = Some row
         /\ Joined.bid_ex2 row = None
         /\ analyze_pair_fast "SYM" "A" "B" falling_frame null_mid_frame None
              default_zero_threshold = Some r
         /\ get r "zero_crossings" = Some (VInt 0)
         /\ analyze_joined
              (firstn 1 (join_asof falling_frame null_mid_frame)
               ++ skipn 2 (join_asof falling_frame null_mid_frame))
              None default_zero_threshold = Ok (Some r_others)
         /\ get r_others "zero_crossings" = Some (VInt 1)).
Proof.
  split; [| split].
  - eexists. eexists. eexists.
    split; [vm_compute; reflexivity |].
    split; [reflexivity |].
    split; [vm_compute; reflexivity |].
    split; [vm_compute; reflexivity |].
    split; [vm_compute; reflexivity |].
    split; [vm_compute; reflexivity |].
    split; [vm_compute; reflexivity |].
    split; [vm_compute; reflexivity |].
    split; [vm_compute; reflexivity |].
    split; vm_compute; reflexivity.
  - eexists. eexists.
    split; [vm_compute; reflexivity |].
    split; [reflexivity |].
    split; vm_compute; reflexivity.
  - eexists. eexists. eexists.
    split; [vm_compute; reflexivity |].
    split; [reflexivity |].
    split; [vm_compute; reflexivity |].
    split; [vm_compute; reflexivity |].
    split; vm_compute; reflexivity.
Qed.

(* ================================================================== *)
(** * Further properties of [lib/analysis.py] *)

(** ** [count_complete_cycles] on series of different lengths *)

Section CycleBounds.

Variables above neutral : bool_series.

(** From any index on, the loop either runs to the end, and then no falsy
    row of [above] lies past the end of [neutral], or stops with
    [IndexError] at such a row. *)
Lemma for_range_cycle_cases :
  forall (n k : nat) (st : scan_state),
    (k + n <= length above)%nat ->
    (exists st',
        for_range (cycle_body above neutral) (seq k n) st = Ok st'
        /\ forall i a, (k <= i < k + n)%nat -> nth_error above i = Some a ->
                       truthy a = false -> (i < length neutral)%nat)
    \/ (for_range (cycle_body above neutral) (seq k n) st = Raise IndexError
        /\ exists i a, (k <= i < k + n)%nat /\ nth_error above i = Some a
                       /\ truthy a = false /\ (length neutral <= i)%nat).
Proof.
  induction n as [| n IH]; intros k st Hk.
  - left. exists st. split; [reflexivity | intros; lia].
  - cbn [seq for_range].
    destruct (nth_error above k) as [a |] eqn:Ea;
      [| apply nth_error_None in Ea; lia].
    assert (Hbody : cycle_body above neutral k st
                    = if truthy a then Ok (mkScan (cycles st) true)
                      else match nth_error neutral k with
                           | Some nv => if truthy nv && was_above st
                                        then Ok (mkScan (cycles st + 1) false)
                                        else Ok st
                           | None => Raise IndexError
                           end).
    { unfold cycle_body, getitem. rewrite Ea. cbn [Py.bind].
      destruct (truthy a); [reflexivity |].
      destruct (nth_error neutral k); reflexivity. }
    rewrite Hbody. clear Hbody.
    destruct (truthy a) eqn:Ha.
    + cbn [Py.bind].
      destruct (IH (S k) (mkScan (cycles st) true) ltac:(lia))
        as [(st' & Hok & Hin) | (Hraise & i & b & Hi & Hb & Hf & Hlen)].
      * left. exists st'. split; [exact Hok |].
        intros i b Hi Hb Hf. destruct (Nat.eq_dec i k) as [-> | Hne].
        -- rewrite Ea in Hb. injection Hb as <-. congruence.
        -- apply (Hin i b); [lia | assumption | assumption].
      * right. split; [exact Hraise |]. exists i, b. repeat split; try assumption; lia.
    + destruct (nth_error neutral k) as [nv |] eqn:En.
      * assert (Hkn : (k < length neutral)%nat)
          by (apply nth_error_Some; congruence).
        assert (Hstep : exists st1,
                   (if truthy nv && was_above st
                    then Ok (mkScan (cycles st + 1) false) else Ok st) = Ok st1)
          by (destruct (truthy nv && was_above st); eauto).
        destruct Hstep as [st1 ->]. cbn [Py.bind].
        destruct (IH (S k) st1 ltac:(lia))
          as [(st' & Hok & Hin) | (Hraise & i & b & Hi & Hb & Hf & Hlen)].
        -- left. exists st'. split; [exact Hok |].
           intros i b Hi Hb Hf. destruct (Nat.eq_dec i k) as [-> | Hne];
             [exact Hkn | apply (Hin i b); [lia | assumption | assumption]].
        -- right. split; [exact Hraise |].
           exists i, b. repeat split; try assumption; lia.
      * right. split; [reflexivity |].
        exists k, a. apply nth_error_None in En. repeat split; try assumption; lia.
Qed.

Lemma for_range_ext {S : Type} (body body' : nat -> S -> result S) :
  forall (indices : list nat) (st : S),
    (forall i s, In i indices -> body i s = body' i s) ->
    for_range body indices st = for_range body' indices st.
Proof.
  induction indices as [| i rest IH]; intros st H; [reflexivity |].
  cbn [for_range]. rewrite (H i st (or_introl eq_refl)).
  destruct (body' i st) as [s |]; cbn [Py.bind]; [| reflexivity].
  apply IH. intros j s' Hj. apply H. right. exact Hj.
Qed.

End CycleBounds.

(** [count_complete_cycles] reads [neutral[i]] only on the rows where
    [above[i]] is falsy.  It raises [IndexError] exactly when such a row
    lies past the end of [neutral], and returns a count otherwise; the
    elements of [neutral] past the length of [above] are never read. *)
Theorem cycles_index_error_iff :
  forall above neutral : bool_series,
    (count_complete_cycles above neutral = Raise IndexError
     <-> exists i a, nth_error above i = Some a /\ truthy a = false
                     /\ (length neutral <= i)%nat)
    /\ ((exists c, count_complete_cycles above neutral = Ok c)
        \/ count_complete_cycles above neutral = Raise IndexError)
    /\ count_complete_cycles above neutral
       = count_complete_cycles above (firstn (length above) neutral).
Proof.
  intros above neutral.
  assert (Hcases := for_range_cycle_cases above neutral (length above) 0
                      (mkScan 0 false) ltac:(lia)).
  unfold count_complete_cycles. cbv zeta.
  split; [| split].
  - destruct Hcases as [(st' & -> & Hin) | (-> & i & a & Hi & Ha & Hf & Hlen)];
      cbn [Py.bind].
    + split; [discriminate |].
      intros (i & a & Ha & Hf & Hlen).
      assert (Hi : (i < length above)%nat) by (apply nth_error_Some; congruence).
      specialize (Hin i a ltac:(lia) Ha Hf). lia.
    + split; [| reflexivity]. intros _. exists i, a. auto.
  - destruct Hcases as [(st' & -> & _) | (-> & _)]; cbn [Py.bind]; eauto.
  - f_equal. apply for_range_ext. intros i s Hi. apply in_seq in Hi.
    unfold cycle_body, getitem.
    rewrite nth_error_firstn. destruct (Nat.ltb_spec i (length above)); [reflexivity | lia].
Qed.

Lemma cycles_index_error_iff_witness :
  count_complete_cycles [Some true; Some false; Some false] [Some true] = Raise IndexError.
Proof.
  apply (proj1 (cycles_index_error_iff [Some true; Some false; Some false] [Some true])).
  exists 1%nat, (Some false). repeat split. cbn [length]. lia.
Defined.

(** ** Which calls return a record *)

(** [analyze_pair_fast] returns a record exactly when both frames are
    sorted by timestamp (the join raises otherwise), the last joined row has
    a defined deviation (both of its bids are present) and at least three
    thresholds are in force; in every other case it returns [None].  Frames
    have fewer than [2^63] rows. *)
Theorem analyze_returns_record_iff :
  forall (symbol ex1 ex2 : string) (data1 data2 : list Tick.t)
         (thresholds : option (list float)) (zero_threshold : float),
    Z.of_nat (length data1) < 2 ^ 63 ->
    ((exists r, analyze_pair_fast symbol ex1 ex2 data1 data2 thresholds zero_threshold
                = Some r)
     <-> StronglySorted time_le data1
         /\ StronglySorted time_le data2
         /\ (exists d, last (deviation_column (join_asof data1 data2)) None = Some d)
         /\ (3 <= length (effective_thresholds thresholds))%nat)
    /\ (analyze_pair_fast symbol ex1 ex2 data1 data2 thresholds zero_threshold = None
        <-> ~ StronglySorted time_le data1
            \/ ~ StronglySorted time_le data2
            \/ last (deviation_column (join_asof data1 data2)) None = None
            \/ (length (effective_thresholds thresholds) < 3)%nat).
Proof.
  intros symbol ex1 ex2 data1 data2 thresholds zero_threshold Hlen.
  assert (Hiff :
            (exists r, analyze_pair_fast symbol ex1 ex2 data1 data2 thresholds
                         zero_threshold = Some r)
            <-> StronglySorted time_le data1
                /\ StronglySorted time_le data2
                /\ (exists d, last (deviation_column (join_asof data1 data2)) None = Some d)
                /\ (3 <= length (effective_thresholds thresholds))%nat).
  { split.
    - intros [r H].
      destruct (analyze_pair_fast_sorted _ _ _ _ _ _ _ _ H) as [Hs1 Hs2].
      destruct (analyze_pair_fast_inv _ _ _ _ _ _ _ _ H) as (_ & t & Hrun & _).
      destruct (runs_with_last _ _ _ _ Hrun) as [L Hth]. eauto.
    - intros (Hs1 & Hs2 & [d L] & Hth).
      destruct (analyze_joined_succeeds (join_asof data1 data2) thresholds zero_threshold
                  d L Hth ltac:(rewrite join_asof_length; exact Hlen))
        as (t & _ & Hok).
      exists (dict_of (join_asof data1 data2) t).
      rewrite (analyze_pair_fast_joined _ _ _ _ _ _ _ Hs1 Hs2), Hok. reflexivity. }
  split; [exact Hiff |].
  destruct (analyze_pair_fast symbol ex1 ex2 data1 data2 thresholds zero_threshold)
    as [r |] eqn:E.
  - split; [discriminate |].
    destruct (proj1 Hiff (ex_intro _ r eq_refl)) as (Hs1 & Hs2 & [d L] & Hth).
    intros [H | [H | [H | H]]]; [contradiction | contradiction | congruence | lia].
  - split; [| reflexivity]. intros _.
    destruct (is_sorted data1) eqn:E1;
      [| left; intros Hs; apply is_sorted_iff in Hs; congruence].
    destruct (is_sorted data2) eqn:E2;
      [| right; left; intros Hs; apply is_sorted_iff in Hs; congruence].
    apply is_sorted_iff in E1, E2.
    destruct (last (deviation_column (join_asof data1 data2)) None) as [d |] eqn:L;
      [| right; right; left; reflexivity].
    right. right. right.
    destruct (Nat.ltb_spec (length (effective_thresholds thresholds)) 3) as [H | H];
      [exact H |].
    destruct (proj2 Hiff (conj E1 (conj E2 (conj (ex_intro _ d eq_refl) H)))) as [r Hr].
    discriminate Hr.
Qed.

(** The swing frame against the flat one, with the default thresholds. *)
Lemma analyze_returns_record_iff_witness :
  exists r, analyze_pair_fast "SYM" "A" "B" swing_frame flat_frame None
              default_zero_threshold = Some r.
Proof.
  apply (analyze_returns_record_iff "SYM" "A" "B" swing_frame flat_frame None
           default_zero_threshold).
  - vm_compute. reflexivity.
  - split; [| split; [| split]].
    + unfold swing_frame, frame_of. cbn [length seq combine map]. sorted_by_time.
    + unfold flat_frame, frame_of. cbn [length seq combine map]. sorted_by_time.
    + eexists. vm_compute. reflexivity.
    + vm_compute. lia.
Defined.

(** Only the first three thresholds are read, and [None] stands for
    [[0.3, 0.5, 0.4]]: two calls whose threshold lists agree on their first
    three elements return the same result, be it a record or [None]. *)
Theorem only_three_thresholds_read :
  forall (symbol ex1 ex2 : string) (data1 data2 : list Tick.t)
         (thresholds thresholds' : option (list float)) (zero_threshold : float),
    firstn 3 (effective_thresholds thresholds)
    = firstn 3 (effective_thresholds thresholds') ->
    analyze_pair_fast symbol ex1 ex2 data1 data2 thresholds zero_threshold
    = analyze_pair_fast symbol ex1 ex2 data1 data2 thresholds' zero_threshold.
Proof.
  intros symbol ex1 ex2 data1 data2 thresholds thresholds' zero_threshold H.
  assert (Hget : forall i, (i < 3)%nat ->
                           getitem (effective_thresholds thresholds) i
                           = getitem (effective_thresholds thresholds') i).
  { intros i Hi. unfold getitem.
    assert (E : nth_error (firstn 3 (effective_thresholds thresholds)) i
                = nth_error (firstn 3 (effective_thresholds thresholds')) i)
      by (rewrite H; reflexivity).
    rewrite !nth_error_firstn in E.
    destruct (Nat.ltb_spec i 3); [| lia].
    rewrite E. reflexivity. }
  unfold analyze_pair_fast, analyze_joined.
  fold (effective_thresholds thresholds). fold (effective_thresholds thresholds').
  rewrite (Hget 0%nat), (Hget 1%nat), (Hget 2%nat) by lia.
  reflexivity.
Qed.

(** A fourth threshold changes nothing. *)
Lemma only_three_thresholds_read_witness :
  analyze_pair_fast "SYM" "A" "B" swing_frame flat_frame
    (Some [0.3; 0.5; 0.4; 0.9]%float) default_zero_threshold
  = analyze_pair_fast "SYM" "A" "B" swing_frame flat_frame None default_zero_threshold.
Proof.
  apply (only_three_thresholds_read "SYM" "A" "B" swing_frame flat_frame
           (Some [0.3; 0.5; 0.4; 0.9]%float) None default_zero_threshold).
  reflexivity.
Defined.

(** ** Bounds on the counts *)

Section CountBounds.

Lemma filter_length_le {A : Type} (f : A -> bool) (l : list A) :
  (length (filter f l) <= length l)%nat.
Proof.
  induction l as [| x l IH]; cbn; [lia |]. destruct (f x); cbn; lia.
Qed.

Lemma count_crossings_bound (deviation : Polars.series float) :
  0 <= count_crossings deviation
  /\ count_crossings deviation <= Z.max 0 (Z.of_nat (length deviation) - 1).
Proof.
  unfold count_crossings. split; [lia |].
  destruct (length deviation) as [| n]; [cbn; lia |].
  cbn [seq filter crossing_at].
  pose proof (filter_length_le (crossing_at deviation) (seq 1 n)) as H.
  rewrite length_seq in H. lia.
Qed.

(** A cycle takes two rows: one above the threshold, a later one in the
    neutral band. *)
Lemma scan_rows_two_rows_per_cycle :
  forall (rows : list (bool * bool)) (st : scan_state),
    2 * cycles (scan_rows rows st) + (if was_above (scan_rows rows st) then 1 else 0)
    <= 2 * cycles st + (if was_above st then 1 else 0) + Z.of_nat (length rows).
Proof.
  induction rows as [| [a n] rows IH]; intros st; [cbn; lia |].
  unfold scan_rows in *. cbn [fold_left length].
  etransitivity; [apply IH |].
  unfold scan_row. cbn [fst snd].
  destruct a; cbn [cycles was_above].
  - destruct (was_above st); lia.
  - destruct (was_above st) eqn:Hw.
    + rewrite andb_true_r. destruct n; cbn [cycles was_above]; rewrite ?Hw; lia.
    + rewrite andb_false_r, Hw. lia.
Qed.

Lemma cycles_columns_half (deviation : Polars.series float)
      (threshold zero_threshold : float) (c : Z) :
  count_complete_cycles (above_column deviation threshold)
                        (neutral_column deviation zero_threshold) = Ok c ->
  0 <= c /\ 2 * c <= Z.of_nat (length deviation).
Proof.
  destruct (flag_columns_rows deviation threshold zero_threshold) as [-> ->].
  rewrite count_complete_cycles_rows. intros H. injection H as <-.
  split.
  - apply (scan_rows_cycles_mono _ (mkScan 0 false)).
  - pose proof (scan_rows_two_rows_per_cycle
                  (rows_of (map (fun d => (option_map (fun x => Polars.gt (abs x) threshold) d,
                                           option_map (fun x => Polars.lt (abs x) zero_threshold) d))
                                deviation))
                  (mkScan 0 false)) as H.
    cbn [cycles was_above] in H. unfold rows_of in H. rewrite !length_map in H.
    unfold rows_of.
    destruct (was_above _); lia.
Qed.

End CountBounds.

(** In a returned record [data_points] is the number of rows of the anchor
    frame, matched or not; [zero_crossings] lies between 0 and
    [data_points - 1]; and each cycle count [c] satisfies
    [0 <= 2 * c <= data_points], a cycle taking at least two rows. *)
Theorem counts_bounded_by_rows :
  forall (symbol ex1 ex2 : string) (data1 data2 : list Tick.t)
         (thresholds : option (list float)) (zero_threshold : float) (r : dict),
    analyze_pair_fast symbol ex1 ex2 data1 data2 thresholds zero_threshold = Some r ->
    let n := Z.of_nat (length data1) in
    1 <= n
    /\ get r "data_points" = Some (VInt n)
    /\ (exists z, get r "zero_crossings" = Some (VInt z) /\ 0 <= z <= n - 1)
    /\ (exists c, get r "opportunity_cycles_030bp" = Some (VInt c) /\ 0 <= 2 * c <= n)
    /\ (exists c, get r "opportunity_cycles_050bp" = Some (VInt c) /\ 0 <= 2 * c <= n)
    /\ (exists c, get r "opportunity_cycles_040bp" = Some (VInt c) /\ 0 <= 2 * c <= n).
Proof.
  intros symbol ex1 ex2 data1 data2 thresholds zero_threshold r H n.
  destruct (analyze_pair_fast_inv _ _ _ _ _ _ _ _ H) as (Hne & t & Hrun & ->).
  assert (Hn : Z.of_nat (length (join_asof data1 data2)) = n)
    by (rewrite join_asof_length; reflexivity).
  assert (Hdl : Z.of_nat (length (deviation_column (join_asof data1 data2))) = n)
    by (rewrite deviation_column_rows, length_map; exact Hn).
  assert (Hpos : 1 <= n).
  { rewrite <- Hn. destruct (join_asof data1 data2); [contradiction | cbn [length]; lia]. }
  unfold runs_with in Hrun. cbv zeta in Hrun.
  destruct Hrun as (_ & _ & _ & _ & _ & _ & _ & _ & (C0 & C1 & C2) & _).
  apply cycles_columns_half in C0, C1, C2. rewrite Hdl in C0, C1, C2.
  destruct (get_global_fields (join_asof data1 data2) t)
    as (_ & _ & _ & Gz & _ & _ & Gd & _).
  destruct (get_threshold_fields (join_asof data1 data2) t)
    as ((F0 & _) & (F1 & _) & (F2 & _)).
  split; [exact Hpos |].
  split; [rewrite Gd, Hn; reflexivity |].
  split.
  { eexists. split; [exact Gz |]. rewrite sum_bool_crossed.
    pose proof (count_crossings_bound (deviation_column (join_asof data1 data2))) as Hb.
    rewrite Hdl in Hb. lia. }
  split; [eexists; split; [exact F0 | lia] |].
  split; [eexists; split; [exact F1 | lia] |].
  eexists; split; [exact F2 | lia].
Qed.

(** Four rows: two crossings, one cycle at each default threshold. *)
Lemma counts_bounded_by_rows_witness :
  exists r : dict,
    analyze_pair_fast "SYM" "A" "B" swing_frame flat_frame None default_zero_threshold
    = Some r
    /\ get r "data_points" = Some (VInt 4).
Proof.
  destruct (analyze_pair_fast "SYM" "A" "B" swing_frame flat_frame None
              default_zero_threshold) as [r |] eqn:E;
    [| vm_compute in E; discriminate E].
  exists r. split; [reflexivity |].
  exact (proj1 (proj2 (counts_bounded_by_rows _ _ _ _ _ _ _ r E))).
Defined.

(* ================================================================== *)
(** * Properties of [run_all_ultra.py] *)

(** ** Sorting exchange names *)

Section StringOrder.

Lemma ascii_compare_lt_trans (a b c : ascii) :
  Ascii.compare a b = Lt -> Ascii.compare b c = Lt -> Ascii.compare a c = Lt.
Proof.
  unfold Ascii.compare. rewrite !N.compare_lt_iff. lia.
Qed.

Lemma string_compare_lt_trans :
  forall a b c : string,
    String.compare a b = Lt -> String.compare b c = Lt -> String.compare a c = Lt.
Proof.
  induction a as [| x a IH]; intros [| y b] [| z c]; cbn; try congruence.
  destruct (Ascii.compare x y) eqn:Exy; try discriminate.
  - apply Ascii.compare_eq_iff in Exy. subst y.
    destruct (Ascii.compare x z) eqn:Exz; try congruence. apply IH.
  - intros _. destruct (Ascii.compare y z) eqn:Eyz; try discriminate.
    + apply Ascii.compare_eq_iff in Eyz. subst z. rewrite Exy. reflexivity.
    + rewrite (ascii_compare_lt_trans x y z Exy Eyz). reflexivity.
Qed.

Lemma string_leb_trans (a b c : string) :
  String.leb a b = true -> String.leb b c = true -> String.leb a c = true.
Proof.
  unfold String.leb.
  destruct (String.compare a b) eqn:Eab; try discriminate;
    destruct (String.compare b c) eqn:Ebc; try discriminate; intros _ _.
  - apply String.compare_eq_iff in Eab. subst b. rewrite Ebc. reflexivity.
  - apply String.compare_eq_iff in Eab. subst b. rewrite Ebc. reflexivity.
  - apply String.compare_eq_iff in Ebc. subst c. rewrite Eab. reflexivity.
  - rewrite (string_compare_lt_trans a b c Eab Ebc). reflexivity.
Qed.

Lemma string_leb_refl (a : string) : String.leb a a = true.
Proof. destruct (String.leb_total a a); assumption. Qed.

Lemma insert_sorted_perm (x : string) (l : list string) :
  Permutation (insert_sorted x l) (x :: l).
Proof.
  induction l as [| y l IH]; cbn; [reflexivity |].
  destruct (String.leb x y); [reflexivity |].
  rewrite IH. apply perm_swap.
Qed.

Lemma sorted_perm (l : list string) : Permutation (sorted l) l.
Proof.
  induction l as [| x l IH]; cbn; [reflexivity |].
  rewrite insert_sorted_perm, IH. reflexivity.
Qed.

Lemma insert_sorted_strongly (x : string) (l : list string) :
  StronglySorted (fun a b => String.leb a b = true) l ->
  StronglySorted (fun a b => String.leb a b = true) (insert_sorted x l).
Proof.
  induction 1 as [| y l Hs IH Hall]; cbn.
  - constructor; constructor.
  - destruct (String.leb x y) eqn:E.
    + constructor; [constructor; assumption |].
      constructor; [exact E |].
      eapply Forall_impl; [| exact Hall].
      intros z Hz. exact (string_leb_trans x y z E Hz).
    + constructor; [exact IH |].
      assert (Hyx : String.leb y x = true)
        by (destruct (String.leb_total x y); congruence).
      rewrite insert_sorted_perm. constructor; assumption.
Qed.

Lemma sorted_strongly (l : list string) :
  StronglySorted (fun a b => String.leb a b = true) (sorted l).
Proof.
  induction l as [| x l IH]; cbn; [constructor |].
  apply insert_sorted_strongly. exact IH.
Qed.

(** Two ascending arrangements of the same elements are the same list. *)
Lemma strongly_sorted_unique :
  forall l1 l2 : list string,
    StronglySorted (fun a b => String.leb a b = true) l1 ->
    StronglySorted (fun a b => String.leb a b = true) l2 ->
    Permutation l1 l2 ->
    l1 = l2.
Proof.
  induction l1 as [| x l1 IH]; intros l2 H1 H2 Hp.
  - apply Permutation_nil in Hp. congruence.
  - destruct l2 as [| y l2]; [symmetry in Hp; apply Permutation_nil in Hp; discriminate |].
    apply StronglySorted_inv in H1. destruct H1 as [H1 Hx].
    apply StronglySorted_inv in H2. destruct H2 as [H2 Hy].
    assert (Hxy : x = y).
    { assert (Hin1 : In y (x :: l1))
        by (apply (Permutation_in y (Permutation_sym Hp)); left; reflexivity).
      assert (Hin2 : In x (y :: l2))
        by (apply (Permutation_in x Hp); left; reflexivity).
      destruct Hin1 as [-> | Hin1]; [reflexivity |].
      destruct Hin2 as [<- | Hin2]; [reflexivity |].
      rewrite Forall_forall in Hx, Hy.
      apply String.leb_antisym; [apply Hx | apply Hy]; assumption. }
    subst y. f_equal. apply IH; try assumption.
    apply Permutation_cons_inv in Hp. exact Hp.
Qed.

Lemma sorted_of_permutation (l l' : list string) :
  Permutation l l' -> sorted l = sorted l'.
Proof.
  intros Hp. apply strongly_sorted_unique; try apply sorted_strongly.
  rewrite !sorted_perm. exact Hp.
Qed.

End StringOrder.

(** ** Pairs of exchanges *)

Section Pairs.

Context {A : Type}.

Lemma combinations2_length (l : list A) :
  2 * Z.of_nat (length (combinations2 l))
  = Z.of_nat (length l) * (Z.of_nat (length l) - 1).
Proof.
  induction l as [| x l IH]; [reflexivity |].
  cbn [combinations2 length]. rewrite length_app, length_map. lia.
Qed.

Lemma combinations2_length_perm (l l' : list A) :
  Permutation l l' -> length (combinations2 l) = length (combinations2 l').
Proof.
  intros Hp. apply Permutation_length in Hp.
  pose proof (combinations2_length l). pose proof (combinations2_length l'). nia.
Qed.

(** A pair is produced for two positions, the first before the second. *)
Lemma combinations2_in (l : list A) (a b : A) :
  In (a, b) (combinations2 l)
  <-> exists l1 l2 l3, l = l1 ++ a :: l2 ++ b :: l3.
Proof.
  induction l as [| x l IH]; cbn [combinations2].
  - split; [contradiction |]. intros (l1 & l2 & l3 & H).
    destruct l1; discriminate.
  - rewrite in_app_iff, in_map_iff, IH. split.
    + intros [(y & Hy & Hin) | (l1 & l2 & l3 & ->)].
      * injection Hy as <- <-. apply in_split in Hin.
        destruct Hin as (l2 & l3 & ->). exists [], l2, l3. reflexivity.
      * exists (x :: l1), l2, l3. reflexivity.
    + intros (l1 & l2 & l3 & H). destruct l1 as [| z l1]; cbn in H; injection H as -> ->.
      * left. exists b. split; [reflexivity |].
        apply in_or_app. right. left. reflexivity.
      * right. exists l1, l2, l3. reflexivity.
Qed.

Lemma pair_map_nodup (x : A) (l : list A) : NoDup l -> NoDup (map (pair x) l).
Proof.
  induction 1 as [| y l Hy Hnd IH]; cbn [map]; constructor; [| exact IH].
  intros Hin. apply in_map_iff in Hin. destruct Hin as (z & Hz & Hin).
  injection Hz as ->. contradiction.
Qed.

Lemma combinations2_nodup (l : list A) : NoDup l -> NoDup (combinations2 l).
Proof.
  induction 1 as [| x l Hx Hnd IH]; cbn [combinations2]; [constructor |].
  apply NoDup_app; [apply pair_map_nodup; exact Hnd | exact IH |].
  - intros [a b] Hin Hin'. apply in_map_iff in Hin. destruct Hin as (y & Hy & _).
    injection Hy as <- <-. apply combinations2_in in Hin'.
    destruct Hin' as (l1 & l2 & l3 & ->). apply Hx.
    apply in_or_app. right. left. reflexivity.
Qed.

End Pairs.

(** ** The frames kept for a symbol *)

Section Dict.

Context {V : Type}.

Lemma dict_get_set (d : list (string * V)) (k k' : string) (v : V) :
  dict_get (dict_set d k v) k'
  = if String.eqb k' k then Some v else dict_get d k'.
Proof.
  induction d as [| [k0 v0] d IH]; cbn [dict_set dict_get].
  - reflexivity.
  - destruct (String.eqb_spec k k0) as [-> | Hk]; cbn [dict_get].
    + destruct (String.eqb k' k0); reflexivity.
    + destruct (String.eqb_spec k' k0) as [-> | Hk'].
      * destruct (String.eqb_spec k0 k); [congruence | reflexivity].
      * exact IH.
Qed.

End Dict.

Section Batch.

Variable load : string -> string -> string -> option string -> option string
                -> result (option (list Tick.t)).
Variables (data_path symbol : string) (start_date end_date : option string).

Let kept := loaded load data_path symbol start_date end_date.
Let store := store_loaded load data_path symbol start_date end_date.

Lemma store_loaded_get (d : list (string * list Tick.t)) (exchange ex : string) :
  dict_get (store d exchange) ex
  = if String.eqb ex exchange
    then match kept ex with Some data => Some data | None => dict_get d ex end
    else dict_get d ex.
Proof.
  unfold store, kept, store_loaded, loaded.
  destruct (String.eqb_spec ex exchange) as [-> | Hne].
  - destruct (load data_path exchange symbol start_date end_date) as [[[| row rows] |] | e];
      try reflexivity.
    rewrite dict_get_set, String.eqb_refl. reflexivity.
  - destruct (load data_path exchange symbol start_date end_date) as [[[| row rows] |] | e];
      try reflexivity.
    rewrite dict_get_set. destruct (String.eqb_spec ex exchange); [contradiction | reflexivity].
Qed.

(** After the collecting loop an exchange has a frame exactly when one of
    the completed loads was its own and returned a non-empty frame,
    whatever the order of completion. *)
Lemma exchange_data_get :
  forall (completion : list string) (d : list (string * list Tick.t)) (ex : string),
    dict_get (fold_left store completion d) ex
    = if existsb (String.eqb ex) completion
      then match kept ex with Some data => Some data | None => dict_get d ex end
      else dict_get d ex.
Proof.
  induction completion as [| c rest IH]; intros d ex; [reflexivity |].
  cbn [fold_left existsb]. rewrite IH, store_loaded_get.
  destruct (String.eqb ex c), (existsb (String.eqb ex) rest), (kept ex); reflexivity.
Qed.

Lemma existsb_eqb_in (ex : string) (l : list string) :
  existsb (String.eqb ex) l = true <-> In ex l.
Proof.
  rewrite existsb_exists. split.
  - intros (x & Hin & Hx). apply String.eqb_eq in Hx. subst x. exact Hin.
  - intros Hin. exists ex. split; [exact Hin | apply String.eqb_refl].
Qed.

Lemma exchange_data_get_in (completion exchanges : list string) (ex : string) :
  Permutation completion exchanges ->
  In ex exchanges ->
  dict_get (fold_left store completion []) ex = kept ex.
Proof.
  intros Hp Hin. rewrite exchange_data_get.
  assert (H : existsb (String.eqb ex) completion = true)
    by (apply existsb_eqb_in; apply (Permutation_in ex (Permutation_sym Hp)); exact Hin).
  rewrite H. destruct (kept ex); reflexivity.
Qed.

Lemma combinations2_members {A : Type} (l : list A) (a b : A) :
  In (a, b) (combinations2 l) -> In a l /\ In b l.
Proof.
  intros H. apply combinations2_in in H. destruct H as (l1 & l2 & l3 & ->).
  split; apply in_or_app; right; [left; reflexivity |].
  right. apply in_or_app. right. left. reflexivity.
Qed.

Lemma strongly_sorted_between {A : Type} (R : A -> A -> Prop) (l1 l2 l3 : list A) (a b : A) :
  StronglySorted R (l1 ++ a :: l2 ++ b :: l3) -> R a b.
Proof.
  induction l1 as [| x l1 IH]; cbn; intros H; apply StronglySorted_inv in H.
  - destruct H as [_ H]. rewrite Forall_forall in H. apply H.
    apply in_or_app. right. left. reflexivity.
  - destruct H as [H _]. apply IH. exact H.
Qed.

Lemma nodup_between {A : Type} (l1 l2 l3 : list A) (a b : A) :
  NoDup (l1 ++ a :: l2 ++ b :: l3) -> a <> b.
Proof.
  intros H. apply NoDup_remove_2 in H. intros ->. apply H.
  apply in_or_app. right. apply in_or_app. right. left. reflexivity.
Qed.

Lemma combinations2_either {A : Type} (l : list A) (a b : A) :
  In a l -> In b l -> a <> b ->
  In (a, b) (combinations2 l) \/ In (b, a) (combinations2 l).
Proof.
  intros Ha Hb Hne. apply in_split in Ha. destruct Ha as (l1 & l2 & ->).
  apply in_app_or in Hb. destruct Hb as [Hb | [Hb | Hb]]; [| congruence |].
  - right. apply in_split in Hb. destruct Hb as (m1 & m2 & ->).
    apply combinations2_in. exists m1, m2, l2. rewrite <- app_assoc. reflexivity.
  - left. apply in_split in Hb. destruct Hb as (m1 & m2 & ->).
    apply combinations2_in. exists l1, m1, m2. reflexivity.
Qed.

Lemma analyze_pair_of_batch_ext (d d' : list (string * list Tick.t))
      (thresholds : option (list float)) (zero_threshold : float) (a b : string) :
  dict_get d a = dict_get d' a ->
  dict_get d b = dict_get d' b ->
  analyze_pair_of_batch symbol d thresholds zero_threshold (a, b)
  = analyze_pair_of_batch symbol d' thresholds zero_threshold (a, b).
Proof. intros Ha Hb. unfold analyze_pair_of_batch. rewrite Ha, Hb. reflexivity. Qed.

End Batch.

(** ** [analyze_symbol_batch] *)

Section BatchResults.

Variable load : string -> string -> string -> option string -> option string
                -> result (option (list Tick.t)).

Lemma analyze_symbol_batch_inr (completion : list string) (symbol : string)
      (exchanges : list string) (data_path : string) (start_date end_date : option string)
      (thresholds : option (list float)) (zero_threshold : float) :
  exchanges <> [] ->
  analyze_symbol_batch load completion
    (symbol, exchanges, data_path, start_date, end_date, thresholds, zero_threshold)
  = inr (map (analyze_pair_of_batch symbol
                (fold_left (store_loaded load data_path symbol start_date end_date)
                           completion [])
                thresholds zero_threshold)
             (combinations2 (sorted exchanges))).
Proof.
  intros Hne. unfold analyze_symbol_batch.
  destruct exchanges; [contradiction | reflexivity].
Qed.

Lemma pair_result_names (symbol : string) (d : list (string * list Tick.t))
      (thresholds : option (list float)) (zero_threshold : float) (pair : string * string) :
  let r := analyze_pair_of_batch symbol d thresholds zero_threshold pair in
  PairResult.symbol r = symbol
  /\ PairResult.ex1 r = fst pair
  /\ PairResult.ex2 r = snd pair.
Proof.
  destruct pair as [a b]. unfold analyze_pair_of_batch.
  destruct (dict_get d a) as [d1 |], (dict_get d b) as [d2 |];
    try (repeat split; reflexivity).
  destruct (analyze_pair_fast symbol a b d1 d2 thresholds zero_threshold);
    repeat split; reflexivity.
Qed.

End BatchResults.

(** [analyze_symbol_batch] raises [ValueError] on an empty list of exchanges
    (a thread pool of size 0) and otherwise returns one result per pair of
    positions of [exchanges]: [n * (n - 1) / 2] results for [n] exchanges,
    the number the caller adds to [total_pairs] before dispatching. *)
Theorem batch_one_result_per_pair :
  forall (load : string -> string -> string -> option string -> option string
                 -> result (option (list Tick.t)))
         (completion : list string) (symbol : string) (exchanges : list string)
         (data_path : string) (start_date end_date : option string)
         (thresholds : option (list float)) (zero_threshold : float),
    let args := (symbol, exchanges, data_path, start_date, end_date, thresholds,
                 zero_threshold) in
    (exchanges = [] -> analyze_symbol_batch load completion args = inl ValueError)
    /\ (exchanges <> [] ->
        exists results,
          analyze_symbol_batch load completion args = inr results
          /\ length results = length (combinations2 exchanges)
          /\ 2 * Z.of_nat (length results)
             = Z.of_nat (length exchanges) * (Z.of_nat (length exchanges) - 1)).
Proof.
  intros load completion symbol exchanges data_path start_date end_date thresholds
         zero_threshold args.
  split; [intros ->; reflexivity |].
  intros Hne. eexists. split; [apply analyze_symbol_batch_inr; exact Hne |].
  rewrite length_map.
  assert (Hlen : length (combinations2 (sorted exchanges))
                 = length (combinations2 exchanges))
    by (apply combinations2_length_perm, sorted_perm).
  split; [exact Hlen |].
  rewrite Hlen. apply combinations2_length.
Qed.

(** Four exchanges give six results. *)
Lemma batch_one_result_per_pair_witness :
  exists results,
    analyze_symbol_batch sample_load ["OKX"; "Gate"; "Binance"; "Bybit"]%string
      (sample_args ["Bybit"; "OKX"; "Binance"; "Gate"]%string) = inr results
    /\ length results = 6%nat.
Proof.
  destruct (proj2 (batch_one_result_per_pair sample_load
                     ["OKX"; "Gate"; "Binance"; "Bybit"]%string "SYM/USDT"
                     ["Bybit"; "OKX"; "Binance"; "Gate"]%string "data" None None None
                     default_zero_threshold))
    as (results & Hr & Hlen & _).
  - discriminate.
  - exists results. split; [exact Hr | exact Hlen].
Defined.

(** Every result of a batch carries the symbol of the batch and two
    exchanges of its list in ascending order.  When both exchanges were
    loaded with a non-empty frame, its [stats] is what [analyze_pair_fast]
    returns on these two frames; when a load failed, returned [None] or an
    empty frame, the pair is not analysed and has no [stats].  The status is
    [SUCCESS] exactly when [stats] is present, and [stats] then has the 23
    metric keys. *)
Theorem batch_results_meaning :
  forall (load : string -> string -> string -> option string -> option string
                 -> result (option (list Tick.t)))
         (completion : list string) (symbol : string) (exchanges : list string)
         (data_path : string) (start_date end_date : option string)
         (thresholds : option (list float)) (zero_threshold : float)
         (results : list PairResult.t),
    Permutation completion exchanges ->
    analyze_symbol_batch load completion
      (symbol, exchanges, data_path, start_date, end_date, thresholds, zero_threshold)
    = inr results ->
    forall r, In r results ->
      PairResult.symbol r = symbol
      /\ In (PairResult.ex1 r) exchanges
      /\ In (PairResult.ex2 r) exchanges
      /\ String.leb (PairResult.ex1 r) (PairResult.ex2 r) = true
      /\ match loaded load data_path symbol start_date end_date (PairResult.ex1 r),
               loaded load data_path symbol start_date end_date (PairResult.ex2 r) with
         | Some data1, Some data2 =>
             PairResult.stats r
             = analyze_pair_fast symbol (PairResult.ex1 r) (PairResult.ex2 r)
                 data1 data2 thresholds zero_threshold
         | _, _ => PairResult.stats r = None
         end
      /\ match PairResult.status_ r with
         | SUCCESS => exists stats, PairResult.stats r = Some stats
                                    /\ keys stats = metric_keys
         | SKIPPED => PairResult.stats r = None
         end.
Proof.
  intros load completion symbol exchanges data_path start_date end_date thresholds
         zero_threshold results Hp Hres r Hin.
  assert (Hne : exchanges <> []).
  { intros ->. cbn in Hres. discriminate. }
  rewrite analyze_symbol_batch_inr in Hres by exact Hne.
  injection Hres as <-.
  apply in_map_iff in Hin. destruct Hin as ([a b] & <- & Hpair).
  destruct (pair_result_names symbol
              (fold_left (store_loaded load data_path symbol start_date end_date)
                         completion [])
              thresholds zero_threshold (a, b)) as (Hsym & Ha & Hb).
  cbn [fst snd] in Ha, Hb.
  assert (Hmem : In a exchanges /\ In b exchanges).
  { destruct (combinations2_members _ _ _ Hpair) as [Hia Hib].
    split; eapply Permutation_in; try apply sorted_perm; assumption. }
  destruct Hmem as [Hia Hib].
  assert (Hle : String.leb a b = true).
  { apply combinations2_in in Hpair. destruct Hpair as (l1 & l2 & l3 & Hs).
    pose proof (sorted_strongly exchanges) as Hsorted. rewrite Hs in Hsorted.
    exact (strongly_sorted_between _ _ _ _ _ _ Hsorted). }
  rewrite Hsym, Ha, Hb.
  repeat (split; [assumption || reflexivity |]).
  unfold analyze_pair_of_batch.
  rewrite (exchange_data_get_in load data_path symbol start_date end_date
             completion exchanges a Hp Hia).
  rewrite (exchange_data_get_in load data_path symbol start_date end_date
             completion exchanges b Hp Hib).
  destruct (loaded load data_path symbol start_date end_date a) as [d1 |];
    [| split; reflexivity].
  destruct (loaded load data_path symbol start_date end_date b) as [d2 |];
    [| split; reflexivity].
  destruct (analyze_pair_fast symbol a b d1 d2 thresholds zero_threshold) as [stats |] eqn:E;
    cbn [PairResult.stats PairResult.status_]; [| split; reflexivity].
  split; [reflexivity |].
  exists stats. split; [reflexivity |].
  destruct (analyze_pair_fast_inv _ _ _ _ _ _ _ _ E) as (_ & t & _ & ->).
  apply keys_dict_of.
Qed.

(** Binance and Bybit have frames; OKX loads an empty frame and the load of
    Gate raises: the only analysed pair is Binance against Bybit. *)
Lemma batch_results_meaning_witness :
  exists results r,
    analyze_symbol_batch sample_load ["OKX"; "Gate"; "Binance"; "Bybit"]%string
      (sample_args ["Bybit"; "OKX"; "Binance"; "Gate"]%string) = inr results
    /\ nth_error results 0 = Some r
    /\ PairResult.ex1 r = "Binance"%string
    /\ PairResult.ex2 r = "Bybit"%string
    /\ PairResult.stats r
       = analyze_pair_fast "SYM/USDT" "Binance" "Bybit" swing_frame flat_frame None
           default_zero_threshold.
Proof.
  destruct (analyze_symbol_batch sample_load ["OKX"; "Gate"; "Binance"; "Bybit"]%string
              (sample_args ["Bybit"; "OKX"; "Binance"; "Gate"]%string))
    as [e | results] eqn:E; [vm_compute in E; discriminate E |].
  destruct (nth_error results 0) as [r |] eqn:Er;
    [| vm_compute in E; injection E as <-; discriminate Er].
  assert (Hn1 : PairResult.ex1 r = "Binance"%string)
    by (vm_compute in E; injection E as <-; injection Er as <-; reflexivity).
  assert (Hn2 : PairResult.ex2 r = "Bybit"%string)
    by (vm_compute in E; injection E as <-; injection Er as <-; reflexivity).
  exists results, r.
  split; [reflexivity |]. split; [exact Er |].
  split; [exact Hn1 |]. split; [exact Hn2 |].
  pose proof (batch_results_meaning sample_load
                ["OKX"; "Gate"; "Binance"; "Bybit"]%string "SYM/USDT"
                ["Bybit"; "OKX"; "Binance"; "Gate"]%string "data" None None None
                default_zero_threshold results) as H.
  assert (Hperm : Permutation ["OKX"; "Gate"; "Binance"; "Bybit"]%string
                              ["Bybit"; "OKX"; "Binance"; "Gate"]%string).
  { apply (perm_trans (l' := ["OKX"; "Gate"; "Bybit"; "Binance"]%string)).
    - do 2 apply perm_skip. apply perm_swap.
    - apply (perm_trans (l' := ["OKX"; "Bybit"; "Gate"; "Binance"]%string)).
      + apply perm_skip. apply perm_swap.
      + apply (perm_trans (l' := ["Bybit"; "OKX"; "Gate"; "Binance"]%string)).
        * apply perm_swap.
        * do 2 apply perm_skip. apply perm_swap. }
  specialize (H Hperm E r (nth_error_In _ _ Er)).
  destruct H as (_ & _ & _ & _ & Hstats & _).
  rewrite Hn1, Hn2 in Hstats. exact Hstats.
Defined.

(** On a list of distinct exchanges every unordered pair is analysed once:
    no two results have the same pair of names, the two names of a result
    differ, and for any two distinct exchanges of the list there is a result
    naming them, the smaller name first. *)
Theorem batch_each_pair_once :
  forall (load : string -> string -> string -> option string -> option string
                 -> result (option (list Tick.t)))
         (completion : list string) (symbol : string) (exchanges : list string)
         (data_path : string) (start_date end_date : option string)
         (thresholds : option (list float)) (zero_threshold : float)
         (results : list PairResult.t),
    NoDup exchanges ->
    analyze_symbol_batch load completion
      (symbol, exchanges, data_path, start_date, end_date, thresholds, zero_threshold)
    = inr results ->
    NoDup (map (fun r => (PairResult.ex1 r, PairResult.ex2 r)) results)
    /\ (forall r, In r results -> PairResult.ex1 r <> PairResult.ex2 r)
    /\ (forall a b, In a exchanges -> In b exchanges -> String.ltb a b = true ->
                    exists r, In r results
                              /\ PairResult.ex1 r = a /\ PairResult.ex2 r = b).
Proof.
  intros load completion symbol exchanges data_path start_date end_date thresholds
         zero_threshold results Hnd Hres.
  assert (Hne : exchanges <> []).
  { intros ->. cbn in Hres. discriminate. }
  rewrite analyze_symbol_batch_inr in Hres by exact Hne.
  injection Hres as <-.
  set (d := fold_left (store_loaded load data_path symbol start_date end_date)
                      completion []).
  assert (Hnds : NoDup (sorted exchanges))
    by (apply (Permutation_NoDup (Permutation_sym (sorted_perm exchanges))); exact Hnd).
  assert (Hnames : map (fun r => (PairResult.ex1 r, PairResult.ex2 r))
                       (map (analyze_pair_of_batch symbol d thresholds zero_threshold)
                            (combinations2 (sorted exchanges)))
                   = combinations2 (sorted exchanges)).
  { rewrite map_map. rewrite <- (map_id (combinations2 (sorted exchanges))) at 2.
    apply map_ext. intros [a b].
    destruct (pair_result_names symbol d thresholds zero_threshold (a, b))
      as (_ & -> & ->). reflexivity. }
  split; [rewrite Hnames; apply combinations2_nodup; exact Hnds |].
  split.
  - intros r Hin. apply in_map_iff in Hin. destruct Hin as ([a b] & <- & Hpair).
    destruct (pair_result_names symbol d thresholds zero_threshold (a, b))
      as (_ & -> & ->). cbn [fst snd].
    apply combinations2_in in Hpair. destruct Hpair as (l1 & l2 & l3 & Hs).
    rewrite Hs in Hnds. exact (nodup_between _ _ _ _ _ Hnds).
  - intros a b Ha Hb Hlt.
    assert (Hab : a <> b).
    { intros ->. unfold String.ltb in Hlt.
      pose proof (String.compare_antisym b b) as E.
      destruct (String.compare b b); cbn in E; discriminate. }
    assert (Has : In a (sorted exchanges))
      by (apply (Permutation_in a (Permutation_sym (sorted_perm exchanges))); exact Ha).
    assert (Hbs : In b (sorted exchanges))
      by (apply (Permutation_in b (Permutation_sym (sorted_perm exchanges))); exact Hb).
    destruct (combinations2_either _ a b Has Hbs Hab) as [Hin | Hin].
    + exists (analyze_pair_of_batch symbol d thresholds zero_threshold (a, b)).
      split; [apply in_map; exact Hin |].
      destruct (pair_result_names symbol d thresholds zero_threshold (a, b))
        as (_ & -> & ->). split; reflexivity.
    + exfalso. apply combinations2_in in Hin. destruct Hin as (l1 & l2 & l3 & Hs).
      pose proof (sorted_strongly exchanges) as Hsorted. rewrite Hs in Hsorted.
      pose proof (strongly_sorted_between _ _ _ _ _ _ Hsorted) as Hba.
      cbv beta in Hba. unfold String.leb in Hba. unfold String.ltb in Hlt.
      rewrite String.compare_antisym in Hba.
      destruct (String.compare a b); cbn in Hba; discriminate.
Qed.

(** The result of a batch depends neither on the order in which the
    exchanges are listed nor on the order in which their loads complete. *)
Theorem batch_order_independent :
  forall (load : string -> string -> string -> option string -> option string
                 -> result (option (list Tick.t)))
         (completion completion' : list string) (symbol : string)
         (exchanges exchanges' : list string)
         (data_path : string) (start_date end_date : option string)
         (thresholds : option (list float)) (zero_threshold : float),
    Permutation exchanges exchanges' ->
    Permutation completion exchanges ->
    Permutation completion' exchanges' ->
    analyze_symbol_batch load completion
      (symbol, exchanges, data_path, start_date, end_date, thresholds, zero_threshold)
    = analyze_symbol_batch load completion'
        (symbol, exchanges', data_path, start_date, end_date, thresholds, zero_threshold).
Proof.
  intros load completion completion' symbol exchanges exchanges' data_path start_date
         end_date thresholds zero_threshold Hp Hc Hc'.
  destruct exchanges as [| e es].
  - apply Permutation_nil in Hp. subst exchanges'. reflexivity.
  - assert (Hne' : exchanges' <> [])
      by (intros ->; apply Permutation_sym, Permutation_nil in Hp; discriminate).
    rewrite !analyze_symbol_batch_inr by (assumption || discriminate).
    rewrite (sorted_of_permutation _ _ Hp). f_equal.
    apply map_ext_in. intros [a b] Hpair.
    destruct (combinations2_members _ _ _ Hpair) as [Hia Hib].
    apply (Permutation_in _ (sorted_perm exchanges')) in Hia, Hib.
    apply analyze_pair_of_batch_ext.
    + rewrite (exchange_data_get_in load data_path symbol start_date end_date
                 completion' exchanges' a Hc' Hia).
      apply (exchange_data_get_in load data_path symbol start_date end_date
               completion (e :: es) a Hc).
      apply (Permutation_in a (Permutation_sym Hp)). exact Hia.
    + rewrite (exchange_data_get_in load data_path symbol start_date end_date
                 completion' exchanges' b Hc' Hib).
      apply (exchange_data_get_in load data_path symbol start_date end_date
               completion (e :: es) b Hc).
      apply (Permutation_in b (Permutation_sym Hp)). exact Hib.
Qed.

(** Three distinct exchanges: the three pairs, each once. *)
Lemma batch_each_pair_once_witness :
  exists results,
    analyze_symbol_batch sample_load ["OKX"; "Binance"; "Bybit"]%string
      (sample_args ["Bybit"; "OKX"; "Binance"]%string) = inr results
    /\ NoDup (map (fun r => (PairResult.ex1 r, PairResult.ex2 r)) results).
Proof.
  destruct (analyze_symbol_batch sample_load ["OKX"; "Binance"; "Bybit"]%string
              (sample_args ["Bybit"; "OKX"; "Binance"]%string))
    as [e | results] eqn:E; [vm_compute in E; discriminate E |].
  exists results. split; [reflexivity |].
  refine (proj1 (batch_each_pair_once sample_load ["OKX"; "Binance"; "Bybit"]%string
                   "SYM/USDT" ["Bybit"; "OKX"; "Binance"]%string "data" None None None
                   default_zero_threshold results _ E)).
  repeat constructor; cbn; intuition discriminate.
Defined.

(** The same three exchanges listed and completed in two different orders. *)
Lemma batch_order_independent_witness :
  analyze_symbol_batch sample_load ["OKX"; "Binance"; "Bybit"]%string
    (sample_args ["Bybit"; "OKX"; "Binance"]%string)
  = analyze_symbol_batch sample_load ["Bybit"; "Binance"; "OKX"]%string
      (sample_args ["OKX"; "Bybit"; "Binance"]%string).
Proof.
  apply (batch_order_independent sample_load ["OKX"; "Binance"; "Bybit"]%string
           ["Bybit"; "Binance"; "OKX"]%string "SYM/USDT"
           ["Bybit"; "OKX"; "Binance"]%string ["OKX"; "Bybit"; "Binance"]%string
           "data" None None None default_zero_threshold).
  - apply perm_swap.
  - apply (perm_trans (l' := ["OKX"; "Bybit"; "Binance"]%string));
      [apply perm_skip, perm_swap | apply perm_swap].
  - apply (perm_trans (l' := ["Bybit"; "OKX"; "Binance"]%string));
      [apply perm_skip, perm_swap | apply perm_swap].
Defined.

(** ** The tallies of [run_ultra_fast_analysis] *)

Section Tally.

Lemma tally_result_step (t : tally) (r : PairResult.t) :
  let t' := tally_result t r in
  errors t' = errors t
  /\ processed_pairs t' = processed_pairs t + 1
  /\ successful t' + skipped t' = successful t + skipped t + 1
  /\ successful t <= successful t'
  /\ Z.of_nat (length (all_stats t')) - Z.of_nat (length (all_stats t))
     <= successful t' - successful t
  /\ (has_rows r ->
      Z.of_nat (length (all_stats t')) - Z.of_nat (length (all_stats t))
      = successful t' - successful t).
Proof.
  unfold tally_result, has_rows. cbv zeta.
  destruct (PairResult.status_ r); cbn [errors processed_pairs successful skipped all_stats].
  - destruct (PairResult.stats r) as [[| entry entries] |] eqn:Es.
    + repeat split; try lia. intros H. destruct (H eq_refl) as (x & xs & Hx). discriminate.
    + rewrite length_app. cbn [length]. repeat split; lia.
    + repeat split; try lia. intros H. destruct (H eq_refl) as (x & xs & Hx). discriminate.
  - repeat split; lia.
Qed.

Lemma tally_batch_fold :
  forall (batch : list PairResult.t) (t : tally),
    let t' := fold_left tally_result batch t in
    errors t' = errors t
    /\ processed_pairs t' = processed_pairs t + Z.of_nat (length batch)
    /\ successful t' + skipped t' = successful t + skipped t + Z.of_nat (length batch)
    /\ successful t <= successful t'
    /\ Z.of_nat (length (all_stats t')) - Z.of_nat (length (all_stats t))
       <= successful t' - successful t
    /\ (Forall has_rows batch ->
        Z.of_nat (length (all_stats t')) - Z.of_nat (length (all_stats t))
        = successful t' - successful t).
Proof.
  induction batch as [| r batch IH]; intros t; cbv zeta.
  - cbn. repeat split; lia.
  - cbn [fold_left length].
    destruct (tally_result_step t r) as (E1 & E2 & E3 & E4 & E5 & E6).
    destruct (IH (tally_result t r)) as (F1 & F2 & F3 & F4 & F5 & F6).
    cbv zeta in *.
    repeat split; try lia.
    intros Hall. inversion Hall as [| ? ? Hr Hrest]; subst.
    specialize (E6 Hr). specialize (F6 Hrest). lia.
Qed.

Lemma tally_batches_fold :
  forall (batches : list (list PairResult.t)) (t : tally),
    let t' := fold_left (fun t batch => fold_left tally_result batch t) batches t in
    errors t' = errors t
    /\ processed_pairs t' = processed_pairs t + Z.of_nat (length (concat batches))
    /\ successful t' + skipped t'
       = successful t + skipped t + Z.of_nat (length (concat batches))
    /\ Z.of_nat (length (all_stats t')) - Z.of_nat (length (all_stats t))
       <= successful t' - successful t
    /\ (Forall (Forall has_rows) batches ->
        Z.of_nat (length (all_stats t')) - Z.of_nat (length (all_stats t))
        = successful t' - successful t).
Proof.
  induction batches as [| batch batches IH]; intros t; cbv zeta.
  - cbn. repeat split; lia.
  - cbn [fold_left concat]. rewrite length_app.
    destruct (tally_batch_fold batch t) as (E1 & E2 & E3 & E4 & E5 & E6).
    destruct (IH (fold_left tally_result batch t)) as (F1 & F2 & F3 & F5 & F6).
    cbv zeta in *.
    repeat split; try lia.
    intros Hall. inversion Hall as [| ? ? Hb Hrest]; subst.
    specialize (E6 Hb). specialize (F6 Hrest). lia.
Qed.

Lemma tally_skipped_mono :
  forall (batches : list (list PairResult.t)) (t : tally),
    skipped t <= skipped (fold_left (fun t batch => fold_left tally_result batch t) batches t).
Proof.
  assert (Hstep : forall t r, skipped t <= skipped (tally_result t r)).
  { intros t r. unfold tally_result. cbv zeta.
    destruct (PairResult.status_ r); cbn [skipped]; lia. }
  assert (Hbatch : forall batch t, skipped t <= skipped (fold_left tally_result batch t)).
  { induction batch as [| r batch IH]; intros t; cbn [fold_left]; [lia |].
    specialize (Hstep t r). specialize (IH (tally_result t r)). lia. }
  induction batches as [| batch batches IH]; intros t; cbn [fold_left]; [lia |].
  specialize (Hbatch batch t). specialize (IH (fold_left tally_result batch t)). lia.
Qed.

Lemma total_pairs_fold :
  forall (symbols : list (string * list string)) (acc : Z),
    fold_left (fun total entry =>
                 total + Z.of_nat (length (combinations2 (snd entry))))
              symbols acc
    = acc + Z.of_nat (length (concat (map (fun entry => combinations2 (snd entry))
                                          symbols))).
Proof.
  induction symbols as [| entry symbols IH]; intros acc; [cbn; lia |].
  cbn [fold_left map concat]. rewrite IH, length_app. lia.
Qed.

End Tally.

Section TallyOfBatches.

Variable load : string -> string -> string -> option string -> option string
                -> result (option (list Tick.t)).
Variables (data_path : string) (start_date end_date : option string)
          (thresholds : option (list float)) (zero_threshold : float).

Lemma analyze_pair_of_batch_has_rows (symbol : string) (d : list (string * list Tick.t))
      (pair : string * string) :
  has_rows (analyze_pair_of_batch symbol d thresholds zero_threshold pair).
Proof.
  destruct pair as [a b]. unfold has_rows, analyze_pair_of_batch.
  destruct (dict_get d a) as [d1 |]; [| discriminate].
  destruct (dict_get d b) as [d2 |]; [| discriminate].
  destruct (analyze_pair_fast symbol a b d1 d2 thresholds zero_threshold) as [stats |] eqn:E;
    [| discriminate].
  intros _. destruct (analyze_pair_fast_inv _ _ _ _ _ _ _ _ E) as (_ & t & _ & ->).
  cbn [PairResult.stats]. unfold dict_of. cbn [app]. eauto.
Qed.

Lemma batch_of_shape (entry : string * list string) (batch : list PairResult.t) :
  batch_of load data_path start_date end_date thresholds zero_threshold entry batch ->
  length batch = length (combinations2 (snd entry)) /\ Forall has_rows batch.
Proof.
  intros (completion & _ & H). destruct entry as [symbol exchanges]. cbn [fst snd] in *.
  assert (Hne : exchanges <> []) by (intros ->; cbn in H; discriminate).
  rewrite analyze_symbol_batch_inr in H by exact Hne. injection H as <-.
  split.
  - rewrite length_map. apply combinations2_length_perm, sorted_perm.
  - apply Forall_forall. intros r Hin. apply in_map_iff in Hin.
    destruct Hin as (pair & <- & _). apply analyze_pair_of_batch_has_rows.
Qed.

Lemma batches_shape :
  forall (dispatched : list (string * list string)) (batches : list (list PairResult.t)),
    Forall2 (batch_of load data_path start_date end_date thresholds zero_threshold)
            dispatched batches ->
    length (concat batches)
    = length (concat (map (fun entry => combinations2 (snd entry)) dispatched))
    /\ Forall (Forall has_rows) batches.
Proof.
  induction 1 as [| entry batch dispatched batches Hb _ IH]; [split; [reflexivity | constructor] |].
  destruct (batch_of_shape entry batch Hb) as [Hlen Hrows].
  destruct IH as [IHlen IHrows].
  cbn [map concat]. rewrite !length_app, Hlen, IHlen.
  split; [reflexivity | constructor; assumption].
Qed.

Lemma pairs_length_perm (l l' : list (string * list string)) :
  Permutation l l' ->
  length (concat (map (fun entry => combinations2 (snd entry)) l))
  = length (concat (map (fun entry => combinations2 (snd entry)) l')).
Proof.
  induction 1 as [| x l l' _ IH | x y l | l l' l'' _ IH1 _ IH2];
    cbn [map concat]; rewrite ?length_app; lia.
Qed.

End TallyOfBatches.

(** Whatever the order in which the pool yields the batches, the tallies of
    [run_ultra_fast_analysis] account for every pair: the number of results
    processed is the [total_pairs] announced beforehand, every result is
    counted once as successful or as skipped, [errors] stays at 0, and the
    summary has one row per successful pair. *)
Theorem tally_accounts_for_every_pair :
  forall (load : string -> string -> string -> option string -> option string
                 -> result (option (list Tick.t)))
         (data_path : string) (start_date end_date : option string)
         (thresholds : option (list float)) (zero_threshold : float)
         (symbols_to_analyze dispatched : list (string * list string))
         (batches : list (list PairResult.t)),
    Permutation dispatched symbols_to_analyze ->
    Forall2 (batch_of load data_path start_date end_date thresholds zero_threshold)
            dispatched batches ->
    let t := tally_batches batches in
    processed_pairs t = total_pairs_of symbols_to_analyze
    /\ successful t + skipped t = total_pairs_of symbols_to_analyze
    /\ 0 <= successful t /\ 0 <= skipped t
    /\ errors t = 0
    /\ Z.of_nat (length (all_stats t)) = successful t.
Proof.
  intros load data_path start_date end_date thresholds zero_threshold
         symbols_to_analyze dispatched batches Hp Hb t.
  destruct (batches_shape load data_path start_date end_date thresholds zero_threshold
              dispatched batches Hb) as [Hlen Hrows].
  rewrite (pairs_length_perm _ _ Hp) in Hlen.
  unfold total_pairs_of. rewrite total_pairs_fold, <- Hlen.
  destruct (tally_batches_fold batches (mkTally 0 0 0 0 []))
    as (E1 & E2 & E3 & E4 & E5).
  fold (tally_batches batches) in E1, E2, E3, E4, E5. fold t in E1, E2, E3, E4, E5.
  cbn [errors processed_pairs successful skipped all_stats length] in *.
  specialize (E5 Hrows).
  pose proof (tally_skipped_mono batches (mkTally 0 0 0 0 [])) as E6.
  fold (tally_batches batches) in E6. fold t in E6. cbn [skipped] in E6.
  repeat split; lia.
Qed.

Lemma tally_accounts_for_every_pair_witness :
  exists first second,
    let t := tally_batches [second; first] in
    analyze_symbol_batch sample_load ["OKX"; "Binance"; "Bybit"]%string
      ("A/USDT"%string, ["Bybit"; "OKX"; "Binance"]%string, "data"%string, None, None, None,
       default_zero_threshold) = inr first
    /\ analyze_symbol_batch sample_load ["Gate"; "Binance"]%string
         ("B/USDT"%string, ["Binance"; "Gate"]%string, "data"%string, None, None, None,
          default_zero_threshold) = inr second
    /\ processed_pairs t = 4 /\ successful t + skipped t = 4 /\ errors t = 0
    /\ Z.of_nat (length (all_stats t)) = successful t.
Proof.
  destruct (analyze_symbol_batch sample_load ["OKX"; "Binance"; "Bybit"]%string
              ("A/USDT"%string, ["Bybit"; "OKX"; "Binance"]%string, "data"%string, None, None,
               None, default_zero_threshold)) as [e | first] eqn:E1;
    [vm_compute in E1; discriminate E1 |].
  destruct (analyze_symbol_batch sample_load ["Gate"; "Binance"]%string
              ("B/USDT"%string, ["Binance"; "Gate"]%string, "data"%string, None, None,
               None, default_zero_threshold)) as [e | second] eqn:E2;
    [vm_compute in E2; discriminate E2 |].
  exists first, second. cbv zeta.
  destruct (tally_accounts_for_every_pair sample_load "data" None None None
              default_zero_threshold
              [("A/USDT"%string, ["Bybit"; "OKX"; "Binance"]%string);
               ("B/USDT"%string, ["Binance"; "Gate"]%string)]
              [("B/USDT"%string, ["Binance"; "Gate"]%string);
               ("A/USDT"%string, ["Bybit"; "OKX"; "Binance"]%string)]
              [second; first])
    as (H1 & H2 & _ & _ & H3 & H4).
  - apply perm_swap.
  - constructor; [| constructor; [| constructor]].
    + exists ["Gate"; "Binance"]%string. split; [apply perm_swap | exact E2].
    + exists ["OKX"; "Binance"; "Bybit"]%string. split; [| exact E1].
      apply (perm_trans (l' := ["OKX"; "Bybit"; "Binance"]%string));
        [apply perm_skip, perm_swap | apply perm_swap].
  - repeat split; assumption.
Defined.

(* ================================================================== *)
(** * Properties of [lib/discovery.py] and [lib/data_loader.py] *)

Section PythonStrings.

Lemma prefix_append (p s : string) : String.prefix p (p ++ s) = true.
Proof.
  induction p as [| c p IH]; cbn; [destruct s; reflexivity |].
  destruct (ascii_dec c c); [exact IH | congruence].
Qed.

Lemma prefix_split (p s : string) :
  String.prefix p s = true -> exists rest, s = (p ++ rest)%string.
Proof.
  revert s. induction p as [| c p IH]; intros s H; [exists s; reflexivity |].
  destruct s as [| c' s]; cbn in H; [discriminate |].
  destruct (ascii_dec c c') as [<- |]; [| discriminate].
  destruct (IH s H) as [rest ->]. exists rest. reflexivity.
Qed.

Lemma prefix_char (a c : ascii) (s : string) :
  String.prefix (String a EmptyString) (String c s) = Ascii.eqb a c.
Proof.
  cbn. destruct (ascii_dec a c) as [-> | Hn].
  - rewrite Ascii.eqb_refl. destruct s; reflexivity.
  - symmetry. apply Ascii.eqb_neq. exact Hn.
Qed.

Lemma contains_char_cons (a c : ascii) (s : string) :
  contains (String a EmptyString) (String c s)
  = Ascii.eqb a c || contains (String a EmptyString) s.
Proof.
  change (contains (String a EmptyString) (String c s))
    with (String.prefix (String a EmptyString) (String c s)
          || contains (String a EmptyString) s).
  rewrite prefix_char. reflexivity.
Qed.

Lemma contains_char_app (a : ascii) (s t : string) :
  contains (String a EmptyString) (s ++ t)
  = contains (String a EmptyString) s || contains (String a EmptyString) t.
Proof.
  induction s as [| c s IH].
  - cbn [append]. destruct t; reflexivity.
  - cbn [append]. rewrite !contains_char_cons, IH. apply orb_assoc.
Qed.

Lemma string_append_assoc (a b c : string) : ((a ++ b) ++ c = a ++ b ++ c)%string.
Proof.
  induction a as [| x a IH]; [reflexivity |]. cbn [append]. f_equal. exact IH.
Qed.

Lemma string_length_append (a b : string) :
  String.length (a ++ b) = (String.length a + String.length b)%nat.
Proof.
  induction a as [| x a IH]; [reflexivity |]. cbn [append String.length]. rewrite IH. reflexivity.
Qed.

Lemma replace_from_skip (old new t s : string) :
  replace_from old new (String.length t) (t ++ s) = replace_from old new 0 s.
Proof.
  induction t as [| c t IH]; [reflexivity | exact IH].
Qed.

(** The equations of [replace] for a pattern [String u w]. *)
Lemma replace_match (u : ascii) (w new rest : string) :
  replace (String u w) new (String u w ++ rest) = (new ++ replace (String u w) new rest)%string.
Proof.
  unfold replace. cbn [append]. cbn [replace_from].
  change (String u (w ++ rest)) with (String u w ++ rest)%string.
  rewrite prefix_append.
  assert (E : (String.length (String u w) - 1)%nat = String.length w)
    by (cbn [String.length]; lia).
  rewrite E, replace_from_skip. reflexivity.
Qed.

Lemma replace_no_match (old new : string) (c : ascii) (rest : string) :
  String.prefix old (String c rest) = false ->
  replace old new (String c rest) = String c (replace old new rest).
Proof.
  intros H. unfold replace. cbn [replace_from]. rewrite H. reflexivity.
Qed.

Lemma replace_char_cons (a : ascii) (new : string) (c : ascii) (s : string) :
  replace (String a EmptyString) new (String c s)
  = if Ascii.eqb a c then (new ++ replace (String a EmptyString) new s)%string
    else String c (replace (String a EmptyString) new s).
Proof.
  destruct (Ascii.eqb a c) eqn:E.
  - apply Ascii.eqb_eq in E. subst c.
    apply (replace_match a EmptyString new s).
  - apply replace_no_match. rewrite prefix_char. exact E.
Qed.

Lemma replace_char_app (a : ascii) (new s t : string) :
  replace (String a EmptyString) new (s ++ t)
  = (replace (String a EmptyString) new s ++ replace (String a EmptyString) new t)%string.
Proof.
  induction s as [| c s IH]; [reflexivity |].
  cbn [append]. rewrite !replace_char_cons, IH.
  destruct (Ascii.eqb a c); [| reflexivity].
  symmetry. apply string_append_assoc.
Qed.

Lemma replace_char_absent (a : ascii) (new s : string) :
  contains (String a EmptyString) s = false ->
  replace (String a EmptyString) new s = s.
Proof.
  induction s as [| c s IH]; intros H; [reflexivity |].
  rewrite contains_char_cons in H. apply orb_false_elim in H. destruct H as [Hc Hs].
  rewrite replace_char_cons, Hc, (IH Hs). reflexivity.
Qed.

(** No [a] is left where every [a] has been replaced by a string without
    [a]. *)
Lemma replace_char_removes (a : ascii) (new s : string) :
  contains (String a EmptyString) new = false ->
  contains (String a EmptyString) (replace (String a EmptyString) new s) = false.
Proof.
  intros Hnew. induction s as [| c s IH]; [reflexivity |].
  rewrite replace_char_cons. destruct (Ascii.eqb a c) eqn:E.
  - rewrite contains_char_app, Hnew, IH. reflexivity.
  - rewrite contains_char_cons, E, IH. reflexivity.
Qed.

(** Replacing [u w] by [v w] and then every [v] by [u] gives the string
    back, when it holds no [v]. *)
Lemma replace_back (u v : ascii) (w : string) :
  forall raw : string,
    contains (String v EmptyString) raw = false ->
    replace (String v EmptyString) (String u EmptyString)
            (replace (String u w) (String v w) raw) = raw.
Proof.
  intros raw.
  remember (String.length raw) as n eqn:Hn.
  assert (Hle : (String.length raw <= n)%nat) by lia. clear Hn.
  revert raw Hle. induction n as [| n IH]; intros raw Hle Hv.
  - destruct raw; [reflexivity | cbn in Hle; lia].
  - destruct raw as [| c rest]; [reflexivity |].
    destruct (String.prefix (String u w) (String c rest)) eqn:Hp.
    + destruct (prefix_split _ _ Hp) as [tail Htail]. rewrite Htail in *.
      rewrite replace_match.
      change (String v w ++ replace (String u w) (String v w) tail)%string
        with (String v (w ++ replace (String u w) (String v w) tail)).
      rewrite replace_char_cons, Ascii.eqb_refl, replace_char_app.
      change (String u w ++ tail)%string with (String u (w ++ tail)) in Hv, Hle.
      rewrite contains_char_cons, contains_char_app in Hv.
      apply orb_false_elim in Hv. destruct Hv as [_ Hv].
      apply orb_false_elim in Hv. destruct Hv as [Hw Ht].
      rewrite (replace_char_absent v _ w Hw).
      rewrite IH; [reflexivity | | exact Ht].
      cbn [String.length] in Hle. rewrite string_length_append in Hle. lia.
    + rewrite (replace_no_match _ _ _ _ Hp).
      rewrite contains_char_cons in Hv. apply orb_false_elim in Hv. destruct Hv as [Hc Hr].
      rewrite replace_char_cons, Hc. f_equal.
      apply IH; [cbn [String.length] in Hle; lia | exact Hr].
Qed.

Lemma split_not_nil (sep : ascii) (s : string) : split sep s <> [].
Proof.
  destruct s as [| c s]; cbn; [discriminate |].
  destruct (Ascii.eqb c sep); [discriminate |]. destruct (split sep s); discriminate.
Qed.

Lemma split_absent (sep : ascii) (s : string) :
  contains (String sep EmptyString) s = false -> split sep s = [s].
Proof.
  induction s as [| c s IH]; intros H; [reflexivity |].
  rewrite contains_char_cons in H. apply orb_false_elim in H. destruct H as [Hc Hs].
  cbn [split]. rewrite Ascii.eqb_sym, Hc, (IH Hs). reflexivity.
Qed.

Lemma split_app (sep : ascii) (a b : string) :
  contains (String sep EmptyString) a = false ->
  split sep (a ++ String sep b) = a :: split sep b.
Proof.
  induction a as [| c a IH]; intros H.
  - cbn [append split]. rewrite Ascii.eqb_refl. reflexivity.
  - rewrite contains_char_cons in H. apply orb_false_elim in H. destruct H as [Hc Hs].
    cbn [append split]. rewrite Ascii.eqb_sym, Hc, (IH Hs). reflexivity.
Qed.

End PythonStrings.

Section SymbolNames.

Lemma symbol_formats_find (raw : string) :
  contains "/" raw = false ->
  (contains "_USDT" raw || contains "_USDC" raw = true
   /\ replace "/" "_" (symbol_name_of raw) = raw)
  \/ (contains "_USDT" raw = false /\ contains "_USDC" raw = false
      /\ replace "/" "#" (symbol_name_of raw) = raw).
Proof.
  intros H. unfold symbol_name_of.
  destruct (contains "_USDT" raw) eqn:E1; [left | destruct (contains "_USDC" raw) eqn:E2; [left | right]].
  - split; [reflexivity |]. apply (replace_back "_" "/" "USDT" raw H).
  - split; [reflexivity |]. apply (replace_back "_" "/" "USDC" raw H).
  - repeat split. apply (replace_back "#" "/" "" raw H).
Qed.

Lemma symbol_formats_no_slash (symbol : string) :
  Forall (fun fmt => contains "/" fmt = false) (symbol_formats symbol).
Proof.
  unfold symbol_formats. repeat constructor.
  - apply replace_char_removes. reflexivity.
  - apply replace_char_removes. reflexivity.
  - assert (H : contains "/" (replace "/" "" symbol) = false)
      by (apply replace_char_removes; reflexivity).
    revert H. generalize (replace "/" "" symbol). intros s.
    induction s as [| c s IH]; intros H; [reflexivity |].
    rewrite contains_char_cons in H. apply orb_false_elim in H. destruct H as [Hc Hs].
    rewrite replace_char_cons. destruct (Ascii.eqb "_" c); cbn [append]; [exact (IH Hs) |].
    rewrite contains_char_cons, Hc. exact (IH Hs).
Qed.

End SymbolNames.

Section Discovery.

Lemma labelled_entry (p : string) (e : DirEntry.t) :
  contains "=" p = false ->
  DirEntry.is_dir e && startswith (p ++ "=") (DirEntry.name e) = true ->
  exists x, nth_error (split "=" (DirEntry.name e)) 1 = Some x.
Proof.
  intros Hp H. apply andb_prop in H. destruct H as [_ H].
  destruct (prefix_split _ _ H) as [rest ->].
  rewrite string_append_assoc. cbn [append].
  rewrite (split_app "=" p rest Hp). cbn [nth_error].
  destruct (split "=" rest) as [| x l] eqn:E; [exfalso; exact (split_not_nil _ _ E) |].
  exists x. reflexivity.
Qed.

Lemma scan_symbol_item_label (exchange : string) (symbol_item : DirEntry.t)
      (m : list (string * list string)) :
  scan_symbol_item exchange symbol_item m
  = Ok (match entry_label "symbol=" symbol_item with
        | Some raw_symbol => symbol_map_add (symbol_name_of raw_symbol) exchange m
        | None => m
        end).
Proof.
  unfold scan_symbol_item, entry_label.
  destruct (DirEntry.is_dir symbol_item && startswith "symbol=" (DirEntry.name symbol_item))
    eqn:E; [| reflexivity].
  destruct (labelled_entry "symbol" symbol_item eq_refl E) as [x Hx].
  unfold getitem. rewrite Hx. reflexivity.
Qed.

Lemma for_each_symbols (exchange : string) (children : list DirEntry.t) :
  forall m,
    for_each (scan_symbol_item exchange) children m
    = Ok (fold_left (fun m p => symbol_map_add (fst p) (snd p) m)
                    (flat_map (fun symbol_item =>
                                 match entry_label "symbol=" symbol_item with
                                 | Some raw_symbol => [(symbol_name_of raw_symbol, exchange)]
                                 | None => []
                                 end) children) m).
Proof.
  induction children as [| c children IH]; intros m; [reflexivity |].
  cbn [for_each flat_map]. rewrite scan_symbol_item_label. cbn [bind].
  rewrite IH, fold_left_app. destruct (entry_label "symbol=" c); reflexivity.
Qed.

Lemma for_each_items (items : data_tree) :
  forall m,
    for_each scan_item items m
    = Ok (fold_left (fun m p => symbol_map_add (fst p) (snd p) m) (scanned_pairs items) m).
Proof.
  induction items as [| item items IH]; intros m; [reflexivity |].
  cbn [for_each]. unfold scanned_pairs. cbn [flat_map]. fold (scanned_pairs items).
  rewrite fold_left_app.
  unfold scan_item at 1. unfold entry_label at 1.
  destruct (DirEntry.is_dir (fst item) && startswith "exchange=" (DirEntry.name (fst item)))
    eqn:E.
  - destruct (labelled_entry "exchange" (fst item) eq_refl E) as [x Hx].
    unfold getitem. rewrite Hx. cbn [bind].
    rewrite for_each_symbols. cbn [bind]. apply IH.
  - cbn [bind fold_left]. apply IH.
Qed.

Lemma scanned_pairs_seen (items : data_tree) (symbol exchange : string) :
  In (symbol, exchange) (scanned_pairs items) <-> seen items symbol exchange.
Proof.
  unfold scanned_pairs, seen. rewrite in_flat_map. split.
  - intros ([item children] & Hin & H). cbn [fst snd] in H.
    destruct (entry_label "exchange=" item) as [ex |] eqn:Ee; [| contradiction].
    apply in_flat_map in H. destruct H as (symbol_item & Hc & H).
    destruct (entry_label "symbol=" symbol_item) as [raw |] eqn:Es; [| contradiction].
    destruct H as [H | []]. injection H as <- <-.
    exists item, children, symbol_item, raw. auto.
  - intros (item & children & symbol_item & raw & Hin & He & Hc & Hs & ->).
    exists (item, children). split; [exact Hin |]. cbn [fst snd]. rewrite He.
    apply in_flat_map. exists symbol_item. split; [exact Hc |]. rewrite Hs. left. reflexivity.
Qed.

(** *** The map built by the additions *)

Lemma set_add_in (x y : string) (s : list string) :
  In y (set_add x s) <-> y = x \/ In y s.
Proof.
  unfold set_add. destruct (existsb (String.eqb x) s) eqn:E.
  - apply existsb_eqb_in in E. split; [auto | intros [-> | H]; assumption].
  - rewrite in_app_iff. cbn [In]. split; intros H; intuition.
Qed.

Lemma set_add_nodup (x : string) (s : list string) : NoDup s -> NoDup (set_add x s).
Proof.
  intros H. unfold set_add. destruct (existsb (String.eqb x) s) eqn:E; [exact H |].
  assert (Hn : ~ In x s) by (intros Hin; apply existsb_eqb_in in Hin; congruence).
  clear E. induction H as [| y s Hy Hs IH]; cbn [app].
  - constructor; [intros [] | constructor].
  - constructor.
    + rewrite in_app_iff. cbn [In]. intros [H | [H | []]]; [contradiction |].
      apply Hn. left. symmetry. exact H.
    + apply IH. intros Hin. apply Hn. right. exact Hin.
Qed.

Lemma dict_set_keys {V : Type} (d : list (string * V)) (k : string) (v : V) :
  map fst (dict_set d k v)
  = if existsb (String.eqb k) (map fst d) then map fst d else map fst d ++ [k].
Proof.
  induction d as [| [k' v'] d IH]; [reflexivity |].
  cbn [dict_set map fst existsb].
  destruct (String.eqb_spec k k') as [-> | Hk]; cbn [orb map fst]; [reflexivity |].
  rewrite IH. destruct (existsb (String.eqb k) (map fst d)); reflexivity.
Qed.

Lemma dict_set_keys_nodup {V : Type} (d : list (string * V)) (k : string) (v : V) :
  NoDup (map fst d) -> NoDup (map fst (dict_set d k v)).
Proof.
  intros H. rewrite dict_set_keys. apply (set_add_nodup k (map fst d) H).
Qed.

Lemma dict_get_in {V : Type} (d : list (string * V)) (k : string) (v : V) :
  NoDup (map fst d) -> (In (k, v) d <-> dict_get d k = Some v).
Proof.
  induction d as [| [k' v'] d IH]; intros Hnd; [split; [intros [] | discriminate] |].
  cbn [map fst] in Hnd. inversion Hnd as [| ? ? Hk Hd]; subst.
  cbn [dict_get In]. destruct (String.eqb_spec k k') as [-> | Hne].
  - split.
    + intros [H | H]; [congruence |]. exfalso. apply Hk.
      apply in_map_iff. exists (k', v). auto.
    + intros H. left. congruence.
  - rewrite <- (IH Hd). split; [intros [H | H]; [congruence | exact H] | auto].
Qed.

(** What the map holds after a sequence of additions. *)
Lemma additions_invariant (pairs : list (string * string)) :
  let m := fold_left (fun m p => symbol_map_add (fst p) (snd p) m) pairs [] in
  NoDup (map fst m)
  /\ (forall symbol exchanges,
         dict_get m symbol = Some exchanges ->
         NoDup exchanges /\ exchanges <> []
         /\ forall exchange, In exchange exchanges <-> In (symbol, exchange) pairs)
  /\ (forall symbol exchange,
         In (symbol, exchange) pairs -> exists exchanges, dict_get m symbol = Some exchanges).
Proof.
  cbv zeta. induction pairs as [| [s x] pairs IH] using rev_ind.
  - cbn. split; [constructor |]. split; [discriminate | intros ? ? []].
  - rewrite fold_left_app. cbn [fold_left fst snd].
    set (m := fold_left (fun m p => symbol_map_add (fst p) (snd p) m) pairs []) in *.
    destruct IH as (Hk & Hv & Hc).
    unfold symbol_map_add. split; [apply dict_set_keys_nodup; exact Hk |]. split.
    + intros symbol exchanges. rewrite dict_get_set.
      destruct (String.eqb_spec symbol s) as [-> | Hne].
      * intros H. injection H as <-.
        destruct (dict_get m s) as [e |] eqn:Eg.
        -- destruct (Hv s e Eg) as (Hnd & _ & Hin).
           split; [apply set_add_nodup; exact Hnd |]. split.
           ++ intros E. assert (Hx : In x (set_add x e)) by (apply set_add_in; auto).
              rewrite E in Hx. exact Hx.
           ++ intros exchange. rewrite set_add_in, in_app_iff, Hin. cbn [In].
              split; [intros [-> | H]; auto | intros [H | [H | []]]; [auto | left; congruence]].
        -- split; [apply set_add_nodup; constructor |]. split; [discriminate |].
           intros exchange. rewrite set_add_in, in_app_iff. cbn [In].
           split; [intros [-> | []]; auto |].
           intros [H | [H | []]]; [| left; congruence].
           destruct (Hc s exchange H) as [e He]. congruence.
      * intros H. destruct (Hv symbol exchanges H) as (Hnd & Hne' & Hin).
        split; [exact Hnd |]. split; [exact Hne' |].
        intros exchange. rewrite Hin, in_app_iff. cbn [In].
        split; [auto | intros [H' | [H' | []]]; [exact H' | congruence]].
    + intros symbol exchange. rewrite in_app_iff, dict_get_set. cbn [In].
      destruct (String.eqb_spec symbol s) as [-> | Hne]; [eauto |].
      intros [H | [H | []]]; [eapply Hc; exact H | congruence].
Qed.

Lemma nodup_two (l : list string) :
  NoDup l -> ((2 <= length l)%nat <-> exists a b, In a l /\ In b l /\ a <> b).
Proof.
  intros H. split.
  - destruct l as [| a [| b l]]; cbn [length]; try lia. intros _.
    exists a, b. cbn [In]. repeat split; auto.
    inversion H as [| ? ? Ha _]; subst. intros ->. apply Ha. left. reflexivity.
  - intros (a & b & Ha & Hb & Hab).
    destruct l as [| c [| d l]]; cbn [length]; try lia; [destruct Ha |].
    destruct Ha as [-> | []], Hb as [-> | []]. congruence.
Qed.

Lemma filter_keys_nodup {V : Type} (f : string * V -> bool) (d : list (string * V)) :
  NoDup (map fst d) -> NoDup (map fst (filter f d)).
Proof.
  induction d as [| [k v] d IH]; intros H; [constructor |].
  cbn [map fst] in H. inversion H as [| ? ? Hk Hd]; subst.
  cbn [filter]. destruct (f (k, v)); [| exact (IH Hd)].
  cbn [map fst]. constructor; [| exact (IH Hd)].
  intros Hin. apply Hk. apply in_map_iff in Hin. destruct Hin as ([k' v'] & E & Hin).
  apply filter_In in Hin. apply in_map_iff. exists (k', v'). tauto.
Qed.

Lemma discover_data_spec (items : data_tree) :
  exists symbols,
    discover_data (Some items) = Ok symbols
    /\ NoDup (map fst symbols)
    /\ (forall symbol exchanges,
           In (symbol, exchanges) symbols ->
           NoDup exchanges /\ (2 <= length exchanges)%nat
           /\ forall exchange, In exchange exchanges <-> seen items symbol exchange)
    /\ (forall symbol ex1 ex2,
           seen items symbol ex1 -> seen items symbol ex2 -> ex1 <> ex2 ->
           In symbol (map fst symbols)).
Proof.
  destruct (additions_invariant (scanned_pairs items)) as (Hk & Hv & Hc). cbv zeta in *.
  set (m := fold_left (fun m p => symbol_map_add (fst p) (snd p) m) (scanned_pairs items) [])
    in *.
  exists (filter (fun entry => (2 <=? length (snd entry))%nat) m).
  split; [| split; [| split]].
  - unfold discover_data. rewrite for_each_items. reflexivity.
  - apply filter_keys_nodup. exact Hk.
  - intros symbol exchanges Hin. apply filter_In in Hin. destruct Hin as [Hin Hlen].
    cbn [snd] in Hlen. apply Nat.leb_le in Hlen.
    apply (dict_get_in m symbol exchanges Hk) in Hin.
    destruct (Hv symbol exchanges Hin) as (Hnd & _ & Hmem).
    split; [exact Hnd |]. split; [exact Hlen |].
    intros exchange. rewrite Hmem. apply scanned_pairs_seen.
  - intros symbol ex1 ex2 H1 H2 Hne.
    apply scanned_pairs_seen in H1, H2.
    destruct (Hc symbol ex1 H1) as [exchanges Hg].
    destruct (Hv symbol exchanges Hg) as (Hnd & _ & Hmem).
    apply in_map_iff. exists (symbol, exchanges). split; [reflexivity |].
    apply filter_In. split; [apply (dict_get_in m symbol exchanges Hk); exact Hg |].
    cbn [snd]. apply Nat.leb_le. apply (nodup_two exchanges Hnd).
    exists ex1, ex2. rewrite !Hmem. auto.
Qed.

End Discovery.

Section Planning.

Lemma dict_set_fresh {V : Type} (d : list (string * V)) (k : string) (v : V) :
  ~ In k (map fst d) -> dict_set d k v = d ++ [(k, v)].
Proof.
  induction d as [| [k' v'] d IH]; intros H; [reflexivity |].
  cbn [dict_set app]. cbn [map fst In] in H.
  destruct (String.eqb_spec k k') as [-> | Hne]; [exfalso; apply H; left; reflexivity |].
  rewrite IH; [reflexivity | intros Hin; apply H; right; exact Hin].
Qed.

Lemma filter_exchanges_fold (exchanges_filter : list string) :
  forall (symbols acc : list (string * list string)),
    NoDup (map fst acc ++ map fst symbols) ->
    fold_left
      (fun filtered_symbols entry =>
         let filtered_exchanges :=
           filter (fun exchange => existsb (String.eqb exchange) exchanges_filter)
                  (snd entry) in
         if (2 <=? length filtered_exchanges)%nat
         then dict_set filtered_symbols (fst entry) filtered_exchanges
         else filtered_symbols)
      symbols acc
    = acc ++ filter (fun entry => (2 <=? length (snd entry))%nat)
                    (map (fun entry =>
                            (fst entry,
                             filter (fun exchange =>
                                       existsb (String.eqb exchange) exchanges_filter)
                                    (snd entry)))
                         symbols).
Proof.
  induction symbols as [| [s e] symbols IH]; intros acc Hnd.
  - cbn. rewrite app_nil_r. reflexivity.
  - cbn [fold_left map filter fst snd]. cbv zeta.
    cbn [map fst] in Hnd.
    assert (Hs : ~ In s (map fst acc)).
    { intros Hin. apply NoDup_remove_2 in Hnd. apply Hnd.
      apply in_or_app. left. exact Hin. }
    destruct (2 <=? length (filter _ e))%nat eqn:E.
    + rewrite (dict_set_fresh acc s _ Hs), IH.
      * rewrite <- app_assoc. reflexivity.
      * rewrite map_app. cbn [map fst]. rewrite <- app_assoc. exact Hnd.
    + apply IH. apply NoDup_remove_1 in Hnd. exact Hnd.
Qed.

Lemma filter_exchanges_eq (exchanges_filter : list string)
      (symbols : list (string * list string)) :
  NoDup (map fst symbols) ->
  filter_exchanges exchanges_filter symbols
  = filter (fun entry => (2 <=? length (snd entry))%nat)
           (map (fun entry =>
                   (fst entry,
                    filter (fun exchange => existsb (String.eqb exchange) exchanges_filter)
                           (snd entry)))
                symbols).
Proof.
  intros H. unfold filter_exchanges. rewrite filter_exchanges_fold; [reflexivity | exact H].
Qed.

Lemma pairs_at_least_one {A : Type} (l : list A) :
  (2 <= length l)%nat -> (1 <= length (combinations2 l))%nat.
Proof.
  destruct l as [| a [| b l]]; cbn [length]; try lia. intros _.
  cbn [combinations2 map app length]. lia.
Qed.

Lemma total_pairs_at_least (symbols : list (string * list string)) :
  Forall (fun entry => (2 <= length (snd entry))%nat) symbols ->
  Z.of_nat (length symbols) <= total_pairs_of symbols.
Proof.
  intros H. unfold total_pairs_of. rewrite total_pairs_fold.
  induction H as [| entry symbols He _ IH]; [cbn; lia |].
  cbn [map concat length]. rewrite length_app.
  pose proof (pairs_at_least_one (snd entry) He). lia.
Qed.

(** The dictionaries that can reach the task loop. *)
Lemma planned_symbols (items : data_tree) (symbols : list (string * list string))
      (exchanges_filter : option (list string))
      (data_path : string) (start_date end_date : option string)
      (thresholds : option (list float)) (zero_threshold : float)
      (planned : list batch_args * Z) :
  discover_data (Some items) = Ok symbols ->
  plan_batches symbols exchanges_filter data_path start_date end_date thresholds
               zero_threshold = Some planned ->
  exists kept,
    kept <> []
    /\ planned = prepare_batches data_path start_date end_date thresholds zero_threshold kept
    /\ NoDup (map fst kept)
    /\ (forall symbol exchanges,
           In (symbol, exchanges) kept ->
           NoDup exchanges /\ (2 <= length exchanges)%nat
           /\ forall exchange,
               In exchange exchanges
               <-> seen items symbol exchange /\ allowed exchanges_filter exchange)
    /\ (forall symbol ex1 ex2,
           seen items symbol ex1 -> seen items symbol ex2 -> ex1 <> ex2 ->
           allowed exchanges_filter ex1 -> allowed exchanges_filter ex2 ->
           In symbol (map fst kept)).
Proof.
  intros Hd Hp.
  destruct (discover_data_spec items) as (symbols' & Hd' & Hk & Hv & Hc).
  assert (Hs : symbols' = symbols) by congruence. subst symbols'. clear Hd Hd'.
  unfold plan_batches in Hp.
  destruct symbols as [| entry0 symbols0] eqn:Esym; [discriminate |]. rewrite <- Esym in *.
  assert (Hne : symbols <> []) by (rewrite Esym; discriminate). clear Esym.
  assert (Hplain :
            allowed exchanges_filter = (fun _ => True) ->
            Some (prepare_batches data_path start_date end_date thresholds zero_threshold
                                  symbols) = Some planned ->
            exists kept,
              kept <> []
              /\ planned = prepare_batches data_path start_date end_date thresholds
                                           zero_threshold kept
              /\ NoDup (map fst kept)
              /\ (forall symbol exchanges,
                     In (symbol, exchanges) kept ->
                     NoDup exchanges /\ (2 <= length exchanges)%nat
                     /\ forall exchange,
                         In exchange exchanges
                         <-> seen items symbol exchange /\ allowed exchanges_filter exchange)
              /\ (forall symbol ex1 ex2,
                     seen items symbol ex1 -> seen items symbol ex2 -> ex1 <> ex2 ->
                     allowed exchanges_filter ex1 -> allowed exchanges_filter ex2 ->
                     In symbol (map fst kept))).
  { intros Ha H. injection H as <-. exists symbols. rewrite Ha.
    split; [exact Hne |]. split; [reflexivity |]. split; [exact Hk |]. split.
    - intros symbol exchanges Hin. destruct (Hv symbol exchanges Hin) as (H1 & H2 & H3).
      split; [exact H1 |]. split; [exact H2 |]. intros x. rewrite H3. tauto.
    - intros symbol ex1 ex2 H1 H2 H3 _ _. exact (Hc symbol ex1 ex2 H1 H2 H3). }
  destruct exchanges_filter as [[| name names] |]; [apply Hplain; [reflexivity | exact Hp] | | apply Hplain; [reflexivity | exact Hp]].
  clear Hplain.
  rewrite (filter_exchanges_eq (name :: names) symbols Hk) in Hp.
  set (keep := fun exchange : string => existsb (String.eqb exchange) (name :: names)) in *.
  set (kept := filter (fun entry : string * list string => (2 <=? length (snd entry))%nat)
                      (map (fun entry => (fst entry, filter keep (snd entry))) symbols)) in *.
  assert (Hkeep : forall x, keep x = true <-> In x (name :: names))
    by (intros x; apply existsb_eqb_in).
  exists kept.
  destruct kept as [| entry entries] eqn:Ekept; [discriminate |]. rewrite <- Ekept in *.
  injection Hp as <-.
  split; [rewrite Ekept; discriminate |]. split; [reflexivity |]. clear Ekept.
  split; [| split].
  - subst kept. apply filter_keys_nodup. rewrite map_map. cbn [fst]. exact Hk.
  - intros symbol exchanges Hin. subst kept. apply filter_In in Hin.
    destruct Hin as [Hin Hlen]. cbn [snd] in Hlen. apply Nat.leb_le in Hlen.
    apply in_map_iff in Hin. destruct Hin as ([s e] & E & Hin). cbn [fst snd] in E.
    injection E as -> <-.
    destruct (Hv symbol e Hin) as (H1 & H2 & H3).
    split; [apply NoDup_filter; exact H1 |]. split; [exact Hlen |].
    intros x. rewrite filter_In, H3, Hkeep. reflexivity.
  - intros symbol ex1 ex2 H1 H2 Hne' Ha1 Ha2. cbn [allowed] in Ha1, Ha2.
    pose proof (Hc symbol ex1 ex2 H1 H2 Hne') as Hin.
    apply in_map_iff in Hin. destruct Hin as ([s e] & E & Hin). cbn [fst] in E. subst s.
    destruct (Hv symbol e Hin) as (Hnd & _ & Hmem).
    apply in_map_iff. exists (symbol, filter keep e). split; [reflexivity |].
    subst kept. apply filter_In. split.
    + apply in_map_iff. exists (symbol, e). split; [reflexivity | exact Hin].
    + cbn [snd]. apply Nat.leb_le.
      apply (nodup_two (filter keep e) (NoDup_filter keep Hnd)).
      exists ex1, ex2. rewrite !filter_In, !Hmem, !Hkeep. auto.
Qed.

End Planning.

(** The directory that [discover_data] read a symbol from is among the
    candidates of [load_exchange_symbol_data] for that symbol.  For a
    directory [symbol=raw], where [raw] holds no [=] (and, as a file name, no
    [/]): the name splits back into [raw]; [raw] is one of the three formats
    tried for the symbol derived from it, so the search finds a directory;
    and the directory found is this one, unless [raw] holds neither [_USDT]
    nor [_USDC] and the first format, with [_], names a directory too. *)
Theorem discovered_directory_is_found :
  forall (entries : list string) (raw : string),
    contains "/" raw = false ->
    contains "=" raw = false ->
    In ("symbol=" ++ raw)%string entries ->
    startswith "symbol=" ("symbol=" ++ raw) = true
    /\ getitem (split "=" ("symbol=" ++ raw)) 1 = Ok raw
    /\ In raw (symbol_formats (symbol_name_of raw))
    /\ exists path,
        find_symbol_path entries (symbol_name_of raw) = Some path
        /\ In path entries
        /\ (path = ("symbol=" ++ raw)%string
            \/ (contains "_USDT" raw = false /\ contains "_USDC" raw = false
                /\ path = ("symbol=" ++ replace "/" "_" (symbol_name_of raw))%string)).
Proof.
  intros entries raw Hslash Heq Hin.
  split; [apply (prefix_append "symbol=" raw) |]. split.
  { change ("symbol=" ++ raw)%string with ("symbol" ++ String "=" raw)%string.
    rewrite (split_app "=" "symbol" raw eq_refl), (split_absent "=" raw Heq). reflexivity. }
  assert (Hex : existsb (String.eqb ("symbol=" ++ raw)) entries = true)
    by (apply existsb_eqb_in; exact Hin).
  unfold find_symbol_path, symbol_formats. cbn [map find In].
  destruct (symbol_formats_find raw Hslash) as [[_ E] | (E1 & E2 & E)].
  - split; [left; exact E |].
    exists ("symbol=" ++ raw)%string. rewrite E, Hex. auto.
  - split; [right; left; exact E |].
    destruct (existsb (String.eqb ("symbol=" ++ replace "/" "_" (symbol_name_of raw)))
                      entries) eqn:E0.
    + exists ("symbol=" ++ replace "/" "_" (symbol_name_of raw))%string.
      split; [reflexivity |]. split; [apply existsb_eqb_in; exact E0 | auto].
    + exists ("symbol=" ++ raw)%string. rewrite E, Hex. auto.
Qed.

Lemma discovered_directory_is_found_witness :
  find_symbol_path ["symbol=ETH#USDT"; "symbol=BTC_USDT"]%string (symbol_name_of "ETH#USDT")
  = Some "symbol=ETH#USDT"%string.
Proof.
  destruct (discovered_directory_is_found
              ["symbol=ETH#USDT"; "symbol=BTC_USDT"]%string "ETH#USDT"
              eq_refl eq_refl (or_introl eq_refl))
    as (_ & _ & _ & path & Hp & _ & [E | (_ & _ & E)]).
  - rewrite Hp, E. reflexivity.
  - rewrite Hp. vm_compute in E. vm_compute in Hp. rewrite E in Hp. discriminate Hp.
Defined.

(** [discover_data] never raises.  It returns the empty dictionary for a
    path that does not exist, and otherwise a dictionary whose keys are
    distinct and whose values are sets of at least two distinct exchanges:
    exactly the exchanges whose directory holds a directory of the symbol,
    for exactly the symbols that have two such exchanges. *)
Theorem discover_data_groups :
  discover_data None = Ok []
  /\ forall items : data_tree,
      exists symbols,
        discover_data (Some items) = Ok symbols
        /\ NoDup (map fst symbols)
        /\ (forall symbol exchanges,
               In (symbol, exchanges) symbols ->
               NoDup exchanges /\ (2 <= length exchanges)%nat
               /\ forall exchange, In exchange exchanges <-> seen items symbol exchange)
        /\ (forall symbol ex1 ex2,
               seen items symbol ex1 -> seen items symbol ex2 -> ex1 <> ex2 ->
               In symbol (map fst symbols)).
Proof.
  split; [reflexivity | exact discover_data_spec].
Qed.

Lemma discover_data_groups_witness :
  discover_data (Some sample_tree)
  = Ok [ ("BTC/USDT", ["Binance"; "Bybit"; "OKX"]); ("ETH/USDT", ["Binance"; "Bybit"]) ]%string
  /\ seen sample_tree "ETH/USDT" "Bybit".
Proof.
  destruct (proj2 discover_data_groups sample_tree) as (symbols & Hd & _ & Hv & _).
  assert (E : symbols
              = [ ("BTC/USDT", ["Binance"; "Bybit"; "OKX"]);
                  ("ETH/USDT", ["Binance"; "Bybit"]) ]%string)
    by (vm_compute in Hd; injection Hd as <-; reflexivity).
  split; [rewrite Hd, E; reflexivity |].
  assert (Hin : In ("ETH/USDT", ["Binance"; "Bybit"])%string symbols)
    by (rewrite E; right; left; reflexivity).
  destruct (Hv _ _ Hin) as (_ & _ & Hm). apply Hm. right. left. reflexivity.
Defined.

(** Every task that [run_ultra_fast_analysis] hands to the pool has a symbol
    of its own and at least two distinct exchanges: those of the data
    directory that hold the symbol and pass the exchange filter (an empty
    filter list is no filter).  Hence there is at least one task when the
    function does not return early, [total_pairs] is at least the number of
    tasks, and [analyze_symbol_batch] returns a non-empty list of results on
    each task, whatever the loads give.  A symbol seen on two distinct
    exchanges that pass the filter has a task. *)
Theorem planned_tasks_have_pairs :
  forall (items : data_tree) (symbols : list (string * list string))
         (exchanges_filter : option (list string))
         (data_path : string) (start_date end_date : option string)
         (thresholds : option (list float)) (zero_threshold : float)
         (tasks : list batch_args) (total_pairs : Z),
    discover_data (Some items) = Ok symbols ->
    plan_batches symbols exchanges_filter data_path start_date end_date thresholds
                 zero_threshold = Some (tasks, total_pairs) ->
    tasks <> []
    /\ Z.of_nat (length tasks) <= total_pairs
    /\ NoDup (map task_symbol tasks)
    /\ (forall task,
           In task tasks ->
           NoDup (task_exchanges task)
           /\ (2 <= length (task_exchanges task))%nat
           /\ (forall exchange,
                  In exchange (task_exchanges task)
                  <-> seen items (task_symbol task) exchange
                      /\ allowed exchanges_filter exchange)
           /\ forall load completion,
               exists results,
                 analyze_symbol_batch load completion task = inr results
                 /\ results <> [])
    /\ (forall symbol ex1 ex2,
           seen items symbol ex1 -> seen items symbol ex2 -> ex1 <> ex2 ->
           allowed exchanges_filter ex1 -> allowed exchanges_filter ex2 ->
           In symbol (map task_symbol tasks)).
Proof.
  intros items symbols exchanges_filter data_path start_date end_date thresholds
         zero_threshold tasks total_pairs Hd Hp.
  destruct (planned_symbols items symbols exchanges_filter data_path start_date end_date
              thresholds zero_threshold (tasks, total_pairs) Hd Hp)
    as (kept & Hne & E & Hk & Hv & Hc).
  unfold prepare_batches in E. injection E as -> ->.
  assert (Hsym : map task_symbol
                     (map (fun entry : string * list string =>
                             (fst entry, snd entry, data_path, start_date, end_date,
                              thresholds, zero_threshold)) kept)
                 = map fst kept)
    by (rewrite map_map; reflexivity).
  split; [destruct kept; [contradiction | discriminate] |].
  split.
  { rewrite length_map. apply total_pairs_at_least. apply Forall_forall.
    intros [s e] Hin. cbn [snd]. apply (Hv s e Hin). }
  split; [rewrite Hsym; exact Hk |].
  split; [| rewrite Hsym; exact Hc].
  intros task Hin. apply in_map_iff in Hin. destruct Hin as ([s e] & <- & Hin).
  cbn [fst snd task_symbol task_exchanges].
  destruct (Hv s e Hin) as (Hnd & Hlen & Hmem).
  split; [exact Hnd |]. split; [exact Hlen |]. split; [exact Hmem |].
  intros load completion.
  assert (Hne' : e <> []) by (intros ->; cbn in Hlen; lia).
  rewrite (analyze_symbol_batch_inr load completion s e data_path start_date end_date
             thresholds zero_threshold Hne').
  eexists. split; [reflexivity |].
  intros E. apply (f_equal (@length _)) in E. rewrite length_map in E.
  rewrite (combinations2_length_perm _ _ (sorted_perm e)) in E.
  pose proof (pairs_at_least_one e Hlen) as H1. cbn [length] in E. lia.
Qed.

Lemma planned_tasks_have_pairs_witness :
  exists symbols tasks,
    discover_data (Some sample_tree) = Ok symbols
    /\ plan_batches symbols (Some ["OKX"; "Bybit"; "Binance"]%string) "data" None None None
                    default_zero_threshold = Some (tasks, 4)
    /\ map task_symbol tasks = ["BTC/USDT"; "ETH/USDT"]%string
    /\ Z.of_nat (length tasks) <= 4.
Proof.
  destruct (discover_data (Some sample_tree)) as [symbols | e] eqn:Hd;
    [| vm_compute in Hd; discriminate Hd].
  destruct (plan_batches symbols (Some ["OKX"; "Bybit"; "Binance"]%string) "data" None None
                         None default_zero_threshold) as [[tasks total_pairs] |] eqn:Hp;
    [| vm_compute in Hd; injection Hd as <-; vm_compute in Hp; discriminate Hp].
  exists symbols, tasks.
  destruct (planned_tasks_have_pairs sample_tree symbols
              (Some ["OKX"; "Bybit"; "Binance"]%string) "data" None None None
              default_zero_threshold tasks total_pairs Hd Hp) as (_ & Hle & _).
  assert (E : total_pairs = 4
              /\ map task_symbol tasks = ["BTC/USDT"; "ETH/USDT"]%string).
  { vm_compute in Hd. injection Hd as <-. vm_compute in Hp.
    injection Hp as <- <-. split; reflexivity. }
  destruct E as [-> Es]. repeat split; assumption.
Defined.

Section Dates.

Lemma date_selected_same (d x : string) :
  d <> EmptyString ->
  (date_selected (Some d) (Some d) x = true <-> x = d).
Proof.
  intros Hd. unfold date_selected.
  assert (Ht : str_truthy (Some d) = true) by (destruct d; [contradiction | reflexivity]).
  rewrite Ht. cbn [negb orb]. rewrite andb_true_iff. split.
  - intros [H1 H2]. apply String.leb_antisym; assumption.
  - intros ->. split; apply string_leb_refl.
Qed.

Lemma date_selected_wider (start_date end_date start_date' end_date' : option string)
      (x : string) :
  looser_start start_date' start_date ->
  looser_end end_date' end_date ->
  date_selected start_date end_date x = true ->
  date_selected start_date' end_date' x = true.
Proof.
  intros Hs He. unfold date_selected. rewrite !andb_true_iff. intros [H1 H2]. split.
  - destruct Hs as [-> | (a & b & -> & -> & Hb & Hab)]; [reflexivity |].
    rewrite Hb in H1. cbn [negb orb] in H1.
    apply orb_true_iff. right. exact (string_leb_trans a b x Hab H1).
  - destruct He as [-> | (a & b & -> & -> & Hb & Hab)]; [reflexivity |].
    rewrite Hb in H2. cbn [negb orb] in H2.
    apply orb_true_iff. right. exact (string_leb_trans x b a H2 Hab).
Qed.

Lemma available_dates_fold (start_date end_date : option string) (entries : list DirEntry.t) :
  forall dates,
    for_each
      (fun item dates =>
         if DirEntry.is_dir item && startswith "date=" (DirEntry.name item)
         then
           date_str <- getitem (split "=" (DirEntry.name item)) 1 ;;
           if date_selected start_date end_date date_str
           then Ok (dates ++ [date_str])
           else Ok dates
         else Ok dates)
      entries dates
    = Ok (dates
          ++ filter (date_selected start_date end_date)
               (flat_map (fun item => match entry_label "date=" item with
                                      | Some d => [d]
                                      | None => []
                                      end) entries)).
Proof.
  induction entries as [| item entries IH]; intros dates.
  - cbn. rewrite app_nil_r. reflexivity.
  - cbn [for_each flat_map]. unfold entry_label at 1.
    destruct (DirEntry.is_dir item && startswith "date=" (DirEntry.name item)) eqn:E.
    + destruct (labelled_entry "date" item eq_refl E) as [x Hx].
      unfold getitem. rewrite Hx. cbn [bind app filter].
      destruct (date_selected start_date end_date x); cbn [bind]; rewrite IH;
        [rewrite <- app_assoc |]; reflexivity.
    + cbn [bind app]. apply IH.
Qed.

Lemma available_dates_in (start_date end_date : option string) (entries : list DirEntry.t) :
  exists dates,
    available_dates entries start_date end_date = Ok dates
    /\ forall d, In d dates
                 <-> (exists item, In item entries /\ entry_label "date=" item = Some d)
                     /\ date_selected start_date end_date d = true.
Proof.
  unfold available_dates. rewrite available_dates_fold. cbn [app].
  eexists. split; [reflexivity |].
  intros d. rewrite filter_In, in_flat_map. split.
  - intros [(item & Hin & H) Hs]. split; [| exact Hs].
    exists item. split; [exact Hin |].
    destruct (entry_label "date=" item); [| contradiction].
    destruct H as [-> | []]. reflexivity.
  - intros [(item & Hin & H) Hs]. split; [| exact Hs].
    exists item. split; [exact Hin |]. rewrite H. left. reflexivity.
Qed.

End Dates.

(** With a date filter, [load_exchange_symbol_data] collects the dates
    without raising: they are the parts after [date=] of the names of the
    directories that start with [date=] and lie in the range.  With the one
    date that [--date] or [--today] stands for as both bounds, every date
    collected is that date. *)
Theorem single_date_selects_that_date :
  forall (entries : list DirEntry.t) (today : bool) (today_str : string)
         (date start_date end_date config_start config_end : option string) (d : string),
    (if today then today_str = d else date = Some d) ->
    d <> EmptyString ->
    let '(start, end_) :=
      select_dates today today_str date start_date end_date config_start config_end in
    exists dates,
      available_dates entries start end_ = Ok dates
      /\ (forall x, In x dates -> x = d)
      /\ ((exists item, In item entries /\ entry_label "date=" item = Some d)
          <-> In d dates).
Proof.
  intros entries today today_str date start_date end_date config_start config_end d Hd Hne.
  assert (E : select_dates today today_str date start_date end_date config_start config_end
              = (Some d, Some d)).
  { unfold select_dates. destruct today; [rewrite Hd; reflexivity |].
    rewrite Hd. destruct d; [contradiction | reflexivity]. }
  rewrite E.
  destruct (available_dates_in (Some d) (Some d) entries) as (dates & Ha & Hin).
  exists dates. split; [exact Ha |]. split.
  - intros x Hx. apply Hin in Hx. destruct Hx as [_ Hx].
    apply (date_selected_same d x Hne). exact Hx.
  - rewrite Hin. split; [| tauto].
    intros H. split; [exact H |]. apply (date_selected_same d d Hne). reflexivity.
Qed.

Lemma single_date_selects_that_date_witness :
  available_dates sample_dates (Some "2025-11-03"%string) (Some "2025-11-03"%string)
  = Ok ["2025-11-03"%string].
Proof.
  pose proof (single_date_selects_that_date sample_dates false "2025-11-05"
                (Some "2025-11-03"%string) (Some "2025-11-01"%string) None None None
                "2025-11-03" eq_refl ltac:(discriminate)) as H.
  cbn [select_dates str_truthy] in H.
  destruct H as (dates & Ha & _). rewrite Ha. vm_compute in Ha. symmetry. exact Ha.
Defined.

(** A looser date range collects every date that a tighter one collects: a
    bound may be dropped ([None] or the empty string) or moved outwards. *)
Theorem wider_range_selects_more :
  forall (entries : list DirEntry.t) (start_date end_date start_date' end_date' : option string),
    looser_start start_date' start_date ->
    looser_end end_date' end_date ->
    exists dates dates',
      available_dates entries start_date end_date = Ok dates
      /\ available_dates entries start_date' end_date' = Ok dates'
      /\ incl dates dates'.
Proof.
  intros entries start_date end_date start_date' end_date' Hs He.
  destruct (available_dates_in start_date end_date entries) as (dates & Ha & Hin).
  destruct (available_dates_in start_date' end_date' entries) as (dates' & Ha' & Hin').
  exists dates, dates'. split; [exact Ha |]. split; [exact Ha' |].
  intros x Hx. apply Hin in Hx. destruct Hx as [Hx Hsel]. apply Hin'. split; [exact Hx |].
  exact (date_selected_wider _ _ _ _ x Hs He Hsel).
Qed.

Lemma wider_range_selects_more_witness :
  exists dates dates',
    available_dates sample_dates (Some "2025-11-02"%string) (Some "2025-11-03"%string)
    = Ok dates
    /\ available_dates sample_dates (Some "2025-11-01"%string) (Some EmptyString) = Ok dates'
    /\ incl dates dates'.
Proof.
  apply (wider_range_selects_more sample_dates).
  - right. exists "2025-11-01"%string, "2025-11-02"%string. repeat split.
  - left. reflexivity.
Defined.

Section Frames.

Lemma insert_by_timestamp_perm (r : Tick.t) (l : list Tick.t) :
  Permutation (insert_by_timestamp r l) (r :: l).
Proof.
  induction l as [| x l IH]; cbn [insert_by_timestamp]; [reflexivity |].
  destruct (Tick.timestamp r <=? Tick.timestamp x); [reflexivity |].
  rewrite IH. apply perm_swap.
Qed.

Lemma insert_by_timestamp_sorted (r : Tick.t) (l : list Tick.t) :
  StronglySorted time_le l -> StronglySorted time_le (insert_by_timestamp r l).
Proof.
  induction l as [| x l IH]; intros H; cbn [insert_by_timestamp].
  - constructor; constructor.
  - apply StronglySorted_inv in H. destruct H as [Hl Hx].
    destruct (Z.leb_spec (Tick.timestamp r) (Tick.timestamp x)) as [Hle | Hgt].
    + constructor; [constructor; assumption |].
      constructor; [exact Hle |].
      eapply Forall_impl; [| exact Hx]. unfold time_le. intros y Hy. lia.
    + constructor; [exact (IH Hl) |].
      rewrite insert_by_timestamp_perm. constructor; [unfold time_le; lia | exact Hx].
Qed.

Lemma insertion_sort_sorts : sorts_by_timestamp insertion_sort.
Proof.
  intros l. unfold insertion_sort. induction l as [| r l [IHp IHs]]; cbn [fold_right].
  - split; constructor.
  - split.
    + rewrite insert_by_timestamp_perm. constructor. exact IHp.
    + apply insert_by_timestamp_sorted. exact IHs.
Qed.

Lemma prices_not_null_some (r : Tick.t) :
  prices_not_null r = true
  <-> exists bid ask, Tick.bestBid r = Some bid /\ Tick.bestAsk r = Some ask.
Proof.
  unfold prices_not_null. destruct (Tick.bestBid r), (Tick.bestAsk r); split;
    try discriminate; eauto; intros (b & a & H1 & H2); discriminate.
Qed.

(** The frames the loader returns. *)
Lemma collect_frame_some (sort : list Tick.t -> list Tick.t) (scanned df : list Tick.t) :
  sorts_by_timestamp sort ->
  collect_frame sort scanned = Some df ->
  df <> []
  /\ StronglySorted time_le df
  /\ Forall (fun r => prices_not_null r = true) df
  /\ Permutation df (filter prices_not_null scanned).
Proof.
  intros Hsort H. unfold collect_frame in H. cbv zeta in H.
  destruct (Hsort (filter prices_not_null scanned)) as [Hp Hs].
  destruct (sort (filter prices_not_null scanned)) as [| r rows] eqn:E; [discriminate |].
  injection H as <-.
  split; [discriminate |]. split; [exact Hs |]. split; [| exact Hp].
  apply Forall_forall. intros x Hx. apply (Permutation_in x Hp) in Hx.
  apply filter_In in Hx. tauto.
Qed.

Lemma sorted_head_least (b : Tick.t) (rows : list Tick.t) :
  StronglySorted time_le (b :: rows) ->
  forall r, In r (b :: rows) -> Tick.timestamp b <= Tick.timestamp r.
Proof.
  intros H r Hin. apply StronglySorted_inv in H. destruct H as [_ H].
  destruct Hin as [<- | Hin]; [lia |].
  rewrite Forall_forall in H. exact (H r Hin).
Qed.

Lemma sorted_last_greatest (rows : list Tick.t) (a : Tick.t) :
  StronglySorted time_le (rows ++ [a]) ->
  forall r, In r (rows ++ [a]) -> Tick.timestamp r <= Tick.timestamp a.
Proof.
  induction rows as [| x rows IH]; intros H r Hin.
  - destruct Hin as [<- | []]. lia.
  - cbn [app] in H. apply StronglySorted_inv in H. destruct H as [Hs Hx].
    destruct Hin as [<- | Hin]; [| exact (IH Hs r Hin)].
    rewrite Forall_forall in Hx. apply (Hx a). apply in_or_app. right. left. reflexivity.
Qed.

(** On frames without null prices, the second one sorted, the deviation of
    the last joined row is defined exactly when the second frame starts at
    or before the last row of the first. *)
Lemma last_deviation_defined (rows1 : list Tick.t) (a b : Tick.t) (rows2 : list Tick.t) :
  prices_not_null a = true ->
  Forall (fun r => prices_not_null r = true) (b :: rows2) ->
  StronglySorted time_le (b :: rows2) ->
  ((exists d, last (deviation_column (join_asof (rows1 ++ [a]) (b :: rows2))) None = Some d)
   <-> Tick.timestamp b <= Tick.timestamp a).
Proof.
  intros Ha Hb Hs.
  rewrite deviation_column_rows. unfold join_asof. rewrite !map_app. cbn [map].
  rewrite last_last. unfold row_deviation. cbn [Joined.bid_ex1 Joined.bid_ex2].
  apply prices_not_null_some in Ha. destruct Ha as (bid & ask & Hbid & _). rewrite Hbid.
  destruct (asof_backward_sorted (Tick.timestamp a) (b :: rows2) None Hs)
    as [[Hres Hlater] | (pre & m & post & Hsplit & Hpre & Hm & _ & Hres)].
  - rewrite Hres. cbn. split; [intros [d H]; discriminate |].
    intros Hle. apply Forall_inv in Hlater. lia.
  - rewrite Hres.
    assert (Hin : In m (b :: rows2))
      by (rewrite Hsplit; apply in_or_app; right; left; reflexivity).
    rewrite Forall_forall in Hb. pose proof (Hb m Hin) as Hmm.
    apply prices_not_null_some in Hmm. destruct Hmm as (bid2 & ask2 & Hbid2 & _).
    rewrite Hbid2. cbn. split; [| eauto]. intros _.
    pose proof (sorted_head_least b rows2 Hs m Hin). lia.
Qed.

Lemma returns_record_iff_last (symbol ex1 ex2 : string) (data1 data2 : list Tick.t)
      (thresholds : option (list float)) (zero_threshold : float) :
  StronglySorted time_le data1 ->
  StronglySorted time_le data2 ->
  Z.of_nat (length data1) < 2 ^ 63 ->
  ((exists r, analyze_pair_fast symbol ex1 ex2 data1 data2 thresholds zero_threshold = Some r)
   <-> (exists d, last (deviation_column (join_asof data1 data2)) None = Some d)
       /\ (3 <= length (effective_thresholds thresholds))%nat).
Proof.
  intros Hs1 Hs2 Hlen. split.
  - intros [r H].
    destruct (analyze_pair_fast_inv _ _ _ _ _ _ _ _ H) as (_ & t & Hrun & _).
    destruct (runs_with_last _ _ _ _ Hrun) as [L Hth]. eauto.
  - intros [[d L] Hth].
    destruct (analyze_joined_succeeds (join_asof data1 data2) thresholds zero_threshold
                d L Hth ltac:(rewrite join_asof_length; exact Hlen))
      as (t & _ & Hok).
    exists (dict_of (join_asof data1 data2) t).
    rewrite (analyze_pair_fast_joined _ _ _ _ _ _ _ Hs1 Hs2), Hok. reflexivity.
Qed.

End Frames.



(** Two frames returned by [load_exchange_symbol_data] are analysed by
    [analyze_pair_fast], with at least three thresholds, exactly when the
    second frame starts at or before the end of the first: the pair yields
    no record when every row of the second exchange is later than the last
    row of the first.  Frames have fewer than [2^63] rows. *)
Theorem loaded_pair_analysed_iff :
  forall (sort : list Tick.t -> list Tick.t) (scanned1 scanned2 data1 data2 : list Tick.t)
         (symbol ex1 ex2 : string) (thresholds : option (list float))
         (zero_threshold : float),
    sorts_by_timestamp sort ->
    collect_frame sort scanned1 = Some data1 ->
    collect_frame sort scanned2 = Some data2 ->
    Z.of_nat (length data1) < 2 ^ 63 ->
    (3 <= length (effective_thresholds thresholds))%nat ->
    exists a b,
      last data1 a = a /\ In a data1
      /\ hd b data2 = b /\ In b data2
      /\ (forall r, In r data1 -> Tick.timestamp r <= Tick.timestamp a)
      /\ (forall r, In r data2 -> Tick.timestamp b <= Tick.timestamp r)
      /\ ((exists r, analyze_pair_fast symbol ex1 ex2 data1 data2 thresholds zero_threshold
                     = Some r)
          <-> Tick.timestamp b <= Tick.timestamp a).
Proof.
  intros sort scanned1 scanned2 data1 data2 symbol ex1 ex2 thresholds zero_threshold
         Hsort H1 H2 Hlen Hth.
  destruct (collect_frame_some sort scanned1 data1 Hsort H1) as (Hne1 & Hs1 & Hp1 & _).
  destruct (collect_frame_some sort scanned2 data2 Hsort H2) as (Hne2 & Hs2 & Hp2 & _).
  destruct (exists_last Hne1) as (rows1 & a & ->).
  destruct data2 as [| b rows2]; [contradiction |].
  exists a, b.
  split; [apply last_last |].
  split; [apply in_or_app; right; left; reflexivity |].
  split; [reflexivity |]. split; [left; reflexivity |].
  split; [exact (sorted_last_greatest rows1 a Hs1) |].
  split; [exact (sorted_head_least b rows2 Hs2) |].
  rewrite (returns_record_iff_last symbol ex1 ex2 _ _ thresholds zero_threshold
             Hs1 Hs2 Hlen).
  assert (Ha : prices_not_null a = true).
  { rewrite Forall_forall in Hp1. apply Hp1. apply in_or_app. right. left. reflexivity. }
  rewrite (last_deviation_defined rows1 a b rows2 Ha Hp2 Hs2). tauto.
Qed.

Lemma loaded_pair_analysed_iff_witness :
  exists data1 data2,
    collect_frame insertion_sort (scanned_rows 100) = Some data1
    /\ collect_frame insertion_sort (flat_frame ++ scanned_rows 101) = Some data2
    /\ exists r, analyze_pair_fast "SYM" "A" "B" data1 data2 None default_zero_threshold
                 = Some r.
Proof.
  destruct (collect_frame insertion_sort (scanned_rows 100)) as [data1 |] eqn:E1;
    [| vm_compute in E1; discriminate E1].
  destruct (collect_frame insertion_sort (flat_frame ++ scanned_rows 101)) as [data2 |] eqn:E2;
    [| vm_compute in E2; discriminate E2].
  exists data1, data2. split; [reflexivity |]. split; [reflexivity |].
  destruct (loaded_pair_analysed_iff insertion_sort (scanned_rows 100)
              (flat_frame ++ scanned_rows 101) data1 data2 "SYM" "A" "B" None
              default_zero_threshold insertion_sort_sorts E1 E2)
    as (a & b & Ha & _ & Hb & _ & _ & _ & Hiff).
  - vm_compute in E1. injection E1 as <-. vm_compute. reflexivity.
  - cbn. lia.
  - apply Hiff. rewrite <- Ha, <- Hb.
    vm_compute in E1. injection E1 as <-. vm_compute in E2. injection E2 as <-.
    vm_compute. discriminate.
Defined.

(* ================================================================== *)
(** * Stretches of data: properties of [lib/analysis.py] *)

Section Stretches.

(** Two scans of the same rows from states that agree on [was_above] keep
    their distance. *)
Lemma scan_rows_shift :
  forall (rows : list (bool * bool)) (s1 s2 : scan_state) (k : Z),
    was_above s1 = was_above s2 ->
    cycles s1 = cycles s2 + k ->
    was_above (scan_rows rows s1) = was_above (scan_rows rows s2)
    /\ cycles (scan_rows rows s1) = cycles (scan_rows rows s2) + k.
Proof.
  induction rows as [| [a n] rows IH]; intros s1 s2 k Hw Hc; [split; assumption |].
  unfold scan_rows in *. cbn [fold_left]. apply IH.
  - unfold scan_row. cbn [fst snd]. rewrite Hw. destruct a; [reflexivity |].
    destruct (n && was_above s2); [reflexivity | exact Hw].
  - unfold scan_row. cbn [fst snd]. rewrite Hw. destruct a; [exact Hc |].
    destruct (n && was_above s2); cbn [cycles]; lia.
Qed.

(** A scan that starts armed counts at most one cycle more than the scan
    that starts idle. *)
Lemma scan_rows_armed :
  forall (rows : list (bool * bool)) (s1 s2 : scan_state) (k : Z),
    was_above s1 = true ->
    was_above s2 = false ->
    cycles s1 = cycles s2 + k ->
    cycles (scan_rows rows s2) + k <= cycles (scan_rows rows s1)
                                   <= cycles (scan_rows rows s2) + k + 1.
Proof.
  induction rows as [| [a n] rows IH]; intros s1 s2 k H1 H2 Hc; [cbn; lia |].
  unfold scan_rows in *. cbn [fold_left].
  assert (Hs1 : scan_row s1 (a, n)
               = if a then mkScan (cycles s1) true
                 else if n then mkScan (cycles s1 + 1) false else s1)
    by (unfold scan_row; cbn [fst snd]; rewrite H1; destruct a, n; reflexivity).
  assert (Hs2 : scan_row s2 (a, n) = if a then mkScan (cycles s2) true else s2)
    by (unfold scan_row; cbn [fst snd]; rewrite H2; destruct a, n; reflexivity).
  rewrite Hs1, Hs2. clear Hs1 Hs2.
  destruct a.
  - destruct (scan_rows_shift rows (mkScan (cycles s1) true) (mkScan (cycles s2) true) k
                eq_refl Hc) as [_ E].
    unfold scan_rows in E. lia.
  - destruct n.
    + destruct (scan_rows_shift rows (mkScan (cycles s1 + 1) false) s2 (k + 1)) as [_ E].
      * cbn [was_above]. symmetry. exact H2.
      * cbn [cycles]. lia.
      * unfold scan_rows in E. lia.
    + apply IH; assumption.
Qed.

Lemma scan_rows_concat (rows1 rows2 : list (bool * bool)) :
  let c1 := cycles (scan_rows rows1 (mkScan 0 false)) in
  let c2 := cycles (scan_rows rows2 (mkScan 0 false)) in
  c1 + c2 <= cycles (scan_rows (rows1 ++ rows2) (mkScan 0 false)) <= c1 + c2 + 1.
Proof.
  cbv zeta. rewrite scan_rows_app.
  set (s := scan_rows rows1 (mkScan 0 false)).
  destruct (was_above s) eqn:Hw.
  - pose proof (scan_rows_armed rows2 s (mkScan 0 false) (cycles s) Hw eq_refl) as H.
    cbn [cycles] in H. specialize (H eq_refl). lia.
  - destruct (scan_rows_shift rows2 s (mkScan 0 false) (cycles s)) as [_ E].
    + rewrite Hw. reflexivity.
    + cbn [cycles]. lia.
    + lia.
Qed.

Lemma asof_backward_later (key : Z) (late : list Tick.t) :
  Forall (fun r => key < Tick.timestamp r) late ->
  forall (right : list Tick.t) (found : option Tick.t),
    asof_backward key (right ++ late) found = asof_backward key right found.
Proof.
  intros Hlate. induction right as [| r right IH]; intros found.
  - cbn [app asof_backward]. destruct late as [| l late]; [reflexivity |].
    apply Forall_inv in Hlate. cbn [asof_backward].
    destruct (Z.leb_spec (Tick.timestamp l) key); [lia | reflexivity].
  - cbn [app asof_backward]. destruct (Tick.timestamp r <=? key); [apply IH | reflexivity].
Qed.

End Stretches.

(** The cycles of two stretches of rows put end to end are those of the two
    stretches, plus one when a cycle starts in the first stretch and completes in
    the second: the count of the whole is the sum of the two counts or one
    more. *)
Theorem cycles_of_two_stretches :
  forall s1 s2 : list (option bool * option bool),
    exists c1 c2 c,
      count_complete_cycles (map fst s1) (map snd s1) = Ok c1
      /\ count_complete_cycles (map fst s2) (map snd s2) = Ok c2
      /\ count_complete_cycles (map fst (s1 ++ s2)) (map snd (s1 ++ s2)) = Ok c
      /\ c1 + c2 <= c <= c1 + c2 + 1.
Proof.
  intros s1 s2.
  exists (cycles (scan_rows (rows_of s1) (mkScan 0 false))),
         (cycles (scan_rows (rows_of s2) (mkScan 0 false))),
         (cycles (scan_rows (rows_of (s1 ++ s2)) (mkScan 0 false))).
  rewrite !count_complete_cycles_rows.
  repeat split; try reflexivity;
    unfold rows_of; rewrite map_app; apply scan_rows_concat.
Qed.

(** No look-ahead: rows of the second frame that are later than every row
    of the first do not change the result of [analyze_pair_fast]. *)
Theorem later_rows_change_nothing :
  forall (symbol ex1 ex2 : string) (data1 data2 late : list Tick.t)
         (thresholds : option (list float)) (zero_threshold : float),
    StronglySorted time_le (data2 ++ late) ->
    (forall a r, In a data1 -> In r late -> Tick.timestamp a < Tick.timestamp r) ->
    analyze_pair_fast symbol ex1 ex2 data1 (data2 ++ late) thresholds zero_threshold
    = analyze_pair_fast symbol ex1 ex2 data1 data2 thresholds zero_threshold.
Proof.
  intros symbol ex1 ex2 data1 data2 late thresholds zero_threshold Hsorted Hlate.
  assert (E : join_asof data1 (data2 ++ late) = join_asof data1 data2).
  { unfold join_asof. apply map_ext_in. intros a Ha.
    rewrite (asof_backward_later (Tick.timestamp a) late); [reflexivity |].
    apply Forall_forall. intros r Hr. exact (Hlate a r Ha Hr). }
  assert (Hs2 : StronglySorted time_le data2).
  { clear - Hsorted. induction data2 as [| x rest IH]; [constructor |].
    cbn [app] in Hsorted. apply StronglySorted_inv in Hsorted.
    destruct Hsorted as [Hrest Hall].
    constructor; [exact (IH Hrest) |].
    apply Forall_app in Hall. tauto. }
  unfold analyze_pair_fast.
  rewrite (proj2 (is_sorted_iff (data2 ++ late)) Hsorted), (proj2 (is_sorted_iff data2) Hs2), E.
  reflexivity.
Qed.

Lemma later_rows_change_nothing_witness :
  analyze_pair_fast "SYM" "A" "B" swing_frame
    (flat_frame ++ [Tick.mk (7 * minute) (Some 250%float) (Some 251%float)]) None default_zero_threshold
  = analyze_pair_fast "SYM" "A" "B" swing_frame flat_frame None default_zero_threshold.
Proof.
  apply later_rows_change_nothing.
  - unfold flat_frame, frame_of. cbn [length seq combine map app].
    repeat (apply SSorted_cons || apply SSorted_nil || apply Forall_cons || apply Forall_nil);
      unfold time_le, minute; cbn; lia.
  - unfold swing_frame, frame_of. cbn [length seq combine map].
    intros a r Ha [<- | []]. cbn [Tick.timestamp].
    repeat (destruct Ha as [<- | Ha]; [unfold minute; cbn; lia |]). destruct Ha.
Defined.

(** ** The excursion at the end of the data *)

Section OpenCycle.

(** When the last deviation is above the threshold, the loop of
    [count_complete_cycles] ends with [was_above] set. *)
Lemma scan_ends_armed (deviation : Polars.series float) (threshold zero_threshold d : float) :
  last deviation None = Some d ->
  (threshold <? abs d)%float = true ->
  exists st,
    for_range (cycle_body (above_column deviation threshold)
                          (neutral_column deviation zero_threshold))
              (seq 0 (length (above_column deviation threshold))) (mkScan 0 false) = Ok st
    /\ was_above st = true.
Proof.
  intros Hlast Hd.
  destruct (flag_columns_rows deviation threshold zero_threshold) as [Ha Hn].
  rewrite Ha, Hn. rewrite !length_map.
  set (flags := map (fun d => (option_map (fun x => Polars.gt (abs x) threshold) d,
                               option_map (fun x => Polars.lt (abs x) zero_threshold) d))
                    deviation).
  assert (Hlen : length deviation = length flags) by (unfold flags; rewrite length_map; reflexivity).
  rewrite Hlen.
  pose proof (for_range_scan_rows flags [] [] (mkScan 0 false) eq_refl) as H.
  cbn [app length] in H. rewrite H. eexists. split; [reflexivity |].
  assert (Hne : deviation <> []) by (intros ->; discriminate Hlast).
  destruct (exists_last Hne) as (pre & x & E). rewrite E in Hlast.
  rewrite last_last in Hlast. subst x.
  unfold flags. rewrite E, map_app. cbn [map option_map].
  rewrite (gt_of_ltb threshold (abs d) Hd).
  unfold rows_of. rewrite map_app, scan_rows_app. reflexivity.
Qed.

End OpenCycle.

(** When [pattern_break_XXXbp] is [True] in a returned record, the last row
    is above that threshold and the loop of [count_complete_cycles] for it
    ended with [was_above] set: the excursion in progress at the end of the
    data is not among the [opportunity_cycles_XXXbp] of the record. *)
Theorem pattern_break_means_open_cycle :
  forall (symbol ex1 ex2 : string) (data1 data2 : list Tick.t)
         (thresholds : option (list float)) (zero_threshold : float) (r : dict)
         (suffix : string) (i : nat) (threshold : float),
    analyze_pair_fast symbol ex1 ex2 data1 data2 thresholds zero_threshold = Some r ->
    In (suffix, i) [("030bp", 0); ("050bp", 1); ("040bp", 2)]%string%nat ->
    nth_error (effective_thresholds thresholds) i = Some threshold ->
    get r ("pattern_break_" ++ suffix) = Some (VBool true) ->
    let deviation := deviation_column (join_asof data1 data2) in
    let above := above_column deviation threshold in
    exists st,
      for_range (cycle_body above (neutral_column deviation zero_threshold))
                (seq 0 (length above)) (mkScan 0 false) = Ok st
      /\ was_above st = true
      /\ get r ("opportunity_cycles_" ++ suffix) = Some (VInt (cycles st)).
Proof.
  intros symbol ex1 ex2 data1 data2 thresholds zero_threshold r suffix i threshold
         H Hin Hth Hbreak deviation above.
  destruct (analyze_pair_fast_inv _ _ _ _ _ _ _ _ H) as (_ & t & Hrun & ->).
  unfold runs_with in Hrun. cbv zeta in Hrun.
  fold (effective_thresholds thresholds) in Hrun. fold deviation in Hrun.
  destruct Hrun as (_ & _ & _ & _ & _ & _ & _ & (G0 & G1 & G2) & (C0 & C1 & C2) & _ & _ & L & _).
  destruct (get_threshold_fields (join_asof data1 data2) t)
    as ((F0 & _ & _ & _ & B0) & (F1 & _ & _ & _ & B1) & (F2 & _ & _ & _ & B2)).
  cbv zeta in F0, F1, F2, B0, B1, B2.
  assert (Hcount :
            forall th c,
              count_complete_cycles (above_column deviation th)
                                    (neutral_column deviation zero_threshold) = Ok c ->
              (th <? abs (t_last t))%float = true ->
              exists st,
                for_range (cycle_body (above_column deviation th)
                                      (neutral_column deviation zero_threshold))
                          (seq 0 (length (above_column deviation th))) (mkScan 0 false)
                = Ok st
                /\ was_above st = true /\ c = cycles st).
  { intros th c Hc Hb.
    destruct (scan_ends_armed deviation th zero_threshold (t_last t) L Hb) as (st & Hst & Hw).
    exists st. split; [exact Hst |]. split; [exact Hw |].
    unfold count_complete_cycles in Hc. cbv zeta in Hc. rewrite Hst in Hc.
    cbn [bind] in Hc. congruence. }
  destruct Hin as [E | [E | [E | []]]]; injection E as <- <-.
  - assert (threshold = t_th0 t) by congruence. subst threshold.
    change ("pattern_break_" ++ "030bp")%string with "pattern_break_030bp"%string in Hbreak.
    rewrite B0 in Hbreak.
    destruct (Hcount (t_th0 t) (t_cycles0 t) C0 ltac:(congruence)) as (st & Hst & Hw & Hc).
    exists st. split; [exact Hst |]. split; [exact Hw |]. rewrite <- Hc. exact F0.
  - assert (threshold = t_th1 t) by congruence. subst threshold.
    change ("pattern_break_" ++ "050bp")%string with "pattern_break_050bp"%string in Hbreak.
    rewrite B1 in Hbreak.
    destruct (Hcount (t_th1 t) (t_cycles1 t) C1 ltac:(congruence)) as (st & Hst & Hw & Hc).
    exists st. split; [exact Hst |]. split; [exact Hw |]. rewrite <- Hc. exact F1.
  - assert (threshold = t_th2 t) by congruence. subst threshold.
    change ("pattern_break_" ++ "040bp")%string with "pattern_break_040bp"%string in Hbreak.
    rewrite B2 in Hbreak.
    destruct (Hcount (t_th2 t) (t_cycles2 t) C2 ltac:(congruence)) as (st & Hst & Hw & Hc).
    exists st. split; [exact Hst |]. split; [exact Hw |]. rewrite <- Hc. exact F2.
Qed.

(** A frame that ends far from parity. *)
Lemma pattern_break_means_open_cycle_witness :
  exists r st,
    analyze_pair_fast "SYM" "A" "B" trend_frame flat_frame None default_zero_threshold
    = Some r
    /\ for_range
         (cycle_body
            (above_column (deviation_column (join_asof trend_frame flat_frame)) 0.3)
            (neutral_column (deviation_column (join_asof trend_frame flat_frame))
                            default_zero_threshold))
         (seq 0 (length (above_column (deviation_column (join_asof trend_frame flat_frame))
                                      0.3)))
         (mkScan 0 false) = Ok st
    /\ was_above st = true
    /\ get r "opportunity_cycles_030bp" = Some (VInt (cycles st)).
Proof.
  destruct (analyze_pair_fast "SYM" "A" "B" trend_frame flat_frame None
                              default_zero_threshold) as [r |] eqn:E;
    [| vm_compute in E; discriminate E].
  destruct (pattern_break_means_open_cycle "SYM" "A" "B" trend_frame flat_frame None
              default_zero_threshold r "030bp" 0%nat 0.3%float E)
    as (st & Hst & Hw & Hc).
  - left. reflexivity.
  - reflexivity.
  - vm_compute in E. injection E as <-. vm_compute. reflexivity.
  - exists r, st. repeat split; assumption.
Defined.
